(** * Icebreaker: profile analysis and conversation-starter selection

    A shallow embedding of the profile-analysis service
    ([analyzeProfileForRAG] and its helpers), of [ConversationService]
    (diverse and targeted selection, relevance scoring, personalization,
    session tracking), of the fallback chain of
    [IntelligentQuestionService], of the analysis that the scraper runs on
    a scraped profile and of the years that the icebreaker service hands
    to the question service, followed by the properties established about
    them.

    Conventions of the embedding:
    - a JavaScript string is a [string] holding its UTF-8 bytes; [\d] and
      [\w] are the ASCII classes that they are in a regular expression
      without the [u] flag, [\s] and the white space that [parseInt] skips
      are all the white-space characters of the language, each read from
      its UTF-8 bytes; case folding acts on ASCII letters, and the text put
      in by [replace] holds no [$] pattern;
    - a JavaScript number that holds a count is a [Z]; one that holds a
      score or a number of years is a [Q] (exact arithmetic, no rounding of
      the binary representation, no [NaN]); where [parseInt] can produce
      [NaN], the number is an exact integer or [NaN];
    - an optional field is an [option]; a string or a number is truthy as
      in JavaScript (non-empty, non-zero);
    - [Math.random], [Date], [Number.prototype.toString] and the
      text-completion service belong to the environment: the random source
      is an explicit stream threaded through the code, the others are
      parameters. *)

From stdpp Require Import gmap strings list.
From Stdlib Require Import Ascii QArith Qround Qabs.

Open Scope Z_scope.

(** ** JavaScript strings *)

Module JsString.

Definition code (c : ascii) : N := N_of_ascii c.

Definition between (lo hi : N) (c : ascii) : bool :=
  ((lo <=? code c) && (code c <=? hi))%N.

(** [\d] *)
Definition isDigit (c : ascii) : bool := between 48 57 c.

Definition isUpper (c : ascii) : bool := between 65 90 c.
Definition isLower (c : ascii) : bool := between 97 122 c.

(** [\s], ASCII part: tab, line feed, vertical tab, form feed, carriage
    return, space. *)
Definition isSpace (c : ascii) : bool :=
  between 9 13 c || (code c =? 32)%N.

(** [\s]: the number of bytes of the white-space character at the head
    of [s], and 0 when there is none.  Besides the ASCII ones these are,
    in UTF-8, U+00A0 (C2 A0), U+1680 (E1 9A 80), U+2000 to U+200A
    (E2 80 80 to E2 80 8A), U+2028, U+2029 and U+202F (E2 80 A8, A9 and
    AF), U+205F (E2 81 9F), U+3000 (E3 80 80) and U+FEFF (EF BB BF). *)
Definition spaceWidth (s : string) : nat :=
  match s with
  | EmptyString => 0
  | String a s1 =>
      if isSpace a then 1
      else if (code a =? 194)%N then
        match s1 with
        | String b _ => if (code b =? 160)%N then 2 else 0
        | EmptyString => 0
        end
      else if (code a =? 225)%N then
        match s1 with
        | String b (String c _) =>
            if (code b =? 154)%N && (code c =? 128)%N then 3 else 0
        | _ => 0
        end
      else if (code a =? 226)%N then
        match s1 with
        | String b (String c _) =>
            if (code b =? 128)%N
               && (between 128 138 c || (code c =? 168)%N || (code c =? 169)%N
                   || (code c =? 175)%N)
            then 3
            else if (code b =? 129)%N && (code c =? 159)%N then 3
            else 0
        | _ => 0
        end
      else if (code a =? 227)%N then
        match s1 with
        | String b (String c _) =>
            if (code b =? 128)%N && (code c =? 128)%N then 3 else 0
        | _ => 0
        end
      else if (code a =? 239)%N then
        match s1 with
        | String b (String c _) =>
            if (code b =? 187)%N && (code c =? 191)%N then 3 else 0
        | _ => 0
        end
      else 0
  end.

(** [\w] *)
Definition isWord (c : ascii) : bool :=
  isDigit c || isUpper c || isLower c || (code c =? 95)%N.

Definition lowerChar (c : ascii) : ascii :=
  if isUpper c then ascii_of_N (code c + 32) else c.

Fixpoint toLowerCase (s : string) : string :=
  match s with
  | EmptyString => EmptyString
  | String c s' => String (lowerChar c) (toLowerCase s')
  end.

Fixpoint startsWith (p s : string) : bool :=
  match p, s with
  | EmptyString, _ => true
  | String _ _, EmptyString => false
  | String a p', String b s' =>
      if Ascii.eqb a b then startsWith p' s' else false
  end.

(** [s.includes(p)] *)
Fixpoint includes (p s : string) : bool :=
  startsWith p s ||
  match s with
  | EmptyString => false
  | String _ s' => includes p s'
  end.

(** [s.toLowerCase().includes(p)] *)
Definition includesCI (p s : string) : bool := includes p (toLowerCase s).

(** A case-insensitive literal at the head of [s] (the pattern is given in
    lower case). *)
Definition startsWithCI (p s : string) : bool := startsWith p (toLowerCase s).

Fixpoint drop (n : nat) (s : string) : string :=
  match n, s with
  | O, _ => s
  | S _, EmptyString => EmptyString
  | S n', String _ s' => drop n' s'
  end.

Fixpoint take (n : nat) (s : string) : string :=
  match n, s with
  | O, _ => EmptyString
  | S _, EmptyString => EmptyString
  | S n', String c s' => String c (take n' s')
  end.

(** The longest prefix of characters satisfying [p], and the rest. *)
Fixpoint span (p : ascii -> bool) (s : string) : string * string :=
  match s with
  | EmptyString => (EmptyString, EmptyString)
  | String c s' =>
      if p c then let '(a, b) := span p s' in (String c a, b)
      else (EmptyString, s)
  end.

(** The string made of the given bytes. *)
Definition ofBytes (codes : list N) : string :=
  foldr (fun n s => String (ascii_of_N n) s) EmptyString codes.

(** The white-space characters of JavaScript, listed one by one, each
    with its UTF-8 bytes: what [\s] matches and what [parseInt] skips. *)
Definition whiteSpace : list string :=
  List.map ofBytes
    [ [9]; [10]; [11]; [12]; [13]; [32]; [194; 160]; [225; 154; 128];
      [226; 128; 128]; [226; 128; 129]; [226; 128; 130]; [226; 128; 131];
      [226; 128; 132]; [226; 128; 133]; [226; 128; 134]; [226; 128; 135];
      [226; 128; 136]; [226; 128; 137]; [226; 128; 138]; [226; 128; 168];
      [226; 128; 169]; [226; 128; 175]; [226; 129; 159]; [227; 128; 128];
      [239; 187; 191] ]%N.

(** The longest prefix of white-space characters, [\s*], and the rest.
    [pending] counts the bytes of the current character still to be
    taken. *)
Fixpoint spanSpacesFrom (pending : nat) (s : string) : string * string :=
  match s with
  | EmptyString => (EmptyString, EmptyString)
  | String c s' =>
      match (match pending with O => spaceWidth s | S _ => pending end) with
      | O => (EmptyString, s)
      | S k => let '(a, b) := spanSpacesFrom k s' in (String c a, b)
      end
  end.

Definition spanSpaces (s : string) : string * string := spanSpacesFrom O s.

Definition skipSpaces (s : string) : string := snd (spanSpaces s).

Definition digitValue (c : ascii) : Z := Z.of_N (code c) - 48.

Fixpoint parseDigits (acc : Z) (s : string) : Z :=
  match s with
  | EmptyString => acc
  | String c s' => parseDigits (10 * acc + digitValue c) s'
  end.

(** [parseInt] on a run of decimal digits. *)
Definition parseInt (digits : string) : Z := parseDigits 0 digits.

Fixpoint allChars (p : ascii -> bool) (s : string) : bool :=
  match s with
  | EmptyString => true
  | String c s' => p c && allChars p s'
  end.

Fixpoint anyChar (p : ascii -> bool) (s : string) : bool :=
  match s with
  | EmptyString => false
  | String c s' => p c || anyChar p s'
  end.

(** [s.replace(/(p1|p2|...)/gi, r)] for literal alternatives, given in
    lower case and tried in order at each position; [r] is inserted as
    it stands.  [skip] counts the characters of the current match still
    to be dropped. *)
Fixpoint replaceFrom (skip : nat) (pats : list string) (r s : string) : string :=
  match s with
  | EmptyString => EmptyString
  | String c s' =>
      match skip with
      | S k => replaceFrom k pats r s'
      | O =>
          match List.find (fun p => startsWithCI p s) pats with
          | Some p =>
              match String.length p with
              | O => String c (replaceFrom O pats r s')
              | S k => r +:+ replaceFrom k pats r s'
              end
          | None => String c (replaceFrom O pats r s')
          end
      end
  end.

Definition replaceAllCI (pats : list string) (r s : string) : string :=
  replaceFrom O pats r s.

(** [xs.join(sep)] *)
Fixpoint join (sep : string) (xs : list string) : string :=
  match xs with
  | [] => EmptyString
  | [x] => x
  | x :: rest => x +:+ sep +:+ join sep rest
  end.

(** A string is truthy when it is not empty. *)
Definition truthy (s : string) : bool :=
  match s with EmptyString => false | _ => true end.

End JsString.

(** ** JavaScript values used by the services *)

Module Js.

Import JsString.

(** [o] is present and truthy. *)
Definition truthyStr (o : option string) : bool :=
  match o with Some s => truthy s | None => false end.

(** [o || d] on an optional string. *)
Definition orStr (o : option string) (d : string) : string :=
  match o with
  | Some s => if truthy s then s else d
  | None => d
  end.

(** [o1 || o2] where both may be absent. *)
Definition orOpt (o1 o2 : option string) : option string :=
  if truthyStr o1 then o1 else o2.

(** An optional string inside a template literal. *)
Definition show (o : option string) : string := default "undefined"%string o.

(** [o?.toLowerCase().includes(p)]: absent gives [undefined], which is
    falsy. *)
Definition optIncludesCI (p : string) (o : option string) : bool :=
  match o with Some s => includesCI p s | None => false end.

(** [xs.slice(0, k)] for an integer [k]; a negative end counts from the
    end of the array. *)
Definition slice0 {A} (k : Z) (xs : list A) : list A :=
  if k <? 0 then firstn (Z.to_nat (Z.of_nat (length xs) + k)) xs
  else firstn (Z.to_nat k) xs.

(** Insertion into a [Set], which keeps first-insertion order. *)
Definition setAdd (x : string) (s : list string) : list string :=
  if bool_decide (x ∈ s) then s else s ++ [x].

Definition qtruthy (q : Q) : bool := negb (Qeq_bool q 0).

Definition qmax (a b : Q) : Q := if Qle_bool a b then b else a.

(** A stable sort, descending by [key]: the order that
  [xs.sort((a, b) => key(b) - key(a))] produces. *)
Section Sort.
Context {A : Type} (key : A -> Q).

Fixpoint insertDesc (x : A) (l : list A) : list A :=
  match l with
  | [] => [x]
  | y :: l' => if Qle_bool (key y) (key x) then x :: l else y :: insertDesc x l'
  end.

Definition sortDesc (l : list A) : list A := foldr insertDesc [] l.
End Sort.

End Js.

(** ** The profile-analysis service *)

Module ProfileAnalysis.

Import JsString Js.

(** *** Profiles as the analyzer receives them *)

Record Experience := {
  exp_title : option string;
  exp_company : option string;
  exp_duration : option string;
  exp_isCurrent : option bool;
  exp_description : option string
}.

Record Education := {
  edu_school : option string;
  edu_degree : option string
}.

Record Volunteer := {
  vol_cause : option string;
  vol_organization : option string
}.

Record RawProfile := {
  name : option string;
  title : option string;
  currentRole : option string;
  currentCompany : option string;
  location : option string;
  industry : option string;
  yearsOfExperience : option Q;
  experience : option (list Experience);
  skills : option (list string);
  certifications : option (list string);
  education : option (list Education);
  volunteerExperience : option (list Volunteer);
  languages : option (list string)
}.

(** *** The derived context *)

Inductive CareerLevel := entry | mid | senior | executive.

(** ['high' | 'medium' | 'low'], used for significance, relevance and
    confidence. *)
Inductive Tier := high | medium | low.

Inductive TransitionType :=
  promotion | career_change | industry_switch | company_change.

Inductive OpportunityType :=
  | shared_experience
  | industry_connection
  | skill_synergy
  | educational_background
  | career_advice.

Record PersonalContext := {
  pc_name : string;
  pc_currentRole : string;
  pc_currentCompany : string;
  pc_location : option string;
  pc_industry : option string;
  pc_yearsOfExperience : Q;
  pc_careerLevel : CareerLevel
}.

Record CareerStep := {
  cs_title : string;
  cs_company : string;
  cs_duration : option string;
  cs_isCurrent : bool;
  cs_significance : Tier
}.

Record CareerTransition := {
  ct_from : string;
  ct_to : string;
  ct_type : TransitionType;
  ct_significance : string
}.

Record ProfessionalJourney := {
  careerProgression : list CareerStep;
  keyTransitions : list CareerTransition;
  industryExperience : list string;
  companyTypes : list string;
  roleTypes : list string
}.

Record ExpertiseContext := {
  coreSkills : list string;
  technicalSkills : list string;
  industryKnowledge : list string;
  ec_certifications : list string;
  specializations : list string
}.

Record InterestContext := {
  professionalInterests : list string;
  volunteerCauses : list string;
  educationalBackground : list string;
  ic_languages : list string;
  likelyTopics : list string
}.

Record ConversationTopic := {
  topic : string;
  relevance : Tier;
  context : string;
  suggestedApproach : string
}.

Record NetworkingOpportunity := {
  no_type : OpportunityType;
  no_description : string;
  no_confidence : Tier
}.

Record ProfileContext := {
  personalInfo : PersonalContext;
  professionalJourney : ProfessionalJourney;
  expertise : ExpertiseContext;
  interests : InterestContext;
  conversationTopics : list ConversationTopic;
  networkingOpportunities : list NetworkingOpportunity
}.

(** *** Duration strings *)

(** [s.match(/(\d+)\s*(?:u1|u2|...)s?/i)], first capture group read by
    [parseInt].  The units are given in lower case.  The match starts at
    the first run of digits that is followed, after optional white space,
    by one of the units; the optional final [s] never decides a match. *)
Fixpoint matchCount (units : list string) (s : string) : option Z :=
  match s with
  | EmptyString => None
  | String c s' =>
      if isDigit c then
        let '(digits, rest) := span isDigit s in
        if existsb (fun u => startsWithCI u (skipSpaces rest)) units
        then Some (parseInt digits)
        else matchCount units s'
      else matchCount units s'
  end.

(** [/(\d+)\s*(?:yr|year)s?/i] *)
Definition yearMatch : string -> option Z := matchCount ["yr"; "year"]%string.

(** [/(\d+)\s*(?:mo|month)s?/i] *)
Definition monthMatch : string -> option Z := matchCount ["mo"; "month"]%string.

(** [\w{3}\s+\d{4}] at the head of [s]: the matched text and what follows. *)
Definition matchMonthYear (s : string) : option (string * string) :=
  let w := take 3 s in
  let '(sp, r) := spanSpaces (drop 3 s) in
  let d := take 4 r in
  if (String.length w =? 3)%nat && allChars isWord w && truthy sp
     && (String.length d =? 4)%nat && allChars isDigit d
  then Some (w +:+ sp +:+ d, drop 4 r)
  else None.

(** The en dash as it is stored in a byte string. *)
Definition enDash : string := "–".

(** [[-–]] at the head of [s]. *)
Definition matchDash (s : string) : option string :=
  if startsWith "-" s then Some (drop 1 s)
  else if startsWith enDash s then Some (drop (String.length enDash) s)
  else None.

(** [/(\w{3}\s+\d{4})\s*[-–]\s*(\w{3}\s+\d{4}|Present)/i] anchored at the
    head of [s]: the two capture groups. *)
Definition matchDateRangeAt (s : string) : option (string * string) :=
  match matchMonthYear s with
  | None => None
  | Some (g1, r1) =>
      match matchDash (skipSpaces r1) with
      | None => None
      | Some r2 =>
          let r3 := skipSpaces r2 in
          match matchMonthYear r3 with
          | Some (g2, _) => Some (g1, g2)
          | None =>
              if startsWithCI "present" r3 then Some (g1, take 7 r3) else None
          end
      end
  end.

(** The same expression, unanchored (leftmost match). *)
Fixpoint dateRangeMatch (s : string) : option (string * string) :=
  match matchDateRangeAt s with
  | Some g => Some g
  | None =>
      match s with
      | EmptyString => None
      | String _ s' => dateRangeMatch s'
      end
  end.

(** Milliseconds in the average month of the source,
    [1000 * 60 * 60 * 24 * 30.44]. *)
Definition msPerMonth : Z := 2630016000.

(** [Math.ceil(n / d)] for integers, [d > 0]. *)
Definition ceilDiv (n d : Z) : Z := - ((- n) / d).

Section Engine.

(** [new Date(text).getTime()]: [None] stands for an invalid date. *)
Context (Date_parse : string -> option Z).
(** [new Date().getTime()] *)
Context (Date_now : Z).
(** A number inside a template literal. *)
Context (Number_toString : Q -> string).

(** The months that one duration string contributes: the body of the
    [forEach] in [calculateExperienceYears]. *)
Definition durationMonths (duration : string) : Z :=
  let months :=
    match yearMatch duration with Some y => y * 12 | None => 0 end
    + match monthMatch duration with Some m => m | None => 0 end in
  if months =? 0 then
    match dateRangeMatch duration with
    | Some (g1, g2) =>
        let startDate := Date_parse g1 in
        let endDate :=
          if String.eqb (toLowerCase g2) "present" then Some Date_now
          else Date_parse g2 in
        match startDate, endDate with
        | Some t1, Some t2 => ceilDiv (Z.abs (t2 - t1)) msPerMonth
        | _, _ => 0
        end
    | None => 0
    end
  else months.

Definition experienceMonths (exp : Experience) : Z :=
  match exp_duration exp with
  | Some d => if truthy d then durationMonths d else 0
  | None => 0
  end.

Definition totalMonths (experience : list Experience) : Z :=
  fold_left (fun total exp => total + experienceMonths exp) experience 0.

(** [Math.round((totalMonths / 12) * 10) / 10] *)
Definition roundToTenth (months : Z) : Q :=
  inject_Z ((10 * months + 6) / 12) / 10.

Definition calculateExperienceYears (experience : option (list Experience)) : Q :=
  match experience with
  | None | Some [] => 0
  | Some exps => qmax (roundToTenth (totalMonths exps)) 0
  end.

Definition determineCareerLevel (years : Q) (experience : option (list Experience))
  : CareerLevel :=
  if Qle_bool 15 years then executive
  else if Qle_bool 8 years then senior
  else if Qle_bool 3 years then mid
  else entry.

Definition determineRoleSignificance (exp : Experience) (index : nat) : Tier :=
  if (index =? 0)%nat then high
  else if optIncludesCI "director" (exp_title exp)
          || optIncludesCI "vp" (exp_title exp)
          || optIncludesCI "head" (exp_title exp) then high
  else if (index <=? 2)%nat then medium
  else low.

Definition determineTransitionType (from to : Experience) : TransitionType :=
  if bool_decide (exp_company from = exp_company to) then promotion
  else if optIncludesCI "engineer" (exp_title from)
          && optIncludesCI "manager" (exp_title to) then career_change
  else company_change.

Fixpoint identifyCareerTransitions (experience : list Experience)
  : list CareerTransition :=
  match experience with
  | current :: (previous :: _) as rest =>
      {| ct_from := show (exp_title previous) +:+ " at " +:+ show (exp_company previous);
         ct_to := show (exp_title current) +:+ " at " +:+ show (exp_company current);
         ct_type := determineTransitionType previous current;
         ct_significance :=
           "Transitioned from " +:+ show (exp_title previous)
           +:+ " to " +:+ show (exp_title current) |}
      :: identifyCareerTransitions rest
  | _ => []
  end.

(** [if (cond) set.add(x)] *)
Definition addIf (cond : bool) (x : string) (s : list string) : list string :=
  if cond then setAdd x s else s.

Definition extractIndustries (experience : list Experience) : list string :=
  fold_left (fun industries exp =>
    addIf (optIncludesCI "data" (exp_title exp)) "Data Science"
      (addIf (optIncludesCI "software" (exp_title exp)) "Software Development"
        (addIf (optIncludesCI "bank" (exp_company exp)) "Finance"
          (addIf (optIncludesCI "tech" (exp_company exp)) "Technology" industries))))
    experience [].

Definition categorizeCompanies (experience : list Experience) : list string :=
  fold_left (fun types exp =>
    addIf (optIncludesCI "corp" (exp_company exp)
           || optIncludesCI "inc" (exp_company exp)) "Corporation"
      (addIf (optIncludesCI "startup" (exp_company exp)) "Startup" types))
    experience [].

Definition categorizeRoles (experience : list Experience) : list string :=
  fold_left (fun types exp =>
    addIf (optIncludesCI "director" (exp_title exp)) "Leadership"
      (addIf (optIncludesCI "analyst" (exp_title exp)) "Analysis"
        (addIf (optIncludesCI "manager" (exp_title exp)) "Management"
          (addIf (optIncludesCI "engineer" (exp_title exp)) "Engineering" types))))
    experience [].

Definition coreSkillKeywords : list string :=
  ["management"; "leadership"; "strategy"; "communication"; "project"; "team"]%string.

Definition techKeywords : list string :=
  ["python"; "javascript"; "react"; "sql"; "aws"; "docker"; "kubernetes";
   "machine learning"; "ai"]%string.

(** [keywords.some(keyword => skill.toLowerCase().includes(keyword))] *)
Definition matchesAny (keywords : list string) (skill : string) : bool :=
  existsb (fun keyword => includesCI keyword skill) keywords.

Definition identifyCoreSkills (skills : list string) : list string :=
  List.filter (matchesAny coreSkillKeywords) skills.

Definition identifyTechnicalSkills (skills : list string) : list string :=
  List.filter (matchesAny techKeywords) skills.

Definition extractIndustryKnowledge (profile : RawProfile) : list string :=
  let knowledge :=
    match industry profile with
    | Some i => if truthy i then setAdd i [] else []
    | None => []
    end in
  fold_left (fun knowledge exp =>
    match exp_description exp with
    | Some d =>
        if truthy d then
          addIf (includesCI "e-commerce" d) "E-commerce"
            (addIf (includesCI "healthcare" d) "Healthcare"
              (addIf (includesCI "fintech" d) "FinTech" knowledge))
        else knowledge
    | None => knowledge
    end)
    (default [] (experience profile)) knowledge.

Definition identifySpecializations (profile : RawProfile) : list string :=
  fold_left (fun specializations cert =>
    addIf (includesCI "scrum" cert) "Agile Methodology"
      (addIf (includesCI "pmp" cert) "Project Management"
        (addIf (includesCI "aws" cert) "Cloud Computing" specializations)))
    (default [] (certifications profile)) [].

Definition extractProfessionalInterests (profile : RawProfile) : list string :=
  fold_left (fun interests skill =>
    addIf (includesCI "digital transformation" skill) "Digital Transformation"
      (addIf (includesCI "sustainability" skill) "Sustainability"
        (addIf (includesCI "innovation" skill) "Innovation" interests)))
    (default [] (skills profile)) [].

Definition generateLikelyTopics (profile : RawProfile) : list string :=
  let topics1 :=
    match currentRole profile with
    | Some r =>
        if truthy r
        then setAdd ("Career growth in " +:+ r) (setAdd (r +:+ " best practices") [])
        else []
    | None => []
    end in
  let topics2 :=
    match industry profile with
    | Some i =>
        if truthy i
        then setAdd ("Future of " +:+ i) (setAdd (i +:+ " trends") topics1)
        else topics1
    | None => topics1
    end in
  fold_left (fun topics skill => setAdd (skill +:+ " applications") topics)
    (firstn 3 (default [] (skills profile))) topics2.

Definition extractPersonalContext (profile : RawProfile) : PersonalContext :=
  let years :=
    match yearsOfExperience profile with
    | Some y => if qtruthy y then y else calculateExperienceYears (experience profile)
    | None => calculateExperienceYears (experience profile)
    end in
  {| pc_name := orStr (name profile) "Professional";
     pc_currentRole := orStr (orOpt (currentRole profile) (title profile)) "Professional";
     pc_currentCompany := orStr (currentCompany profile) "Current Company";
     pc_location := location profile;
     pc_industry := industry profile;
     pc_yearsOfExperience := years;
     pc_careerLevel := determineCareerLevel years (experience profile) |}.

(** [experience.map((exp, index) => ...)] from position [index] on. *)
Fixpoint careerSteps (index : nat) (experience : list Experience) : list CareerStep :=
  match experience with
  | [] => []
  | exp :: rest =>
      {| cs_title := orStr (exp_title exp) "Position";
         cs_company := orStr (exp_company exp) "Company";
         cs_duration := exp_duration exp;
         cs_isCurrent := default false (exp_isCurrent exp) || (index =? 0)%nat;
         cs_significance := determineRoleSignificance exp index |}
      :: careerSteps (S index) rest
  end.

Definition analyzeProfessionalJourney (profile : RawProfile) : ProfessionalJourney :=
  let experience := default [] (experience profile) in
  {| careerProgression := careerSteps 0 experience;
     keyTransitions := identifyCareerTransitions experience;
     industryExperience := extractIndustries experience;
     companyTypes := categorizeCompanies experience;
     roleTypes := categorizeRoles experience |}.

Definition extractExpertiseContext (profile : RawProfile) : ExpertiseContext :=
  let skills := default [] (skills profile) in
  {| coreSkills := identifyCoreSkills skills;
     technicalSkills := identifyTechnicalSkills skills;
     industryKnowledge := extractIndustryKnowledge profile;
     ec_certifications := default [] (certifications profile);
     specializations := identifySpecializations profile |}.

Definition extractInterestContext (profile : RawProfile) : InterestContext :=
  {| professionalInterests := extractProfessionalInterests profile;
     volunteerCauses :=
       omap (fun v =>
               let c := orOpt (vol_cause v) (vol_organization v) in
               if truthyStr c then c else None)
            (default [] (volunteerExperience profile));
     educationalBackground :=
       List.filter truthy
         (List.map (fun e => show (edu_degree e) +:+ " from " +:+ show (edu_school e))
                   (default [] (education profile)));
     ic_languages := default [] (languages profile);
     likelyTopics := generateLikelyTopics profile |}.

Definition relevanceOrder (t : Tier) : Q :=
  match t with high => 3 | medium => 2 | low => 1 end.

Definition generateConversationTopics (profile : RawProfile)
    (personalInfo : PersonalContext) (professionalJourney : ProfessionalJourney)
    (expertise : ExpertiseContext) : list ConversationTopic :=
  let company := pc_currentCompany personalInfo in
  let roleTopics :=
    if truthy (pc_currentRole personalInfo) && truthy company then
      [ {| topic := "Current role at " +:+ company;
           relevance := high;
           context := pc_name personalInfo +:+ " is currently working as "
                      +:+ pc_currentRole personalInfo +:+ " at " +:+ company;
           suggestedApproach :=
             "Ask about their experience in their current role or recent projects at "
             +:+ company |} ]
    else [] in
  let industryTopics :=
    match pc_industry personalInfo with
    | Some i =>
        if truthy i then
          [ {| topic := i +:+ " industry insights";
               relevance := high;
               context :=
                 "Professional with "
                 +:+ (if qtruthy (pc_yearsOfExperience personalInfo)
                      then Number_toString (pc_yearsOfExperience personalInfo)
                      else "several")
                 +:+ " years in " +:+ i;
               suggestedApproach :=
                 "Discuss industry trends, challenges, or opportunities in " +:+ i |} ]
        else []
    | None => []
    end in
  let transitionTopics :=
    List.map (fun t =>
      {| topic := "Career transition: " +:+ ct_from t +:+ " to " +:+ ct_to t;
         relevance := medium;
         context := ct_significance t;
         suggestedApproach :=
           "Ask about their experience transitioning from " +:+ ct_from t
           +:+ " to " +:+ ct_to t |})
      (List.filter (fun t => truthy (ct_significance t))
                   (keyTransitions professionalJourney)) in
  let skillTopics :=
    match technicalSkills expertise with
    | [] => []
    | tech =>
        [ {| topic := "Technical expertise in " +:+ join ", " (firstn 3 tech);
             relevance := medium;
             context := "Skilled in " +:+ join ", " tech;
             suggestedApproach :=
               "Discuss technical challenges, tools, or best practices in their area of expertise" |} ]
    end in
  let educationTopics :=
    match default [] (education profile) with
    | [] => []
    | primaryEducation :: _ =>
        let school := show (edu_school primaryEducation) in
        [ {| topic := "Educational background at " +:+ school;
             relevance := low;
             context := "Studied " +:+ orStr (edu_degree primaryEducation) "at"
                        +:+ " " +:+ school;
             suggestedApproach :=
               "Mention shared educational experiences or ask about their time at "
               +:+ school |} ]
    end in
  sortDesc (fun t => relevanceOrder (relevance t))
    (roleTopics ++ industryTopics ++ transitionTopics ++ skillTopics ++ educationTopics).

Definition identifyNetworkingOpportunities (profile : RawProfile)
    (personalInfo : PersonalContext) (professionalJourney : ProfessionalJourney)
    (expertise : ExpertiseContext) : list NetworkingOpportunity :=
  let industryOpportunities :=
    match pc_industry personalInfo with
    | Some i =>
        if truthy i then
          [ {| no_type := industry_connection;
               no_description := "Connect over shared " +:+ i +:+ " industry experience";
               no_confidence := high |} ]
        else []
    | None => []
    end in
  let skillOpportunities :=
    match coreSkills expertise with
    | [] => []
    | core =>
        [ {| no_type := skill_synergy;
             no_description := "Potential collaboration in " +:+ join " and " (firstn 2 core);
             no_confidence := medium |} ]
    end in
  let adviceOpportunities :=
    match pc_careerLevel personalInfo with
    | senior | executive =>
        [ {| no_type := career_advice;
             no_description :=
               "Seek insights from their "
               +:+ Number_toString (pc_yearsOfExperience personalInfo)
               +:+ "+ years of experience";
             no_confidence := high |} ]
    | _ => []
    end in
  let educationOpportunities :=
    match default [] (education profile) with
    | [] => []
    | _ :: _ =>
        [ {| no_type := educational_background;
             no_description := "Connect over shared educational experiences or alma mater";
             no_confidence := low |} ]
    end in
  industryOpportunities ++ skillOpportunities ++ adviceOpportunities
  ++ educationOpportunities.

Definition analyzeProfileForRAG (profile : RawProfile) : ProfileContext :=
  let personalInfo := extractPersonalContext profile in
  let professionalJourney := analyzeProfessionalJourney profile in
  let expertise := extractExpertiseContext profile in
  let interests := extractInterestContext profile in
  {| personalInfo := personalInfo;
     professionalJourney := professionalJourney;
     expertise := expertise;
     interests := interests;
     conversationTopics :=
       generateConversationTopics profile personalInfo professionalJourney expertise;
     networkingOpportunities :=
       identifyNetworkingOpportunities profile personalInfo professionalJourney expertise |}.

End Engine.

(** *** A calendar instance of the engine's date parser

    [new Date("Jan 2020")] is read by Node as the first day of the month at
    midnight.  The instance below does this in UTC, for a three-letter
    English month name, white space and a year in digits; it reads no
    other text, where an engine reads more.  It is the parser at which
    the date-range examples are evaluated. *)

(** Days from 1970-01-01 to the civil date [y]-[m]-[d] (proleptic
    Gregorian calendar). *)
Definition daysFromCivil (y m d : Z) : Z :=
  let y' := if m <=? 2 then y - 1 else y in
  let era := y' / 400 in
  let yoe := y' - era * 400 in
  let mp := (m + 9) mod 12 in
  let doy := (153 * mp + 2) / 5 + d - 1 in
  let doe := yoe * 365 + yoe / 4 - yoe / 100 + doy in
  era * 146097 + doe - 719468.

Definition monthNames : list string :=
  ["jan"; "feb"; "mar"; "apr"; "may"; "jun";
   "jul"; "aug"; "sep"; "oct"; "nov"; "dec"]%string.

Fixpoint monthIndex (names : list string) (i : Z) (w : string) : option Z :=
  match names with
  | [] => None
  | n :: rest => if String.eqb n w then Some i else monthIndex rest (i + 1) w
  end.

Definition msPerDay : Z := 86400000.

Definition parseMonthYear (text : string) : option Z :=
  match monthIndex monthNames 1 (toLowerCase (take 3 text)) with
  | Some m =>
      let year := skipSpaces (drop 3 text) in
      if truthy year && allChars isDigit year
      then Some (daysFromCivil (parseInt year) m 1 * msPerDay)
      else None
  | None => None
  end.

End ProfileAnalysis.

(** ** The random source and the state threaded through the services *)

Module Random.

(** The values that successive calls of [Math.random()] return, and the
    number of calls made so far. *)
Record Source := {
  stream : nat -> Q;
  cursor : nat
}.

(** Every value of the source lies in [[0, 1)]. *)
Definition unitInterval (r : Source) : Prop :=
  forall n, (0 <= stream r n /\ stream r n < 1)%Q.

Definition next (r : Source) : Q * Source :=
  (stream r (cursor r), {| stream := stream r; cursor := S (cursor r) |}).

(** A source that replays the given values and then returns 0. *)
Definition replay (values : list Q) : Source :=
  {| stream := fun n => nth n values 0%Q; cursor := 0 |}.

End Random.

Module StateMonad.

Definition State (S A : Type) : Type := S -> A * S.

Definition ret {S A} (a : A) : State S A := fun s => (a, s).

Definition bind {S A B} (m : State S A) (k : A -> State S B) : State S B :=
  fun s => let '(a, s') := m s in k a s'.

Definition get {S} : State S S := fun s => (s, s).

Definition put {S} (s : S) : State S unit := fun _ => (tt, s).

Notation "'let*' x ':=' m 'in' k" := (bind m (fun x => k))
  (at level 10, x name, m at level 100, k at level 200).

Fixpoint mapM {S A B} (f : A -> State S B) (l : list A) : State S (list B) :=
  match l with
  | [] => ret []
  | x :: rest =>
      let* y := f x in
      let* ys := mapM f rest in
      ret (y :: ys)
  end.

End StateMonad.

(** ** The question bank

    The data module [conversationStarters] is not part of the sources at
    hand: the catalog itself is a parameter of everything below, and its
    two helpers used by the selector are modelled from the specification. *)

Module QuestionBank.

Import StateMonad.

(** Modelled from the spec: the type [ConversationStarter] of the absent
    data module, "{id: unique integer, category, subcategory, question:
    template string, tags: set of strings}". *)
Record ConversationStarter := {
  id : Z;
  category : string;
  subcategory : string;
  question : string;
  tags : list string
}.

(** [tags.includes(t)] *)
Definition hasTag (t : string) (q : ConversationStarter) : bool :=
  bool_decide (t ∈ tags q).

(** [!ids.includes(q.id)] *)
Definition unused (ids : list Z) (q : ConversationStarter) : bool :=
  negb (bool_decide (id q ∈ ids)).

(** Modelled from the spec: [getQuestionsByCategory] of the absent data
    module, "fetch all catalog entries in that category". *)
Definition getQuestionsByCategory (catalog : list ConversationStarter)
    (c : string) : list ConversationStarter :=
  List.filter (fun q => String.eqb (category q) c) catalog.

(** Modelled from the spec: a "uniformly random" choice inside
    [getRandomQuestions].  The position that a random value in [[0, 1)]
    selects among [n] equally likely ones, [Math.floor(r * n)]. *)
Definition pickIndex (r : Q) (n : nat) : nat :=
  (Z.to_nat (Qfloor (r * inject_Z (Z.of_nat n))) mod n)%nat.

(** Modelled from the spec: the draws of [getRandomQuestions], "until count
    is reached or the catalog is exhausted".  Up to [n] entries are drawn
    from [pool] one after the other, each uniformly among those not drawn
    yet. *)
Fixpoint drawRandom (n : nat) (pool : list ConversationStarter)
  : State Random.Source (list ConversationStarter) :=
  match n with
  | O => ret []
  | S n' =>
      match pool with
      | [] => ret []
      | _ :: _ =>
          let* r := Random.next in
          let i := pickIndex r (length pool) in
          match pool !! i with
          | Some q =>
              let* rest := drawRandom n' (delete i pool) in
              ret (q :: rest)
          | None => ret []
          end
      end
  end.

(** Modelled from the spec: [getRandomQuestions] of the absent data module,
    "uniformly random entries drawn from the full catalog, excluding both
    the session's used ids and ids already selected in this call, until
    count is reached or the catalog is exhausted". *)
Definition getRandomQuestions (catalog : list ConversationStarter)
    (count : Z) (excludeIds : list Z)
  : State Random.Source (list ConversationStarter) :=
  drawRandom (Z.to_nat count) (List.filter (unused excludeIds) catalog).

End QuestionBank.

(** ** ConversationService *)

Module ConversationService.

Import JsString Js StateMonad QuestionBank.

Record ProfileData := {
  pd_name : option string;
  pd_title : option string;
  pd_company : option string;
  pd_industry : option string;
  pd_skills : option (list string);
  pd_education : option (list string);
  pd_experience : option (list ProfileAnalysis.Experience);
  pd_location : option string
}.

Record ConversationContext := {
  profileData : ProfileData;
  previousQuestionIds : option (list Z);
  sessionId : option string
}.

Record PersonalizedQuestion := {
  originalQuestion : string;
  personalizedQuestion : string;
  pq_category : string;
  pq_subcategory : string;
  relevanceScore : Q
}.

(** The mutable state of the class and of its environment: the static map
    [sessionQuestions] and the random source. *)
Record World := {
  random : Random.Source;
  sessionQuestions : gmap string (list Z)
}.

(** [Math.random()] *)
Definition Math_random : State World Q :=
  fun w =>
    let '(r, src) := Random.next (random w) in
    (r, {| random := src; sessionQuestions := sessionQuestions w |}).

(** A computation that only consumes random values, run in the world. *)
Definition liftRandom {A} (m : State Random.Source A) : State World A :=
  fun w =>
    let '(a, src) := m (random w) in
    (a, {| random := src; sessionQuestions := sessionQuestions w |}).

(** [this.sessionQuestions.get(sessionId) || []] *)
Definition usedQuestionsOf (store : gmap string (list Z)) (sid : string) : list Z :=
  default [] (store !! sid).

Definition skillKeywords : list string :=
  ["python"; "javascript"; "management"; "leadership"; "data"; "analysis"]%string.

Definition bonus (cond : bool) (points : Q) : Q := if cond then points else 0%Q.

Definition calculateRelevanceScore (question : ConversationStarter)
    (profileData : ProfileData) : State World Q :=
  let score := 0%Q in
  let score :=
    match pd_title profileData with
    | Some title =>
        if truthy title then
          (score
           + bonus (hasTag "leadership" question && includesCI "lead" title) 3
           + bonus (hasTag "management" question && includesCI "manager" title) 3
           + bonus (hasTag "technical" question
                    && (includesCI "engineer" title || includesCI "developer" title)) 3)%Q
        else score
    | None => score
    end in
  let score :=
    match pd_industry profileData with
    | Some industry =>
        if truthy industry then
          (score
           + bonus (hasTag "technology" question && includesCI "tech" industry) 2
           + bonus (hasTag "finance" question && includesCI "finance" industry) 2)%Q
        else score
    | None => score
    end in
  let score :=
    match pd_skills profileData with
    | Some ((_ :: _) as skills) =>
        let hasRelevantSkills :=
          existsb (fun skill =>
                     existsb (fun keyword => includesCI keyword skill) skillKeywords)
                  skills in
        (score
         + bonus (hasRelevantSkills
                  && (hasTag "skills" question || hasTag "technical" question)) 2)%Q
    | _ => score
    end in
  let score :=
    match pd_experience profileData with
    | Some ((_ :: _) as experience) =>
        let experienceYears := length experience in
        (score
         + bonus ((5 <? experienceYears)%nat && hasTag "senior" question) 2
         + bonus ((experienceYears <? 3)%nat && hasTag "early_career" question) 2)%Q
    | _ => score
    end in
  let* r := Math_random in
  ret (score + r * 2)%Q.

Definition rankQuestionsByRelevance (questions : list ConversationStarter)
    (profileData : ProfileData) : State World (list ConversationStarter) :=
  let* scored :=
    mapM (fun question =>
            let* s := calculateRelevanceScore question profileData in
            ret (question, s))
         questions in
  ret (List.map fst (sortDesc snd scored)).

Definition isRoleRelevant (question : ConversationStarter) (title : string) : bool :=
  existsb (fun keyword => includesCI keyword (QuestionBank.question question))
          ["work"; "job"; "role"; "career"; "professional"]%string.

Definition isSkillRelevant (question : ConversationStarter) : bool :=
  hasTag "skills" question || includesCI "skill" (QuestionBank.question question).

Definition isEducationRelevant (question : ConversationStarter) : bool :=
  hasTag "education" question
  || includesCI "background" (QuestionBank.question question)
  || includesCI "learn" (QuestionBank.question question).

Definition personalizeQuestion (question : ConversationStarter)
    (profileData : ProfileData) : State World PersonalizedQuestion :=
  let text := QuestionBank.question question in
  let* text :=
    match pd_name profileData with
    | Some name =>
        if truthy name then
          let* r := Math_random in
          ret (if negb (Qle_bool r 0.5) then "Hi " +:+ name +:+ "! " +:+ text else text)
        else ret text
    | None => ret text
    end in
  let text :=
    match pd_title profileData, pd_company profileData with
    | Some title, Some company =>
        if truthy title && truthy company && isRoleRelevant question title then
          replaceAllCI ["your work"; "your job"; "your role"; "your career"]
            ("your work as " +:+ title +:+ " at " +:+ company) text
        else text
    | _, _ => text
    end in
  let text :=
    match pd_skills profileData with
    | Some ((_ :: _) as skills) =>
        if isSkillRelevant question then
          replaceAllCI ["your skills"]
            ("your expertise in " +:+ join " and " (firstn 2 skills)) text
        else text
    | _ => text
    end in
  let text :=
    match pd_education profileData with
    | Some (first :: _) =>
        if isEducationRelevant question then
          replaceAllCI ["your background"] ("your background from " +:+ first) text
        else text
    | _ => text
    end in
  let* score := calculateRelevanceScore question profileData in
  ret {| originalQuestion := QuestionBank.question question;
         personalizedQuestion := text;
         pq_category := category question;
         pq_subcategory := subcategory question;
         relevanceScore := score |}.

Definition categories : list string :=
  ["career_background"; "soft_skills"; "personality_motivation"]%string.

(** The distribution map, as the list of its entries in insertion order. *)
Definition calculateCategoryDistribution (totalCount : Z) : list (string * Z) :=
  let baseCount := totalCount / Z.of_nat (length categories) in
  let remainder := Z.rem totalCount (Z.of_nat (length categories)) in
  imap (fun index category =>
          (category, baseCount + (if Z.of_nat index <? remainder then 1 else 0)))
       categories.

Section Catalog.

Context (conversationStarters : list ConversationStarter).

(** The loop of [getDiverseQuestions] over the category distribution: the
    questions pushed onto [selectedQuestions]. *)
Fixpoint selectFromCategories (distribution : list (string * Z))
    (usedQuestions : list Z) (profileData : ProfileData)
  : State World (list ConversationStarter) :=
  match distribution with
  | [] => ret []
  | (category, categoryCount) :: rest =>
      let categoryQuestions := getQuestionsByCategory conversationStarters category in
      let availableQuestions := List.filter (unused usedQuestions) categoryQuestions in
      let* selected :=
        match availableQuestions with
        | [] => ret []
        | _ :: _ =>
            let* relevantQuestions :=
              rankQuestionsByRelevance availableQuestions profileData in
            ret (slice0 categoryCount relevantQuestions)
        end in
      let* more := selectFromCategories rest usedQuestions profileData in
      ret (selected ++ more)
  end.

(** The selection proper of [getDiverseQuestions]: the loop over the
    categories and the random backfill, that is, the questions held by
    [selectedQuestions] when the session map is updated. *)
Definition chooseQuestions (usedQuestions : list Z) (profileData : ProfileData)
    (count : Z) : State World (list ConversationStarter) :=
  let categoryDistribution := calculateCategoryDistribution count in
  let* selectedQuestions :=
    selectFromCategories categoryDistribution usedQuestions profileData in
  if Z.of_nat (length selectedQuestions) <? count then
    let remaining := count - Z.of_nat (length selectedQuestions) in
    let* randomQuestions :=
      liftRandom (getRandomQuestions conversationStarters remaining
                    (usedQuestions ++ List.map id selectedQuestions)) in
    ret (selectedQuestions ++ randomQuestions)
  else ret selectedQuestions.

(** [getDiverseQuestions] up to and including the update of the session
    map; the result is [selectedQuestions]. *)
Definition selectDiverse (context : ConversationContext) (count : Z)
  : State World (list ConversationStarter) :=
  let profileData := profileData context in
  let sessionId := default "default"%string (sessionId context) in
  let* w := get in
  let usedQuestions := usedQuestionsOf (sessionQuestions w) sessionId in
  let* selectedQuestions := chooseQuestions usedQuestions profileData count in
  let newQuestionIds := List.map id selectedQuestions in
  let* w := get in
  let* _ := put {| random := random w;
                   sessionQuestions :=
                     <[sessionId := usedQuestions ++ newQuestionIds]>
                       (sessionQuestions w) |} in
  ret selectedQuestions.

Definition getDiverseQuestions (context : ConversationContext) (count : Z)
  : State World (list PersonalizedQuestion) :=
  let* selectedQuestions := selectDiverse context count in
  mapM (fun question => personalizeQuestion question (profileData context))
       selectedQuestions.

End Catalog.

Definition clearSession (sessionId : string) : State World unit :=
  fun w =>
    (tt, {| random := random w;
            sessionQuestions := delete sessionId (sessionQuestions w) |}).

End ConversationService.

(** ** ConversationService: targeted selection *)

Module TargetedSelection.

Import JsString Js StateMonad QuestionBank ConversationService.

Record Criteria := {
  cr_category : option string;
  cr_tags : option (list string);
  cr_subcategory : option string
}.

Section Catalog.

Context (conversationStarters : list ConversationStarter).
(** [getQuestionsByTags] of the absent data module. *)
Context (getQuestionsByTags : list string -> list ConversationStarter).

(** The questions that the criteria designate: the first of category, tags
    and subcategory that is given decides.  An array of tags is truthy
    even when it is empty. *)
Definition designatedQuestions (criteria : Criteria) : list ConversationStarter :=
  if truthyStr (cr_category criteria) then
    getQuestionsByCategory conversationStarters (default EmptyString (cr_category criteria))
  else
    match cr_tags criteria with
    | Some tags => getQuestionsByTags tags
    | None =>
        match cr_subcategory criteria with
        | Some sub =>
            if truthy sub then
              List.filter (fun q => String.eqb (subcategory q) sub) conversationStarters
            else []
        | None => []
        end
    end.

(** [getTargetedQuestions] up to and including the update of the session
    map; the result is [selectedQuestions]. *)
Definition selectTargeted (criteria : Criteria) (context : ConversationContext)
    (count : Z) : State World (list ConversationStarter) :=
  let questions := designatedQuestions criteria in
  let sessionId := orStr (sessionId context) "default" in
  let* w := get in
  let usedQuestions := usedQuestionsOf (sessionQuestions w) sessionId in
  let availableQuestions := List.filter (unused usedQuestions) questions in
  let* rankedQuestions :=
    rankQuestionsByRelevance availableQuestions (profileData context) in
  let selectedQuestions := slice0 count rankedQuestions in
  let newQuestionIds := List.map id selectedQuestions in
  let* w := get in
  let* _ := put {| random := random w;
                   sessionQuestions :=
                     <[sessionId := usedQuestions ++ newQuestionIds]>
                       (sessionQuestions w) |} in
  ret selectedQuestions.

Definition getTargetedQuestions (criteria : Criteria) (context : ConversationContext)
    (count : Z) : State World (list PersonalizedQuestion) :=
  let* selectedQuestions := selectTargeted criteria context count in
  mapM (fun question => personalizeQuestion question (profileData context))
       selectedQuestions.

End Catalog.

End TargetedSelection.

(** ** The profile scraper: analysis of a scraped profile *)

Module Scraper.

Import JsString Js StateMonad.

Record WorkExperience := {
  we_title : string;
  we_company : string;
  we_duration : option string
}.

Record Education := {
  ed_school : string;
  ed_degree : option string
}.

(** The fields of a scraped profile that the analysis functions read. *)
Record LinkedInProfile := {
  name : option string;
  title : option string;
  bio : option string;
  skills : option (list string);
  experience : option (list WorkExperience);
  education : option (list Education);
  location : option string;
  industry : option string;
  currentCompany : option string;
  currentRole : option string;
  yearsOfExperience : option Q
}.

Inductive CareerLevel := Entry | Mid | Senior | Executive | C_Level.

Inductive GrowthPattern := Linear | Lateral | Rapid | Diverse.

Record CareerProgression := {
  totalYears : Q;
  careerLevel : CareerLevel;
  promotionRate : Q;
  industryChanges : Z;
  roleTransitions : list string;
  careerGrowthPattern : GrowthPattern;
  leadershipProgression : bool
}.

Inductive Proficiency := Beginner | Intermediate | Advanced | Expert.

Record SkillCategory := {
  sc_category : string;
  sc_skills : list string;
  proficiencyLevel : Proficiency;
  endorsements : Z
}.

Record DataQuality := {
  completeness : Z;
  freshness : string;
  accuracy : Z;
  extractionConfidence : Z;
  missingFields : list string;
  dataSource : string;
  lastUpdated : string
}.

Record TechnologyRecommendations := {
  emergingTechnologies : list string;
  skillGaps : list string;
  industryTrends : list string;
  learningPaths : list string
}.

(** *** Career progression *)

(** [-] at the head of [s]. *)
Definition matchHyphen (s : string) : option string :=
  if startsWith "-" s then Some (drop 1 s) else None.

(** [/(\w{3}\s+\d{4})\s*-\s*(\w{3}\s+\d{4}|Present)/i] anchored at the head
    of [s]: the two capture groups. *)
Definition matchHyphenRangeAt (s : string) : option (string * string) :=
  match ProfileAnalysis.matchMonthYear s with
  | None => None
  | Some (g1, r1) =>
      match matchHyphen (skipSpaces r1) with
      | None => None
      | Some r2 =>
          let r3 := skipSpaces r2 in
          match ProfileAnalysis.matchMonthYear r3 with
          | Some (g2, _) => Some (g1, g2)
          | None =>
              if startsWithCI "present" r3 then Some (g1, take 7 r3) else None
          end
      end
  end.

(** The same expression, unanchored (leftmost match). *)
Fixpoint hyphenRangeMatch (s : string) : option (string * string) :=
  match matchHyphenRangeAt s with
  | Some g => Some g
  | None =>
      match s with
      | EmptyString => None
      | String _ s' => hyphenRangeMatch s'
      end
  end.

Definition seniorTitles : list string :=
  ["senior"; "lead"; "principal"; "staff"; "architect"]%string.

Definition executiveTitles : list string :=
  ["director"; "vp"; "vice president"; "head of"; "chief"]%string.

Definition cLevelTitles : list string :=
  ["ceo"; "cto"; "cfo"; "coo"; "cmo"]%string.

Definition leadershipKeywords : list string :=
  ["lead"; "manager"; "director"; "head"; "chief"]%string.

Section Engine.

(** [new Date(text).getTime()]: [None] stands for an invalid date. *)
Context (Date_parse : string -> option Z).
(** [new Date().getTime()] *)
Context (Date_now : Z).
(** [new Date().toISOString()] *)
Context (Date_toISOString : string).

(** The months that one duration string contributes: the body of the
    loop over the experience in [analyzeCareerProgression].  The first
    match of [/(\d+)\s*yr/gi] starts with its digits, which are what
    [parseInt] reads; likewise for [/(\d+)\s*mos?/gi]. *)
Definition durationMonths (duration : string) : Z :=
  let experienceMonths :=
    match ProfileAnalysis.matchCount ["yr"]%string duration with
    | Some years => years * 12
    | None => 0
    end
    + match ProfileAnalysis.matchCount ["mo"]%string duration with
      | Some months => months
      | None => 0
      end in
  if experienceMonths =? 0 then
    match hyphenRangeMatch duration with
    | Some (g1, g2) =>
        let startDate := Date_parse g1 in
        let endDate :=
          if String.eqb (toLowerCase g2) "present" then Some Date_now
          else Date_parse g2 in
        match startDate, endDate with
        | Some t1, Some t2 =>
            ProfileAnalysis.ceilDiv (Z.abs (t2 - t1)) ProfileAnalysis.msPerMonth
        | _, _ => 0
        end
    | None => 0
    end
  else experienceMonths.

Definition totalMonths (experience : list WorkExperience) : Z :=
  fold_left (fun total exp =>
               match we_duration exp with
               | Some d => if truthy d then total + durationMonths d else total
               | None => total
               end)
            experience 0.

Definition analyzeCareerProgression (profile : LinkedInProfile) : CareerProgression :=
  let experience := default [] (experience profile) in
  let totalYears :=
    match yearsOfExperience profile with
    | Some y => if qtruthy y then y else 0%Q
    | None => 0%Q
    end in
  let totalYears :=
    if Qeq_bool totalYears 0 && (0 <? length experience)%nat
    then ProfileAnalysis.roundToTenth (totalMonths experience)
    else totalYears in
  let currentTitle :=
    toLowerCase (orStr (orOpt (currentRole profile) (title profile)) EmptyString) in
  let mentions := existsb (fun title => includes title currentTitle) in
  let careerLevel :=
    if mentions cLevelTitles then C_Level
    else if mentions executiveTitles then Executive
    else if mentions seniorTitles || negb (Qle_bool totalYears 7) then Senior
    else if negb (Qle_bool totalYears 3) then Mid
    else Entry in
  let promotionRate :=
    if (0 <? length experience)%nat
    then (totalYears / inject_Z (Z.of_nat (length experience)))%Q
    else 0%Q in
  let roleTransitions := List.map we_title experience in
  let industryChanges :=
    Z.of_nat (length (remove_dups (List.map we_company experience))) - 1 in
  let careerGrowthPattern :=
    if negb (Qle_bool 2 promotionRate) then Rapid
    else if 2 <? industryChanges then Diverse
    else if existsb (fun role => includesCI "lateral" role) roleTransitions then Lateral
    else Linear in
  let leadershipProgression :=
    existsb (fun role =>
               existsb (fun keyword => includesCI keyword role) leadershipKeywords)
            roleTransitions in
  {| totalYears := totalYears;
     careerLevel := careerLevel;
     promotionRate := promotionRate;
     industryChanges := industryChanges;
     roleTransitions := roleTransitions;
     careerGrowthPattern := careerGrowthPattern;
     leadershipProgression := leadershipProgression |}.

(** *** Data quality *)

Definition fields : list string :=
  ["name"; "title"; "bio"; "skills"; "experience"; "education";
   "location"; "industry"; "currentCompany"; "currentRole"]%string.

(** Whether [profile[field]] is truthy, for the fields above: a string
    when it is not empty, an array whenever it is present. *)
Definition fieldPresent (profile : LinkedInProfile) (field : string) : bool :=
  if String.eqb field "name" then truthyStr (name profile)
  else if String.eqb field "title" then truthyStr (title profile)
  else if String.eqb field "bio" then truthyStr (bio profile)
  else if String.eqb field "skills" then bool_decide (is_Some (skills profile))
  else if String.eqb field "experience" then bool_decide (is_Some (experience profile))
  else if String.eqb field "education" then bool_decide (is_Some (education profile))
  else if String.eqb field "location" then truthyStr (location profile)
  else if String.eqb field "industry" then truthyStr (industry profile)
  else if String.eqb field "currentCompany" then truthyStr (currentCompany profile)
  else if String.eqb field "currentRole" then truthyStr (currentRole profile)
  else false.

(** [Math.round(x)] *)
Definition Math_round (x : Q) : Z := Qfloor (x + (1 # 2)).

Definition assessDataQuality (profile : LinkedInProfile) : DataQuality :=
  let presentFields := List.filter (fieldPresent profile) fields in
  let completeness :=
    Math_round (inject_Z (Z.of_nat (length presentFields))
                / inject_Z (Z.of_nat (length fields)) * 100) in
  let missingFields := List.filter (fun field => negb (fieldPresent profile field)) fields in
  {| completeness := completeness;
     freshness := "Recent";
     accuracy := 85;
     extractionConfidence := 90;
     missingFields := missingFields;
     dataSource := "LinkedIn Profile";
     lastUpdated := Date_toISOString |}.

End Engine.

(** *** Skill categories *)

(** The entries of [categoryMappings], in the order of the object
    literal. *)
Definition categoryMappings : list (string * list string) :=
  [ ("Programming Languages",
     ["javascript"; "python"; "java"; "typescript"; "go"; "rust"; "c++"; "c#";
      "php"; "ruby"; "swift"; "kotlin"]);
    ("Frameworks & Libraries",
     ["react"; "angular"; "vue"; "node.js"; "express"; "django"; "flask";
      "spring"; "laravel"; "rails"]);
    ("Cloud & Infrastructure",
     ["aws"; "azure"; "gcp"; "docker"; "kubernetes"; "terraform"; "jenkins"; "ci/cd"]);
    ("Databases",
     ["mysql"; "postgresql"; "mongodb"; "redis"; "elasticsearch"; "cassandra";
      "dynamodb"]);
    ("Tools & Platforms",
     ["git"; "jira"; "confluence"; "slack"; "figma"; "adobe"; "salesforce"]);
    ("Soft Skills",
     ["leadership"; "communication"; "teamwork"; "problem solving";
      "project management"; "mentoring"]);
    ("Domain Expertise",
     ["machine learning"; "data science"; "cybersecurity"; "blockchain"; "iot";
      "fintech"; "healthcare"]) ]%string.

(** The object [skillCategories] before the loop: an empty array under
    each of the seven keys. *)
Definition emptyCategories : list (string * list string) :=
  [ ("Programming Languages", []); ("Frameworks & Libraries", []);
    ("Cloud & Infrastructure", []); ("Databases", []); ("Tools & Platforms", []);
    ("Soft Skills", []); ("Domain Expertise", []) ]%string.

(** [skillCategories[category].push(skill)] *)
Definition push (category skill : string) (skillCategories : list (string * list string))
  : list (string * list string) :=
  List.map (fun entry =>
              if String.eqb (fst entry) category
              then (fst entry, snd entry ++ [skill])
              else entry)
           skillCategories.

(** The category that the inner loop finds for a skill: the first one a
    keyword of which the skill contains, and ["Domain Expertise"] when
    there is none. *)
Definition categoryOf (skill : string) : string :=
  match List.find (fun entry =>
                     existsb (fun keyword => includesCI keyword skill) (snd entry))
                  categoryMappings with
  | Some entry => fst entry
  | None => "Domain Expertise"
  end.

Definition proficiencyOf (skills : list string) : Proficiency :=
  if (5 <? length skills)%nat then Expert
  else if (3 <? length skills)%nat then Advanced
  else Intermediate.

Definition categorizeSkills (profile : LinkedInProfile)
  : State Random.Source (list SkillCategory) :=
  let skills := default [] (skills profile) in
  let skillCategories :=
    fold_left (fun skillCategories skill => push (categoryOf skill) skill skillCategories)
              skills emptyCategories in
  mapM (fun entry =>
          let* r := Random.next in
          ret {| sc_category := fst entry;
                 sc_skills := snd entry;
                 proficiencyLevel := proficiencyOf (snd entry);
                 endorsements := Qfloor (r * 50) + 10 |})
       (List.filter (fun entry => (0 <? length (snd entry))%nat) skillCategories).

(** *** Technology recommendations *)

(** [items] pushed when [cond] holds. *)
Definition pushIf (cond : bool) (items : list string) (l : list string) : list string :=
  if cond then l ++ items else l.

(** [l.length === 0 ? fallback : l] *)
Definition orDefault (fallback l : list string) : list string :=
  match l with [] => fallback | _ => l end.

Definition generateTechnologyRecommendations (profile : LinkedInProfile)
  : TechnologyRecommendations :=
  let currentSkills := default [] (skills profile) in
  let industry := orStr (industry profile) EmptyString in
  let currentRole := orStr (orOpt (currentRole profile) (title profile)) EmptyString in
  let has keyword := existsb (fun skill => includesCI keyword skill) currentSkills in
  let isManager :=
    includesCI "manager" currentRole || includesCI "lead" currentRole
    || includesCI "director" currentRole || includesCI "vp" currentRole in
  let isTechnical :=
    includesCI "engineer" currentRole || includesCI "developer" currentRole
    || includesCI "architect" currentRole || includesCI "devops" currentRole in
  let isProduct := includesCI "product" currentRole || includesCI "pm" currentRole in
  let isData :=
    includesCI "data" currentRole || includesCI "analytics" currentRole
    || includesCI "ml" currentRole || includesCI "ai" currentRole in
  let noAI :=
    negb (existsb (fun skill => includesCI "ai" skill || includesCI "ml" skill)
                  currentSkills) in
  let noCloud :=
    negb (existsb (fun skill => includesCI "aws" skill || includesCI "azure" skill
                                || includesCI "gcp" skill)
                  currentSkills) in
  let isFinance := includesCI "fintech" industry || includesCI "finance" industry in
  let isHealth := includesCI "healthcare" industry || includesCI "health" industry in
  let isRetail := includesCI "ecommerce" industry || includesCI "retail" industry in
  let emergingTechnologies :=
    pushIf isRetail ["AR/VR Shopping"; "Voice Commerce"; "Social Commerce"]
    (pushIf isHealth ["FHIR Standards"; "Medical AI"; "IoT in Healthcare"]
    (pushIf isFinance ["Cryptocurrency"; "DeFi Protocols"; "Payment Systems"]
    (pushIf isData ["MLOps"; "Real-time Analytics"; "Vector Databases"]
    (pushIf isProduct ["Product Analytics AI"; "User Behavior Analysis"]
    (pushIf isManager ["AI-Powered Development Tools"; "Low-Code/No-Code Platforms"]
    (pushIf (isTechnical && negb (has "graphql")) ["GraphQL"; "API Design"]
    (pushIf (isTechnical && negb (has "docker")) ["Containerization (Docker/Kubernetes)"]
    (pushIf noCloud ["Cloud Computing (AWS/Azure)"; "Infrastructure as Code"]
    (pushIf noAI ["Large Language Models (LLMs)"; "Generative AI"; "Machine Learning"]
       []))))))))) in
  let skillGaps :=
    pushIf isData ["Production ML Systems"; "Data Governance"]
    (pushIf isProduct ["Technical Product Skills"; "Analytics Interpretation"]
    (pushIf isManager ["Technical Vision"; "Cross-functional Collaboration"]
    (pushIf (isTechnical && negb (has "typescript"))
            ["TypeScript"; "Modern JavaScript (ES6+)"]
    (pushIf noCloud ["Cloud Architecture"; "DevOps Practices"] [])))) in
  let industryTrends :=
    pushIf isRetail ["Headless Commerce"; "Personalization Engines"; "Supply Chain Tech"]
    (pushIf isHealth ["Digital Health"; "Telemedicine Platforms"; "Health Data Analytics"]
    (pushIf isFinance
            ["Blockchain Technology"; "Regulatory Technology (RegTech)"; "Digital Banking"]
    (pushIf isData
            ["Streaming Data Processing"; "Data Mesh Architecture"; "Privacy-Preserving ML"]
    (pushIf isProduct
            ["Product-Led Growth"; "Customer Success Platforms"; "A/B Testing Tools"]
    (pushIf isManager
            ["Engineering Management"; "Team Productivity Tools"; "Agile at Scale"]
    (pushIf isTechnical
            ["Microservices Architecture"; "Serverless Computing"; "Edge Computing"]
       [])))))) in
  let learningPaths :=
    pushIf isData ["Advanced Statistics"; "Deep Learning"; "Data Engineering"]
    (pushIf isProduct
            ["Data-Driven Product Management"; "User Research Methods"; "Growth Hacking"]
    (pushIf isManager
            ["Technical Leadership"; "Engineering Strategy"; "Data-Driven Decision Making"]
    (pushIf isTechnical
            ["System Design"; "Distributed Systems"; "Performance Optimization"]
    (pushIf noAI ["AI/ML Fundamentals"; "Prompt Engineering"] [])))) in
  let emergingTechnologies :=
    orDefault ["Artificial Intelligence"; "Cloud Computing"; "Cybersecurity"; "Blockchain"]
      emergingTechnologies in
  let industryTrends :=
    orDefault ["Digital Transformation"; "Remote Work Technologies"; "Automation";
               "Sustainability Tech"]
      industryTrends in
  let learningPaths :=
    orDefault ["Leadership Development"; "Technical Skills Enhancement";
               "Industry Certifications"]
      learningPaths in
  let skillGaps :=
    orDefault ["Cross-functional Collaboration"; "Strategic Thinking";
               "Communication Skills"]
      skillGaps in
  {| emergingTechnologies := slice0 4 emergingTechnologies;
     skillGaps := slice0 3 skillGaps;
     industryTrends := slice0 4 industryTrends;
     learningPaths := slice0 3 learningPaths |}.

End Scraper.

(** ** IntelligentQuestionService *)

Module IntelligentQuestionService.

Import JsString Js StateMonad QuestionBank.

Record EducationDetail := {
  school : option string;
  degree : option string;
  field : option string
}.

(** The profile handed to the service; the fields that only feed the text
    of the prompt are left out. *)
Record ProfileContext := {
  name : option string;
  title : option string;
  company : option string;
  industry : option string;
  education : option (list EducationDetail);
  yearsOfExperience : option Q;
  keySkillsExpertise : option (list string);
  previousRoles : option (list string)
}.

Record IntelligentQuestion := {
  originalQuestion : string;
  customizedQuestion : option string;
  relevanceScore : Q;
  reasoning : string;
  iq_category : string;
  iq_subcategory : string
}.

Inductive RoleType := technical | management | business | general.

Inductive Seniority := entry | mid | senior | executive.

(** The part of the analysis that the pre-filter reads; the other fields
    of [analyzeProfile] only feed the text of the prompt. *)
Record Analysis := {
  roleType : RoleType;
  seniorityLevel : Seniority
}.

(** An entry of the [questions] array of a reply that is an object; any
    field may be missing.  [questionId] is the integer that the field
    holds, and [None] also when it holds anything else, which no [id] of
    the catalog is strictly equal to; the other fields are read at the
    types that the prompt asks for. *)
Record AIQuestion := {
  questionId : option Z;
  ai_customizedQuestion : option string;
  ai_relevanceScore : option Q;
  ai_reasoning : option string
}.

(** One value that the loop of [parseAIResponse] meets. *)
Inductive ReplyEntry :=
  (** [null]: reading its [questionId] throws a [TypeError]. *)
  | NullEntry
  (** A number, a string, a boolean or an array: its [questionId] is
      [undefined]. *)
  | PlainEntry
  (** An object. *)
  | ObjectEntry (q : AIQuestion).

(** What the [questions] field of the parsed object holds. *)
Inductive Reply :=
  (** The object has no such field. *)
  | Missing
  (** [null], [false], [0] or the empty string: like a missing field, it
      is replaced by the empty array. *)
  | Falsy
  (** [true], a number other than 0 or an object: [for ... of] throws a
      [TypeError] on it. *)
  | NotIterable
  (** An array, with its entries; or a string that is not empty, whose
      characters the loop meets as so many strings. *)
  | Entries (entries : list ReplyEntry).

Inductive Result (A : Type) :=
  | Ok (a : A)
  | Throw (message : string).

Arguments Ok {A} a.
Arguments Throw {A} message.

Definition determineRoleType (title : option string) : RoleType :=
  match title with
  | Some t =>
      if negb (truthy t) then general
      else if includesCI "engineer" t || includesCI "developer" t
              || includesCI "devops" t then technical
      else if includesCI "manager" t || includesCI "director" t
              || includesCI "lead" t then management
      else if includesCI "sales" t || includesCI "marketing" t then business
      else general
  | None => general
  end.

Definition seniorityFromTitle (title : option string) : Seniority :=
  match title with
  | Some t =>
      if negb (truthy t) then mid
      else if includesCI "junior" t || includesCI "associate" t then entry
      else if includesCI "senior" t || includesCI "lead" t then senior
      else if includesCI "director" t || includesCI "vp" t
              || includesCI "chief" t then executive
      else mid
  | None => mid
  end.

Definition determineSeniority (title : option string) (yearsOfExperience : option Q)
  : Seniority :=
  match yearsOfExperience with
  | Some y =>
      if qtruthy y then
        if negb (Qle_bool 3 y) then entry
        else if negb (Qle_bool 7 y) then mid
        else if negb (Qle_bool 12 y) then senior
        else executive
      else seniorityFromTitle title
  | None => seniorityFromTitle title
  end.

Definition analyzeProfile (profile : ProfileContext) : Analysis :=
  {| roleType := determineRoleType (title profile);
     seniorityLevel := determineSeniority (title profile) (yearsOfExperience profile) |}.

Definition inCategory (c : string) (q : ConversationStarter) : bool :=
  String.eqb (category q) c.

(** The prefix of [s] that ends with its last closing brace. *)
Fixpoint upToLastClose (s : string) : option string :=
  match s with
  | EmptyString => None
  | String c s' =>
      match upToLastClose s' with
      | Some p => Some (String c p)
      | None => if Ascii.eqb c "}" then Some (String c EmptyString) else None
      end
  end.

(** [response.match(/\{[\s\S]*\}/)]: the text from the first opening brace
    to the last closing brace after it. *)
Fixpoint matchBraces (response : string) : option string :=
  match response with
  | EmptyString => None
  | String c s' =>
      if Ascii.eqb c "{" then
        match upToLastClose s' with
        | Some p => Some (String c p)
        | None => None
        end
      else matchBraces s'
  end.

Section Service.

Context (conversationStarters : list ConversationStarter).
(** The outcome of the calls to the SDK of the completion service, from
    [initializeAI] to [result.response.text()]: the text of the reply, or
    an exception (no API key, transport error, timeout, quota). *)
Context (generateContent : Result string).
(** [JSON.parse] on a braced block: an exception on a syntax error, and
    otherwise an object, of which the code reads the [questions] field. *)
Context (JSON_parse : string -> Result Reply).
(** [xs.sort(() => 0.5 - Math.random())]: the order is the engine's. *)
Context (sortRandomly :
  list ConversationStarter -> State Random.Source (list ConversationStarter)).
Context (Number_toString : Q -> string).

Definition preFilterQuestions (profile : ProfileContext) (analysis : Analysis)
  : list ConversationStarter :=
  let filtered := conversationStarters in
  let filtered :=
    match roleType analysis with
    | technical =>
        List.filter (fun q => hasTag "technical" q || hasTag "skills" q
                              || inCategory "career_background" q
                              || inCategory "personality_motivation" q) filtered
    | management =>
        List.filter (fun q => hasTag "leadership" q || hasTag "management" q
                              || hasTag "team" q
                              || inCategory "soft_skills" q) filtered
    | _ => filtered
    end in
  let filtered :=
    match seniorityLevel analysis with
    | senior | executive =>
        List.filter (fun q => negb (hasTag "early_career" q)
                              && (hasTag "leadership" q || hasTag "mentorship" q
                                  || hasTag "strategy" q)) filtered
    | entry =>
        List.filter (fun q => hasTag "learning" q || hasTag "growth" q
                              || hasTag "early_career" q
                              || inCategory "career_background" q) filtered
    | mid => filtered
    end in
  if (length filtered <? 20)%nat then slice0 50 conversationStarters else filtered.

(** The body of the loop of [parseAIResponse] on an object [q]: the
    questions with the item pushed when [q] names a candidate. *)
Definition pushQuestion (candidateQuestions : list ConversationStarter)
    (questions : list IntelligentQuestion) (q : AIQuestion)
  : list IntelligentQuestion :=
  match List.find (fun cq => bool_decide (Some (id cq) = questionId q))
                  candidateQuestions with
  | Some originalQuestion =>
      questions ++
      [ {| originalQuestion := question originalQuestion;
           customizedQuestion := ai_customizedQuestion q;
           relevanceScore :=
             match ai_relevanceScore q with
             | Some s => if qtruthy s then s else 80%Q
             | None => 80%Q
             end;
           reasoning := orStr (ai_reasoning q) "AI selected as relevant";
           iq_category := category originalQuestion;
           iq_subcategory := subcategory originalQuestion |} ]
  | None => questions
  end.

(** The loop of [parseAIResponse] over the entries of the reply, from the
    questions pushed so far; it stops with the exception at the first
    [null]. *)
Fixpoint collectQuestions (candidateQuestions : list ConversationStarter)
    (questions : list IntelligentQuestion) (entries : list ReplyEntry)
  : Result (list IntelligentQuestion) :=
  match entries with
  | [] => Ok questions
  | NullEntry :: _ => Throw "Cannot read properties of null (reading 'questionId')"
  | PlainEntry :: rest => collectQuestions candidateQuestions questions rest
  | ObjectEntry q :: rest =>
      collectQuestions candidateQuestions
        (pushQuestion candidateQuestions questions q) rest
  end.

Definition parseAIResponse (response : string)
    (candidateQuestions : list ConversationStarter)
  : Result (list IntelligentQuestion) :=
  match matchBraces response with
  | None => Throw "No JSON found in AI response"
  | Some jsonMatch =>
      match JSON_parse jsonMatch with
      | Throw error => Throw error
      | Ok parsed =>
          let questions := [] in
          match parsed with
          | Missing | Falsy => collectQuestions candidateQuestions questions []
          | NotIterable => Throw "parsed.questions is not iterable"
          | Entries entries => collectQuestions candidateQuestions questions entries
          end
      end
  end.

Definition selectAndCustomizeWithAI (profile : ProfileContext) (analysis : Analysis)
    (candidateQuestions : list ConversationStarter) (count : Z)
  : Result (list IntelligentQuestion) :=
  match generateContent with
  | Throw error => Throw error
  | Ok response => parseAIResponse response candidateQuestions
  end.

Definition basicCustomization (question : string) (profile : ProfileContext) : string :=
  let customized := question in
  let customized :=
    match industry profile with
    | Some i =>
        if truthy i then
          replaceAllCI ["the industry"] ("the " +:+ i +:+ " industry")
            (replaceAllCI ["your industry"] ("your " +:+ i +:+ " industry") customized)
        else customized
    | None => customized
    end in
  let customized :=
    match title profile, company profile with
    | Some t, Some c =>
        if truthy t && truthy c then
          replaceAllCI ["your job"] ("your role as " +:+ t)
            (replaceAllCI ["your position"] ("your position as " +:+ t +:+ " at " +:+ c)
               (replaceAllCI ["your role"] ("your role as " +:+ t +:+ " at " +:+ c)
                  customized))
        else customized
    | _, _ => customized
    end in
  let customized :=
    match company profile with
    | Some c =>
        if truthy c then
          replaceAllCI ["at work"] ("at " +:+ c)
            (replaceAllCI ["your company"] c customized)
        else customized
    | None => customized
    end in
  let customized :=
    match education profile with
    | Some (primaryEducation :: _) =>
        match school primaryEducation, degree primaryEducation with
        | Some s, Some d =>
            if truthy s && truthy d then
              replaceAllCI ["your background"]
                ("your background with a " +:+ d +:+ " from " +:+ s)
                (replaceAllCI ["your education"] ("your " +:+ d +:+ " from " +:+ s)
                   customized)
            else customized
        | _, _ => customized
        end
    | _ => customized
    end in
  let customized :=
    match yearsOfExperience profile with
    | Some y =>
        if qtruthy y then
          replaceAllCI ["your experience"]
            ("your " +:+ Number_toString y +:+ " years of experience") customized
        else customized
    | None => customized
    end in
  let customized :=
    match keySkillsExpertise profile with
    | Some ((_ :: _) as skills) =>
        let topSkills := join " and " (firstn 2 skills) in
        replaceAllCI ["your expertise"] ("your expertise in " +:+ topSkills)
          (replaceAllCI ["your skills"] ("your expertise in " +:+ topSkills) customized)
    | _ => customized
    end in
  let customized :=
    match previousRoles profile with
    | Some ((_ :: _) as roles) =>
        let previousRole := List.last roles EmptyString in
        replaceAllCI ["your career"]
          ("your career progression from " +:+ previousRole +:+ " to "
           +:+ orStr (title profile) "your current role")
          (replaceAllCI ["your previous role"]
             ("your previous role as " +:+ previousRole) customized)
    | _ => customized
    end in
  customized.

Definition fallbackQuestionSelection (profile : ProfileContext) (count : Z)
  : State Random.Source (list IntelligentQuestion) :=
  let* shuffled := sortRandomly (slice0 (count * 2) conversationStarters) in
  let questions := slice0 count shuffled in
  ret (List.map (fun q =>
         {| originalQuestion := question q;
            customizedQuestion := Some (basicCustomization (question q) profile);
            relevanceScore := 70%Q;
            reasoning := "Fallback selection";
            iq_category := category q;
            iq_subcategory := subcategory q |})
       questions).

(** The [try] block analyses the profile, pre-filters the catalog and
    builds the prompt before it calls the service; on a profile of the
    declared type none of these steps throws or draws a random value. *)
Definition getIntelligentQuestions (profile : ProfileContext) (count : Z)
  : State Random.Source (list IntelligentQuestion) :=
  let profileAnalysis := analyzeProfile profile in
  let relevantQuestions := preFilterQuestions profile profileAnalysis in
  match selectAndCustomizeWithAI profile profileAnalysis relevantQuestions count with
  | Ok intelligentQuestions => ret intelligentQuestions
  | Throw _ => fallbackQuestionSelection profile count
  end.

End Service.

End IntelligentQuestionService.

(** ** The icebreaker service: the profile handed to the question service *)

Module AiService.

Import JsString Js.

(** An entry of the [experience] array of a scraped profile, of type
    [any] in the source: the fields that [generateIcebreakers] reads. *)
Record ScrapedExperience := {
  se_title : option string;
  se_company : option string;
  se_industry : option string;
  se_duration : option string
}.

Record ScrapedProfile := {
  name : option string;
  title : option string;
  skills : option (list string);
  experience : option (list ScrapedExperience);
  education : option (list IntelligentQuestionService.EducationDetail)
}.

(** A number that [parseInt] and sums of its results can be: an integer
    or [NaN]. *)
Inductive JsNumber := NaN | Num (n : Z).

(** [a + b] *)
Definition add (a b : JsNumber) : JsNumber :=
  match a, b with
  | Num x, Num y => Num (x + y)
  | _, _ => NaN
  end.

Definition isHexDigit (c : ascii) : bool :=
  isDigit c || between 97 102 (lowerChar c).

Definition hexValue (c : ascii) : Z :=
  if isDigit c then digitValue c else Z.of_N (code (lowerChar c)) - 87.

Fixpoint parseHexDigits (acc : Z) (s : string) : Z :=
  match s with
  | EmptyString => acc
  | String c s' => parseHexDigits (16 * acc + hexValue c) s'
  end.

(** [parseInt(text)] without a radix: leading white space is
    skipped, a sign is read, the prefix [0x] or [0X] selects base 16, and
    the longest run of digits is the number; [NaN] when there is no
    digit. *)
Definition Number_parseInt (text : string) : JsNumber :=
  let s := skipSpaces text in
  let sign := if startsWith "-" s then -1 else 1 in
  let s := if startsWith "-" s || startsWith "+" s then drop 1 s else s in
  if startsWith "0x" s || startsWith "0X" s then
    let digits := fst (span isHexDigit (drop 2 s)) in
    if truthy digits then Num (sign * parseHexDigits 0 digits) else NaN
  else
    let digits := fst (span isDigit s) in
    if truthy digits then Num (sign * parseInt digits) else NaN.

(** [exp.duration ? parseInt(exp.duration) : 1] *)
Definition yearsOf (exp : ScrapedExperience) : JsNumber :=
  match se_duration exp with
  | Some d => if truthy d then Number_parseInt d else Num 1
  | None => Num 1
  end.

(** [profile.experience?.reduce((total, exp) => total + years, 0)];
    [None] stands for [undefined]. *)
Definition yearsOfExperience (profile : ScrapedProfile) : option JsNumber :=
  match experience profile with
  | Some exps => Some (fold_left (fun total exp => add total (yearsOf exp)) exps (Num 0))
  | None => None
  end.

(** The first element of an optional array, [xs?.[0]]. *)
Definition first {A} (xs : option (list A)) : option A :=
  match xs with Some (x :: _) => Some x | _ => None end.

(** The fields of [profileContext] that the question service reads.  The
    service only tests [yearsOfExperience] for truthiness and compares it
    with thresholds, so [NaN], which is falsy, is handed over as an absent
    value. *)
Definition profileContext (profile : ScrapedProfile)
  : IntelligentQuestionService.ProfileContext :=
  {| IntelligentQuestionService.name := name profile;
     IntelligentQuestionService.title := title profile;
     IntelligentQuestionService.company :=
       match first (experience profile) with
       | Some exp => se_company exp
       | None => None
       end;
     IntelligentQuestionService.industry :=
       match first (experience profile) with
       | Some exp => se_industry exp
       | None => None
       end;
     IntelligentQuestionService.education := education profile;
     IntelligentQuestionService.yearsOfExperience :=
       match yearsOfExperience profile with
       | Some (Num n) => Some (inject_Z n)
       | _ => None
       end;
     IntelligentQuestionService.keySkillsExpertise :=
       Some (default [] (skills profile));
     IntelligentQuestionService.previousRoles :=
       Some (match experience profile with
             | Some exps =>
                 omap (fun exp => if truthyStr (se_title exp) then se_title exp else None)
                      (List.tl exps)
             | None => []
             end) |}.

End AiService.

(** ** The specification's wording of derived quantities

    Definitions that follow the words of the specification rather than the
    code; the theorems below compare them with the code. *)

Module SpecWords.

Import JsString Js QuestionBank.

(** "Rounded to one decimal place": the nearest tenth, halves going up. *)
Definition roundOneDecimal (x : Q) : Q :=
  (inject_Z (Qfloor (x * 10 + (1 # 2))) / 10)%Q.

(** "The per-experience month sum". *)
Definition monthSum (months : list Z) : Z := foldr Z.add 0 months.

(** "Unparseable": no year or month token, and no date range both of whose
    ends the engine reads as dates. *)
Definition unparseable (Date_parse : string -> option Z) (d : string) : Prop :=
  ProfileAnalysis.yearMatch d = None
  /\ ProfileAnalysis.monthMatch d = None
  /\ match ProfileAnalysis.dateRangeMatch d with
     | None => True
     | Some (g1, g2) =>
         Date_parse g1 = None
         \/ (String.eqb (toLowerCase g2) "present" = false /\ Date_parse g2 = None)
     end.

(** "Title containing [kw]", regardless of case. *)
Definition titleContains (kw : string) (pd : ConversationService.ProfileData) : bool :=
  optIncludesCI kw (ConversationService.pd_title pd).

(** "Industry containing [kw]", regardless of case. *)
Definition industryContains (kw : string) (pd : ConversationService.ProfileData) : bool :=
  optIncludesCI kw (ConversationService.pd_industry pd).

(** "A skill matching the fixed keyword set". *)
Definition someSkillMatches (pd : ConversationService.ProfileData) : bool :=
  existsb (fun skill => existsb (fun kw => includesCI kw skill)
                                ConversationService.skillKeywords)
          (default [] (ConversationService.pd_skills pd)).

(** "Experience length" satisfies [p]; a profile without an experience
    array has no length. *)
Definition experienceLength (p : nat -> bool)
    (pd : ConversationService.ProfileData) : bool :=
  match ConversationService.pd_experience pd with
  | Some experience => p (length experience)
  | None => false
  end.

(** The sum of the listed bonuses that fire, the early-career rule firing
    on the experience lengths accepted by [early]. *)
Definition bonusSum (early : nat -> bool) (q : ConversationStarter)
    (pd : ConversationService.ProfileData) : Q :=
  let bonus := ConversationService.bonus in
  (bonus (titleContains "lead" pd && hasTag "leadership" q) 3
   + bonus (titleContains "manager" pd && hasTag "management" q) 3
   + bonus ((titleContains "engineer" pd || titleContains "developer" pd)
            && hasTag "technical" q) 3
   + bonus (industryContains "tech" pd && hasTag "technology" q) 2
   + bonus (industryContains "finance" pd && hasTag "finance" q) 2
   + bonus (someSkillMatches pd && (hasTag "skills" q || hasTag "technical" q)) 2
   + bonus (experienceLength (fun n => 5 <? n)%nat pd && hasTag "senior" q) 2
   + bonus (experienceLength early pd && hasTag "early_career" q) 2)%Q.

(** The listed bonuses as the claim words them: "experience length < 3". *)
Definition listedBonuses : ConversationStarter -> ConversationService.ProfileData -> Q :=
  bonusSum (fun n => n <? 3)%nat.

(** The same, the early-career rule firing on lengths 1 and 2 only. *)
Definition firedBonuses : ConversationStarter -> ConversationService.ProfileData -> Q :=
  bonusSum (fun n => (0 <? n) && (n <? 3))%nat.

(** A sequence of scores is sorted in descending order. *)
Fixpoint sortedDescending (scores : list Q) : Prop :=
  match scores with
  | [] => True
  | x :: rest =>
      match rest with
      | [] => True
      | y :: _ => (y <= x)%Q /\ sortedDescending rest
      end
  end.

(** "Missing field" in a reply that was received and parsed: the object
    has no [questions] field, or an object among its entries lacks a
    field. *)
Definition missingField (reply : IntelligentQuestionService.Reply) : Prop :=
  match reply with
  | IntelligentQuestionService.Missing => True
  | IntelligentQuestionService.Entries entries =>
      exists q, IntelligentQuestionService.ObjectEntry q ∈ entries /\
        (IntelligentQuestionService.questionId q = None
         \/ IntelligentQuestionService.ai_customizedQuestion q = None
         \/ IntelligentQuestionService.ai_relevanceScore q = None
         \/ IntelligentQuestionService.ai_reasoning q = None)
  | _ => False
  end.

(** "Unparseable output" that is JSON all the same: the [questions] of
    the reply cannot be gone through, as they are not iterable or have
    [null] among them. *)
Definition unreadable (reply : IntelligentQuestionService.Reply) : Prop :=
  match reply with
  | IntelligentQuestionService.NotIterable => True
  | IntelligentQuestionService.Entries entries =>
      IntelligentQuestionService.NullEntry ∈ entries
  | _ => False
  end.

(** The failures on which the service throws: "transport error" and
    "unparseable output". *)
Definition serviceThrows
    (generateContent : IntelligentQuestionService.Result string)
    (JSON_parse : string -> IntelligentQuestionService.Result
                              IntelligentQuestionService.Reply) : Prop :=
  match generateContent with
  | IntelligentQuestionService.Throw _ => True
  | IntelligentQuestionService.Ok response =>
      match IntelligentQuestionService.matchBraces response with
      | None => True
      | Some block =>
          match JSON_parse block with
          | IntelligentQuestionService.Throw _ => True
          | IntelligentQuestionService.Ok reply => unreadable reply
          end
      end
  end.

(** "Fails (transport error, missing field, or unparseable output)". *)
Definition serviceFails
    (generateContent : IntelligentQuestionService.Result string)
    (JSON_parse : string -> IntelligentQuestionService.Result
                              IntelligentQuestionService.Reply) : Prop :=
  serviceThrows generateContent JSON_parse
  \/ exists response block reply,
       generateContent = IntelligentQuestionService.Ok response
       /\ IntelligentQuestionService.matchBraces response = Some block
       /\ JSON_parse block = IntelligentQuestionService.Ok reply
       /\ missingField reply.

End SpecWords.

(** ** Invariants of the selector *)

Module Invariants.

Import StateMonad QuestionBank ConversationService.

(** The question is of one of the given categories. *)
Definition inCategories (cs : list string) (q : ConversationStarter) : bool :=
  existsb (String.eqb (category q)) cs.

(** The items that the entries of a reply give: one for each object whose
    [questionId] names a candidate, in the order of the entries. *)
Definition answered (candidates : list ConversationStarter)
    (entries : list IntelligentQuestionService.ReplyEntry)
  : list IntelligentQuestionService.IntelligentQuestion :=
  List.concat
    (List.map (fun e =>
                 match e with
                 | IntelligentQuestionService.ObjectEntry q =>
                     IntelligentQuestionService.pushQuestion candidates [] q
                 | _ => []
                 end)
              entries).

(** The entries that the loop goes through: [parsed.questions || []]. *)
Definition entriesOf (reply : IntelligentQuestionService.Reply)
  : list IntelligentQuestionService.ReplyEntry :=
  match reply with
  | IntelligentQuestionService.Entries entries => entries
  | _ => []
  end.

(** A world reached from [w] by drawing random values only. *)
Definition drawnFrom (w w' : World) : Prop :=
  Random.stream (random w') = Random.stream (random w)
  /\ (Random.cursor (random w) <= Random.cursor (random w'))%nat
  /\ sessionQuestions w' = sessionQuestions w.

(** A computation only draws random values: it leaves the session map and
    the stream of the random source as it found them. *)
Definition onlyDraws {A} (m : State World A) : Prop :=
  forall w, drawnFrom w (snd (m w)).

(** The result of a computation, and the random source it leaves, depend
    on the random source only, not on the session map. *)
Definition readsRandomOnly {A} (m : State World A) : Prop :=
  forall w1 w2, random w1 = random w2 ->
    fst (m w1) = fst (m w2) /\ random (snd (m w1)) = random (snd (m w2)).

(** The same for a computation on the random source alone. *)
Definition advances {A} (m : State Random.Source A) : Prop :=
  forall r, Random.stream (snd (m r)) = Random.stream r
            /\ (Random.cursor r <= Random.cursor (snd (m r)))%nat.

End Invariants.

(** ** Sample data *)

Module Samples.

Import ProfileAnalysis.

(** An experience item that only has a duration. *)
Definition lasting (d : string) : Experience :=
  {| exp_title := None; exp_company := None; exp_duration := Some d;
     exp_isCurrent := None; exp_description := None |}.

(** A profile with the given experience and skills and supplied years. *)
Definition profileWith (years : option Q) (exps : option (list Experience))
    (sk : option (list string)) : RawProfile :=
  {| name := None; title := None; currentRole := None; currentCompany := None;
     location := None; industry := None; yearsOfExperience := years;
     experience := exps; skills := sk; certifications := None;
     education := None; volunteerExperience := None; languages := None |}.

(** A past role, marked as not current, listed first. *)
Definition pastRole : Experience :=
  {| exp_title := Some "Analyst"%string; exp_company := Some "Acme"%string;
     exp_duration := Some "2 yrs"%string; exp_isCurrent := Some false;
     exp_description := None |}.

(** Numbers are not printed in the samples. *)
Definition noDigits (q : Q) : string := EmptyString.

Import QuestionBank ConversationService.

Definition starter (i : Z) (c : string) (ts : list string) (text : string)
  : ConversationStarter :=
  {| id := i; category := c; subcategory := "general"; question := text; tags := ts |}.

(** A small question bank: two questions on the career, one on soft
    skills, one on motivation and one of a category outside the
    distribution. *)
Definition bank : list ConversationStarter :=
  [ starter 1 "career_background" ["technical"]
      "What drew you to your career?";
    starter 2 "career_background" ["early_career"]
      "What was your first role like?";
    starter 3 "soft_skills" ["leadership"]
      "How do you use your skills when a team disagrees?";
    starter 4 "personality_motivation" []
      "What motivates you outside of work?";
    starter 5 "industry_insights" ["technology"]
      "Where is the industry heading?" ]%string.

(** Profile data with an experience array and nothing else. *)
Definition experienced (exps : option (list Experience)) : ProfileData :=
  {| pd_name := None; pd_title := None; pd_company := None; pd_industry := None;
     pd_skills := None; pd_education := None; pd_experience := exps;
     pd_location := None |}.

Definition contextOf (sid : option string) : ConversationContext :=
  {| profileData := experienced None; previousQuestionIds := None; sessionId := sid |}.

(** A random source that favours the first question when ranking and the
    second one when scoring again. *)
Definition dice : Random.Source :=
  Random.replay [0.9; 0.1; 0.1; 0.9; 0.1; 0.9; 0.5; 0.5]%Q.

(** Session ["default"] has seen question 3, session ["B"] questions 1
    and 2. *)
Definition sessions : gmap string (list Z) :=
  <["default"%string := [3]]> (<["B"%string := [1; 2]]> ∅).

Definition world0 : World := {| random := dice; sessionQuestions := sessions |}.

(** A profile for the intelligent service with a title and a company. *)
Definition engineer : IntelligentQuestionService.ProfileContext :=
  {| IntelligentQuestionService.name := Some "Ada"%string;
     IntelligentQuestionService.title := Some "Software Engineer"%string;
     IntelligentQuestionService.company := Some "Acme"%string;
     IntelligentQuestionService.industry := None;
     IntelligentQuestionService.education := None;
     IntelligentQuestionService.yearsOfExperience := None;
     IntelligentQuestionService.keySkillsExpertise := None;
     IntelligentQuestionService.previousRoles := None |}.

(** A parser that reads the empty object and nothing else. *)
Definition parseEmptyObject (block : string)
  : IntelligentQuestionService.Result IntelligentQuestionService.Reply :=
  if String.eqb block "{}"
  then IntelligentQuestionService.Ok IntelligentQuestionService.Missing
  else IntelligentQuestionService.Throw "SyntaxError".

(** A block with three entries: an object that names question 4 and gives
    a text for it, a number, and an object that names a question that the
    catalog does not have. *)
Definition sampleBlock : string :=
  let quoted text := String "034" text +:+ String "034" EmptyString in
  "{" +:+ quoted "questions" +:+ ":[{" +:+ quoted "questionId" +:+ ":4,"
  +:+ quoted "customizedQuestion" +:+ ":" +:+ quoted "What motivates you at Acme?"
  +:+ "},7,{" +:+ quoted "questionId" +:+ ":99}]}".

Definition sampleEntries : list IntelligentQuestionService.ReplyEntry :=
  [ IntelligentQuestionService.ObjectEntry
      {| IntelligentQuestionService.questionId := Some 4;
         IntelligentQuestionService.ai_customizedQuestion :=
           Some "What motivates you at Acme?"%string;
         IntelligentQuestionService.ai_relevanceScore := None;
         IntelligentQuestionService.ai_reasoning := None |};
    IntelligentQuestionService.PlainEntry;
    IntelligentQuestionService.ObjectEntry
      {| IntelligentQuestionService.questionId := Some 99;
         IntelligentQuestionService.ai_customizedQuestion := None;
         IntelligentQuestionService.ai_relevanceScore := None;
         IntelligentQuestionService.ai_reasoning := None |} ].

(** A block whose [questions] are an array that holds [null]. *)
Definition nullBlock : string :=
  "{" +:+ String "034" "questions" +:+ String "034" ":[null]}".

(** A parser that reads the empty object and the two blocks above, and
    nothing else. *)
Definition parseSamples (block : string)
  : IntelligentQuestionService.Result IntelligentQuestionService.Reply :=
  if String.eqb block "{}"
  then IntelligentQuestionService.Ok IntelligentQuestionService.Missing
  else if String.eqb block sampleBlock
  then IntelligentQuestionService.Ok (IntelligentQuestionService.Entries sampleEntries)
  else if String.eqb block nullBlock
  then IntelligentQuestionService.Ok
         (IntelligentQuestionService.Entries [IntelligentQuestionService.NullEntry])
  else IntelligentQuestionService.Throw "SyntaxError".

(** An engine whose sort with a random comparator leaves the array as it
    is. *)
Definition keepOrder (l : list ConversationStarter)
  : StateMonad.State Random.Source (list ConversationStarter) :=
  StateMonad.ret l.

End Samples.

(** ** Sample scraped profiles *)

Module ScrapedSamples.

(** A scraped profile of a director with three skills, one of them a
    framework and one a database. *)
Definition director : Scraper.LinkedInProfile :=
  {| Scraper.name := Some "Ada"%string;
     Scraper.title := Some "Engineer"%string;
     Scraper.bio := Some EmptyString;
     Scraper.skills := Some ["Django"; "MongoDB"; "Leadership"]%string;
     Scraper.experience := None;
     Scraper.education := None;
     Scraper.location := None;
     Scraper.industry := None;
     Scraper.currentCompany := None;
     Scraper.currentRole := Some "Director of Engineering"%string;
     Scraper.yearsOfExperience := None |}.

(** An entry of a scraped experience that only has a duration. *)
Definition lasting (d : string) : AiService.ScrapedExperience :=
  {| AiService.se_title := None; AiService.se_company := None;
     AiService.se_industry := None; AiService.se_duration := Some d |}.

Definition scraped (exps : list AiService.ScrapedExperience) : AiService.ScrapedProfile :=
  {| AiService.name := None; AiService.title := None; AiService.skills := None;
     AiService.experience := Some exps; AiService.education := None |}.

End ScrapedSamples.

(** * Properties *)

(** ** The profile analyzer *)

Section AnalyzerFacts.

Import JsString Js ProfileAnalysis SpecWords.

Variable Date_parse : string -> option Z.
Variable Date_now : Z.
Variable Number_toString : Q -> string.

Local Abbreviation durationMonths := (durationMonths Date_parse Date_now).
Local Abbreviation experienceMonths := (experienceMonths Date_parse Date_now).
Local Abbreviation totalMonths := (totalMonths Date_parse Date_now).
Local Abbreviation calculateExperienceYears := (calculateExperienceYears Date_parse Date_now).
Local Abbreviation analyzeProfileForRAG :=
  (analyzeProfileForRAG Date_parse Date_now Number_toString).

Lemma Qle_bool_false (a b : Q) : Qle_bool a b = false <-> (b < a)%Q.
Proof.
  split; intros H.
  - apply Qnot_le_lt. intros Hle. apply Qle_bool_iff in Hle. congruence.
  - destruct (Qle_bool a b) eqn:E; [|reflexivity].
    apply Qle_bool_iff in E. exfalso. exact (Qlt_not_le _ _ H E).
Qed.

Lemma determineCareerLevel_bands (years : Q) experience :
  ((years < 3)%Q -> determineCareerLevel years experience = entry)
  /\ ((3 <= years)%Q -> (years < 8)%Q -> determineCareerLevel years experience = mid)
  /\ ((8 <= years)%Q -> (years < 15)%Q -> determineCareerLevel years experience = senior)
  /\ ((15 <= years)%Q -> determineCareerLevel years experience = executive).
Proof.
  unfold determineCareerLevel.
  destruct (Qle_bool 15 years) eqn:E15;
    [apply Qle_bool_iff in E15 | apply Qle_bool_false in E15];
  (destruct (Qle_bool 8 years) eqn:E8;
    [apply Qle_bool_iff in E8 | apply Qle_bool_false in E8]);
  (destruct (Qle_bool 3 years) eqn:E3;
    [apply Qle_bool_iff in E3 | apply Qle_bool_false in E3]);
  repeat split; intros; try reflexivity; exfalso;
  repeat match goal with
  | H : (_ <= _)%Q |- _ => unfold Qle in H; simpl in H
  | H : (_ < _)%Q |- _ => unfold Qlt in H; simpl in H
  end; lia.
Qed.

(** C5. For every non-negative number of years the career level follows the
    mapping of the specification: below 3 [entry], 3 through 7 [mid],
    8 through 14 [senior], 15 or more [executive]; and a profile that
    supplies 9 years of experience is analysed as [senior]. *)
Theorem determineCareerLevel_mapping (years : Q) experience :
  (0 <= years)%Q ->
  ((years < 3)%Q -> determineCareerLevel years experience = entry)
  /\ ((3 <= years)%Q -> (years <= 7)%Q -> determineCareerLevel years experience = mid)
  /\ ((8 <= years)%Q -> (years <= 14)%Q -> determineCareerLevel years experience = senior)
  /\ ((15 <= years)%Q -> determineCareerLevel years experience = executive)
  /\ (forall profile y,
        yearsOfExperience profile = Some y -> (y == 9)%Q ->
        pc_careerLevel (personalInfo (analyzeProfileForRAG profile)) = senior).
Proof.
  intros _.
  destruct (determineCareerLevel_bands years experience) as (He & Hm & Hs & Hx).
  repeat split; auto.
  - intros H3 H7. apply Hm; [exact H3|]. eapply Qle_lt_trans; [exact H7|reflexivity].
  - intros H8 H14. apply Hs; [exact H8|]. eapply Qle_lt_trans; [exact H14|reflexivity].
  - intros profile y Hy H9. simpl. unfold extractPersonalContext. rewrite Hy.
    assert (Hq : qtruthy y = true).
    { unfold qtruthy. destruct (Qeq_bool y 0) eqn:E; [|reflexivity].
      apply Qeq_bool_iff in E. rewrite H9 in E. discriminate E. }
    rewrite Hq. simpl.
    apply (determineCareerLevel_bands y (ProfileAnalysis.experience profile));
      rewrite H9; [discriminate | reflexivity].
Qed.

(** *** Duration strings *)

Lemma anyChar_drop p n s : anyChar p s = false -> anyChar p (drop n s) = false.
Proof.
  revert s. induction n as [|n IH]; intros [|c s]; simpl; auto.
  intros H. apply orb_false_iff in H as [_ H]. auto.
Qed.

Lemma anyChar_span_rest p f s :
  anyChar p s = false -> anyChar p (snd (span f s)) = false.
Proof.
  induction s as [|c s IH]; simpl; auto.
  intros H. destruct (f c).
  - apply orb_false_iff in H as [_ H]. specialize (IH H).
    destruct (span f s); exact IH.
  - exact H.
Qed.

Lemma anyChar_spanSpaces_rest p pending s :
  anyChar p s = false -> anyChar p (snd (spanSpacesFrom pending s)) = false.
Proof.
  revert pending. induction s as [|c s IH]; intros pending H; [reflexivity|].
  cbn [spanSpacesFrom].
  destruct (match pending with O => spaceWidth (String c s) | S _ => pending end)
    as [|k]; [exact H|].
  cbn [anyChar] in H. apply orb_false_iff in H as [_ H]. specialize (IH k H).
  destruct (spanSpacesFrom k s); exact IH.
Qed.

Lemma anyChar_skipSpaces p s :
  anyChar p s = false -> anyChar p (skipSpaces s) = false.
Proof. apply anyChar_spanSpaces_rest. Qed.

Lemma matchCount_no_digit units s :
  anyChar isDigit s = false -> matchCount units s = None.
Proof.
  induction s as [|c s IH]; [reflexivity|].
  cbn [anyChar matchCount]. intros H.
  apply orb_false_iff in H as [Hc Hs]. rewrite Hc. auto.
Qed.

Lemma matchMonthYear_no_digit s :
  anyChar isDigit s = false -> matchMonthYear s = None.
Proof.
  intros H. unfold matchMonthYear.
  pose proof (anyChar_spanSpaces_rest isDigit O _ (anyChar_drop isDigit 3 _ H)) as Hr.
  fold (spanSpaces (drop 3 s)) in Hr.
  destruct (spanSpaces (drop 3 s)) as [sp r]. simpl in Hr.
  destruct r as [|c r]; simpl.
  - rewrite !andb_false_r. reflexivity.
  - simpl in Hr. apply orb_false_iff in Hr as [Hc _]. rewrite Hc.
    simpl. rewrite !andb_false_r. reflexivity.
Qed.

Lemma dateRangeMatch_no_digit s :
  anyChar isDigit s = false -> dateRangeMatch s = None.
Proof.
  induction s as [|c s IH]; intros H.
  - reflexivity.
  - cbn [dateRangeMatch]. unfold matchDateRangeAt.
    rewrite (matchMonthYear_no_digit _ H).
    simpl in H. apply orb_false_iff in H as [_ H]. auto.
Qed.

Lemma totalMonths_monthSum experience :
  totalMonths experience = monthSum (List.map experienceMonths experience).
Proof.
  unfold ProfileAnalysis.totalMonths, monthSum.
  assert (G : forall l acc,
    fold_left (fun total exp => total + experienceMonths exp) l acc
    = acc + foldr Z.add 0 (List.map experienceMonths l)).
  { induction l as [|e l IH]; intros acc; simpl; [lia|]. rewrite IH. lia. }
  rewrite G. lia.
Qed.

Lemma roundToTenth_roundOneDecimal (months : Z) :
  (roundToTenth months == roundOneDecimal (inject_Z months / 12))%Q.
Proof.
  unfold roundToTenth, roundOneDecimal.
  assert (E : (inject_Z months / 12 * 10 + (1 # 2) == (10 * months + 6) # 12)%Q).
  { unfold Qeq, Qdiv, Qmult, Qplus, Qinv, inject_Z. simpl. lia. }
  rewrite E. reflexivity.
Qed.

Lemma qmax_lower (a : Q) : (0 <= qmax a 0)%Q.
Proof.
  unfold qmax. destruct (Qle_bool a 0) eqn:E.
  - apply Qle_refl.
  - apply Qle_bool_false in E. apply Qlt_le_weak. exact E.
Qed.

Lemma qmax_compat (a b c : Q) : (a == b)%Q -> (qmax a c == qmax b c)%Q.
Proof.
  intros E. unfold qmax.
  destruct (Qle_bool a c) eqn:Ea, (Qle_bool b c) eqn:Eb;
    try reflexivity; try exact E; exfalso.
  - apply Qle_bool_iff in Ea. apply Qle_bool_false in Eb.
    rewrite E in Ea. exact (Qlt_not_le _ _ Eb Ea).
  - apply Qle_bool_iff in Eb. apply Qle_bool_false in Ea.
    rewrite E in Ea. exact (Qlt_not_le _ _ Ea Eb).
Qed.

Lemma anyChar_weaken (p q : ascii -> bool) s :
  (forall c, p c = true -> q c = true) ->
  anyChar q s = false -> anyChar p s = false.
Proof.
  intros Hpq. induction s as [|c s IH]; [reflexivity|]. cbn [anyChar].
  intros H. apply orb_false_iff in H as [Hc Hs]. rewrite (IH Hs), orb_false_r.
  destruct (p c) eqn:E; [|reflexivity]. rewrite (Hpq c E) in Hc. discriminate.
Qed.

(** A token needs the first letter of one of its units. *)
Lemma matchCount_no_initial (initial : ascii) units s :
  Forall (fun u => startsWith (String initial EmptyString) u = true) units ->
  anyChar (fun c => Ascii.eqb (lowerChar c) initial) s = false ->
  matchCount units s = None.
Proof.
  intros Hunits. induction s as [|c s IH]; [reflexivity|]. intros H.
  assert (Hs : anyChar (fun c => Ascii.eqb (lowerChar c) initial) s = false)
    by (cbn [anyChar] in H; apply orb_false_iff in H as [_ H]; exact H).
  cbn [matchCount]. destruct (isDigit c); [|exact (IH Hs)].
  pose proof (anyChar_skipSpaces _ _ (anyChar_span_rest _ isDigit _ H)) as Hrest.
  destruct (span isDigit (String c s)) as [digits rest]. cbn [snd] in Hrest.
  assert (E : existsb (fun u => startsWithCI u (skipSpaces rest)) units = false).
  { destruct (existsb _ units) eqn:E; [|reflexivity].
    apply existsb_exists in E as (u & Hu & Hst).
    rewrite Forall_forall in Hunits. apply list_elem_of_In in Hu.
    specialize (Hunits u Hu). destruct u as [|a u]; [discriminate|].
    cbn [startsWith] in Hunits.
    destruct (Ascii.eqb initial a) eqn:Ea; [|discriminate].
    apply Ascii.eqb_eq in Ea. subst a.
    unfold startsWithCI in Hst. destruct (skipSpaces rest) as [|b t]; [discriminate|].
    cbn [toLowerCase startsWith anyChar] in Hst, Hrest.
    apply orb_false_iff in Hrest as [Hb _]. rewrite Ascii.eqb_sym, Hb in Hst.
    discriminate. }
  rewrite E. exact (IH Hs).
Qed.

(** A date range needs a dash. *)
Lemma dateRangeMatch_no_dash s :
  anyChar (fun c => Ascii.eqb c "-" || (code c =? 226)%N) s = false ->
  dateRangeMatch s = None.
Proof.
  assert (Hat : forall t,
            anyChar (fun c => Ascii.eqb c "-" || (code c =? 226)%N) t = false ->
            matchDateRangeAt t = None).
  { intros t H. unfold matchDateRangeAt, matchMonthYear.
    pose proof (anyChar_spanSpaces_rest _ O _ (anyChar_drop _ 3 _ H)) as Hr.
    fold (spanSpaces (drop 3 t)) in Hr.
    destruct (spanSpaces (drop 3 t)) as [sp r]. cbn [snd] in Hr.
    destruct (_ && _); [|reflexivity].
    pose proof (anyChar_skipSpaces _ _ (anyChar_drop _ 4 _ Hr)) as Hr1.
    unfold matchDash.
    destruct (skipSpaces (drop 4 r)) as [|c r1]; [reflexivity|].
    cbn [anyChar] in Hr1. apply orb_false_iff in Hr1 as [Hc _].
    apply orb_false_iff in Hc as [Hh He].
    cbn [startsWith]. rewrite Ascii.eqb_sym, Hh.
    unfold enDash. cbn [startsWith].
    destruct (Ascii.eqb _ c) eqn:E; [|reflexivity].
    apply Ascii.eqb_eq in E. subst c. discriminate. }
  induction s as [|c s IH]; intros H.
  - reflexivity.
  - cbn [dateRangeMatch]. rewrite (Hat _ H).
    cbn [anyChar] in H. apply orb_false_iff in H as [_ H]. auto.
Qed.

Lemma durationMonths_unparseable d :
  unparseable Date_parse d -> durationMonths d = 0.
Proof.
  intros (Hy & Hm & Hr). unfold ProfileAnalysis.durationMonths.
  rewrite Hy, Hm. simpl.
  destruct (dateRangeMatch d) as [[g1 g2]|]; [|reflexivity].
  destruct Hr as [H1 | [Hp H2]].
  - rewrite H1. reflexivity.
  - rewrite Hp, H2. destruct (Date_parse g1); reflexivity.
Qed.

Lemma durationMonths_range d g1 g2 t1 t2 :
  yearMatch d = None -> monthMatch d = None ->
  dateRangeMatch d = Some (g1, g2) ->
  String.eqb (toLowerCase g2) "present" = false ->
  Date_parse g1 = Some t1 -> Date_parse g2 = Some t2 ->
  durationMonths d = ceilDiv (Z.abs (t2 - t1)) msPerMonth.
Proof.
  intros Hy Hm Hr Hp H1 H2. unfold ProfileAnalysis.durationMonths.
  rewrite Hy, Hm, Hr, Hp, H1, H2. reflexivity.
Qed.

(** C4. A duration ["1 yr 6 mos"] contributes 18 months, that is 1.5
    years, ["9 mos"] 9 months, that is 0.75 years, and
    ["Jan 2020 – Jan 2022"] 25 months, within 0.1 of 2 years, when the
    engine reads the two month names as dates 731 days apart; a string
    with no year or month token and no readable date range contributes 0:
    such is every string without a digit, and every string that has
    neither a letter y or m, in either case, nor a hyphen or the first
    byte of an en dash.  The tokens are read whichever white-space
    character separates them: ["1 yr 6 mos"] written with any one of the
    white-space characters of the language, a no-break space for one, in
    place of the spaces still contributes 18 months.  The total is the sum
    of the contributions in months, converted to years, rounded to one
    decimal place and floored at 0: for the three durations alone it is
    1.5, 0.8 and 2.1. *)
Theorem calculateExperienceYears_durations (t1 t2 : Z) :
  Date_parse "Jan 2020" = Some t1 ->
  Date_parse "Jan 2022" = Some t2 ->
  Z.abs (t2 - t1) = 731 * msPerDay ->
  (inject_Z (durationMonths "1 yr 6 mos") / 12 == 1.5)%Q
  /\ (inject_Z (durationMonths "9 mos") / 12 == 0.75)%Q
  /\ (Qabs (inject_Z (durationMonths "Jan 2020 – Jan 2022") / 12 - 2) <= 0.1)%Q
  /\ (forall d, unparseable Date_parse d -> durationMonths d = 0)
  /\ (forall d, anyChar isDigit d = false -> unparseable Date_parse d)
  /\ (forall d,
        anyChar (fun c => Ascii.eqb (lowerChar c) "y" || Ascii.eqb (lowerChar c) "m") d
        = false ->
        anyChar (fun c => Ascii.eqb c "-" || (code c =? 226)%N) d = false ->
        unparseable Date_parse d)
  /\ Forall (fun space =>
               durationMonths ("1" +:+ space +:+ "yr" +:+ space +:+ "6" +:+ space
                               +:+ "mos") = 18)
            whiteSpace
  /\ (forall experience,
        (calculateExperienceYears (Some experience)
         == qmax (roundOneDecimal
                    (inject_Z (monthSum (List.map experienceMonths experience)) / 12)) 0)%Q
        /\ (0 <= calculateExperienceYears (Some experience))%Q)
  /\ (calculateExperienceYears (Some [Samples.lasting "1 yr 6 mos"]) == 1.5)%Q
  /\ (calculateExperienceYears (Some [Samples.lasting "9 mos"]) == 0.8)%Q
  /\ (calculateExperienceYears (Some [Samples.lasting "Jan 2020 – Jan 2022"]) == 2.1)%Q.
Proof.
  intros H1 H2 Hd.
  assert (Hrange : durationMonths "Jan 2020 – Jan 2022" = 25).
  { rewrite (durationMonths_range _ "Jan 2020" "Jan 2022" t1 t2);
      try reflexivity; try assumption.
    rewrite Hd. reflexivity. }
  split; [reflexivity|].
  split; [reflexivity|].
  split; [rewrite Hrange; unfold Qabs, Qle; simpl; lia|].
  split; [exact durationMonths_unparseable|].
  split.
  { intros d Hn. unfold unparseable, yearMatch, monthMatch.
    rewrite !matchCount_no_digit, dateRangeMatch_no_digit by exact Hn. auto. }
  split.
  { intros d Hletters Hdash. unfold unparseable, yearMatch, monthMatch.
    rewrite (matchCount_no_initial "y" ["yr"; "year"] d),
      (matchCount_no_initial "m" ["mo"; "month"] d),
      (dateRangeMatch_no_dash _ Hdash);
      [auto | repeat constructor | | repeat constructor | ].
    - refine (anyChar_weaken _ _ d _ Hletters). intros c ->. apply orb_true_r.
    - refine (anyChar_weaken _ _ d _ Hletters). intros c ->. reflexivity. }
  split.
  { unfold whiteSpace. cbn [List.map].
    repeat (apply Forall_cons; split; [reflexivity|]). constructor. }
  split.
  { intros experience. split.
    - destruct experience as [|e l].
      + reflexivity.
      + unfold ProfileAnalysis.calculateExperienceYears.
        rewrite totalMonths_monthSum. apply qmax_compat.
        apply roundToTenth_roundOneDecimal.
    - destruct experience as [|e l]; [discriminate|]. apply qmax_lower. }
  split; [reflexivity|].
  split; [reflexivity|].
  unfold ProfileAnalysis.calculateExperienceYears, ProfileAnalysis.totalMonths,
    ProfileAnalysis.experienceMonths.
  simpl fold_left. change (0 + durationMonths "Jan 2020 – Jan 2022")
    with (durationMonths "Jan 2020 – Jan 2022").
  rewrite Hrange. reflexivity.
Qed.

(** *** The analyzer as a whole *)

Lemma calculateExperienceYears_nonneg experience :
  (0 <= calculateExperienceYears experience)%Q.
Proof.
  destruct experience as [[|e l]|]; try apply Qle_refl. apply qmax_lower.
Qed.

Lemma extractPersonalContext_years profile :
  pc_yearsOfExperience (personalInfo (analyzeProfileForRAG profile))
  = match yearsOfExperience profile with
    | Some y =>
        if qtruthy y then y else calculateExperienceYears (experience profile)
    | None => calculateExperienceYears (experience profile)
    end.
Proof. reflexivity. Qed.

(** C2, amended. For every profile whose supplied [yearsOfExperience], if
    any, is not negative, whatever fields are absent and whatever the
    duration strings are, [analyzeProfileForRAG] returns a context whose
    [yearsOfExperience] is at least 0 and whose [careerLevel] is one of
    the four levels, the one that [determineCareerLevel] gives for these
    years.  A supplied non-zero value is returned as it stands. *)
Theorem analyzeProfileForRAG_years_level profile :
  (forall y, yearsOfExperience profile = Some y -> (0 <= y)%Q) ->
  let info := personalInfo (analyzeProfileForRAG profile) in
  (0 <= pc_yearsOfExperience info)%Q
  /\ pc_careerLevel info ∈ [entry; mid; senior; executive]
  /\ pc_careerLevel info
     = determineCareerLevel (pc_yearsOfExperience info) (experience profile)
  /\ (forall y, yearsOfExperience profile = Some y -> qtruthy y = true ->
        pc_yearsOfExperience info = y).
Proof.
  intros Hsupplied info.
  pose proof (extractPersonalContext_years profile) as Hy. fold info in Hy.
  repeat split.
  - rewrite Hy. destruct (yearsOfExperience profile) as [y|] eqn:E.
    + destruct (qtruthy y);
        [apply Hsupplied; reflexivity | apply calculateExperienceYears_nonneg].
    + apply calculateExperienceYears_nonneg.
  - destruct (pc_careerLevel info); set_solver.
  - intros y E Ht. rewrite Hy, E, Ht. reflexivity.
Qed.

(** C9. For every profile with a non-empty experience list, the first entry
    of [careerProgression] is current and of high significance, whatever
    the [isCurrent] field of the first experience item holds. *)
Theorem careerProgression_first_entry profile exp rest :
  experience profile = Some (exp :: rest) ->
  exists step steps,
    careerProgression (professionalJourney (analyzeProfileForRAG profile))
    = step :: steps
    /\ cs_isCurrent step = true
    /\ cs_significance step = high.
Proof.
  intros E. simpl. unfold analyzeProfessionalJourney. rewrite E. simpl.
  eexists _, _. split; [reflexivity|]. simpl.
  split; [apply orb_true_r | reflexivity].
Qed.

Lemma kept_sublist {A} (keep : A -> bool) (l : list A) :
  List.filter keep l `sublist_of` l.
Proof.
  induction l as [|x l IH]; cbn [List.filter]; [constructor|].
  destruct (keep x); constructor; exact IH.
Qed.

Lemma kept_count (keep : string -> bool) (l : list string) (s : string) :
  count_occ String.string_dec (List.filter keep l) s
  = if keep s then count_occ String.string_dec l s else 0%nat.
Proof.
  induction l as [|x l IH]; cbn [List.filter count_occ].
  - destruct (keep s); reflexivity.
  - destruct (keep x) eqn:Ex; cbn [count_occ]; destruct (String.string_dec x s) as [->|Hne].
    + rewrite IH, Ex. reflexivity.
    + exact IH.
    + rewrite IH, Ex. reflexivity.
    + exact IH.
Qed.


End AnalyzerFacts.

(** *** The analyzer on sample profiles *)

Section AnalyzerSamples.

Import JsString Js ProfileAnalysis SpecWords Samples.

Lemma determineCareerLevel_mapping_at_nine :
  (0 <= 9)%Q /\ determineCareerLevel 9 None = senior.
Proof.
  assert (H0 : (0 <= 9)%Q) by discriminate.
  split; [exact H0|].
  pose proof (determineCareerLevel_mapping parseMonthYear 0 noDigits 9 None H0)
    as (_ & _ & Hs & _).
  apply Hs; discriminate.
Defined.

Lemma calculateExperienceYears_durations_calendar :
  parseMonthYear "Jan 2020" = Some 1577836800000
  /\ parseMonthYear "Jan 2022" = Some 1640995200000
  /\ Z.abs (1640995200000 - 1577836800000) = 731 * msPerDay
  /\ (calculateExperienceYears parseMonthYear 0
        (Some [lasting "Jan 2020 – Jan 2022"]) == 2.1)%Q.
Proof.
  assert (H1 : parseMonthYear "Jan 2020" = Some 1577836800000) by reflexivity.
  assert (H2 : parseMonthYear "Jan 2022" = Some 1640995200000) by reflexivity.
  assert (H3 : Z.abs (1640995200000 - 1577836800000) = 731 * msPerDay)
    by reflexivity.
  split; [exact H1|]. split; [exact H2|]. split; [exact H3|].
  pose proof (calculateExperienceYears_durations parseMonthYear 0 _ _ H1 H2 H3)
    as (_ & _ & _ & _ & _ & _ & _ & _ & _ & _ & H).
  exact H.
Defined.

(** A profile that supplies a negative number of years gets it back. *)
Lemma analyzeProfileForRAG_negative_years :
  ~ (0 <= pc_yearsOfExperience
            (personalInfo
               (analyzeProfileForRAG parseMonthYear 0 noDigits
                  (profileWith (Some (-1)%Q) None None))))%Q.
Proof. intros H. apply H. reflexivity. Qed.

Lemma analyzeProfileForRAG_years_level_sample :
  let profile := profileWith None (Some [pastRole; lasting "9 mos"]) None in
  (forall y, yearsOfExperience profile = Some y -> (0 <= y)%Q)
  /\ (0 <= pc_yearsOfExperience
             (personalInfo (analyzeProfileForRAG parseMonthYear 0 noDigits profile)))%Q.
Proof.
  intros profile.
  assert (H : forall y, yearsOfExperience profile = Some y -> (0 <= y)%Q)
    by (intros y E; discriminate E).
  split; [exact H|].
  apply (analyzeProfileForRAG_years_level parseMonthYear 0 noDigits profile H).
Defined.

Lemma careerProgression_first_entry_sample :
  let profile := profileWith None (Some [pastRole; lasting "9 mos"]) None in
  experience profile = Some [pastRole; lasting "9 mos"]
  /\ exp_isCurrent pastRole = Some false
  /\ exists step steps,
       careerProgression
         (professionalJourney (analyzeProfileForRAG parseMonthYear 0 noDigits profile))
       = step :: steps
       /\ cs_isCurrent step = true
       /\ cs_significance step = high.
Proof.
  intros profile.
  assert (H : experience profile = Some [pastRole; lasting "9 mos"]) by reflexivity.
  split; [exact H|]. split; [reflexivity|].
  exact (careerProgression_first_entry parseMonthYear 0 noDigits profile _ _ H).
Defined.


End AnalyzerSamples.

(** ** The diversity selector *)

Section ListFacts.

Context {A : Type}.

Lemma filter_sublist (f : A -> bool) (l : list A) : List.filter f l `sublist_of` l.
Proof.
  induction l as [|x l IH]; simpl; [constructor|].
  destruct (f x); [apply sublist_skip | apply sublist_cons]; exact IH.
Qed.

Lemma filter_filter (f g : A -> bool) (l : list A) :
  List.filter f (List.filter g l) = List.filter (fun x => f x && g x) l.
Proof.
  induction l as [|x l IH]; simpl; [reflexivity|].
  destruct (g x); simpl; rewrite ?andb_true_r, ?andb_false_r;
    [destruct (f x)|]; rewrite IH; reflexivity.
Qed.

Lemma filter_and_sublist (f g : A -> bool) (l : list A) :
  List.filter (fun x => f x && g x) l `sublist_of` List.filter f l.
Proof.
  induction l as [|x l IH]; simpl; [constructor|].
  destruct (f x), (g x); simpl;
    [apply sublist_skip | apply sublist_cons | |]; exact IH.
Qed.

Lemma filter_exclusive_app (f g : A -> bool) (l : list A) :
  (forall x, f x && g x = false) ->
  List.filter f l ++ List.filter g l ≡ₚ List.filter (fun x => f x || g x) l.
Proof.
  intros Hfg. induction l as [|x l IH]; simpl; [reflexivity|].
  specialize (Hfg x). destruct (f x), (g x); simpl; try discriminate.
  - rewrite IH. reflexivity.
  - rewrite <- Permutation_middle, IH. reflexivity.
  - exact IH.
Qed.

Lemma submseteq_NoDup (l k : list A) : l ⊆+ k -> NoDup k -> NoDup l.
Proof.
  intros Hsub Hk. apply submseteq_Permutation in Hsub as [k' Hk'].
  rewrite Hk' in Hk. apply NoDup_app in Hk. tauto.
Qed.

Lemma slice0_sublist (n : Z) (l : list A) : Js.slice0 n l `sublist_of` l.
Proof. unfold Js.slice0. destruct (n <? 0); apply sublist_take. Qed.

Lemma insertDesc_Permutation (key : A -> Q) x l : Js.insertDesc key x l ≡ₚ x :: l.
Proof.
  induction l as [|y l IH]; simpl; [reflexivity|].
  destruct (Qle_bool (key y) (key x)); [reflexivity|].
  rewrite IH. apply perm_swap.
Qed.

Lemma sortDesc_Permutation (key : A -> Q) l : Js.sortDesc key l ≡ₚ l.
Proof.
  unfold Js.sortDesc. induction l as [|x l IH]; simpl; [reflexivity|].
  rewrite insertDesc_Permutation, IH. reflexivity.
Qed.

End ListFacts.

Create HintDb draws.
Create HintDb reads.

Section DrawFacts.

Import StateMonad QuestionBank ConversationService Invariants.

Lemma drawnFrom_refl w : drawnFrom w w.
Proof. unfold drawnFrom. auto. Qed.

Lemma drawnFrom_trans w1 w2 w3 :
  drawnFrom w1 w2 -> drawnFrom w2 w3 -> drawnFrom w1 w3.
Proof.
  unfold drawnFrom. intros (E1 & L1 & S1) (E2 & L2 & S2).
  repeat split; [congruence | lia | congruence].
Qed.

Lemma onlyDraws_ret {A} (a : A) : onlyDraws (ret a).
Proof. intros w. apply drawnFrom_refl. Qed.

Lemma onlyDraws_bind {A B} (m : State World A) (k : A -> State World B) :
  onlyDraws m -> (forall a, onlyDraws (k a)) -> onlyDraws (bind m k).
Proof.
  intros Hm Hk w. unfold bind. specialize (Hm w).
  destruct (m w) as [a w1]. eapply drawnFrom_trans; [exact Hm | apply Hk].
Qed.

Lemma onlyDraws_mapM {A B} (f : A -> State World B) (l : list A) :
  (forall x, onlyDraws (f x)) -> onlyDraws (mapM f l).
Proof.
  intros Hf. induction l as [|x l IH]; simpl.
  - apply onlyDraws_ret.
  - apply onlyDraws_bind; [apply Hf|]. intros y.
    apply onlyDraws_bind; [exact IH|]. intros ys. apply onlyDraws_ret.
Qed.

Lemma onlyDraws_Math_random : onlyDraws Math_random.
Proof. intros w. unfold Math_random, drawnFrom. simpl. auto with lia. Qed.

Lemma onlyDraws_liftRandom {A} (m : State Random.Source A) :
  advances m -> onlyDraws (liftRandom m).
Proof.
  intros Hm w. unfold liftRandom, drawnFrom. specialize (Hm (random w)).
  destruct (m (random w)) as [a src]. simpl in *. tauto.
Qed.

Lemma advances_drawRandom n pool : advances (drawRandom n pool).
Proof.
  revert pool. induction n as [|n IH]; intros pool r; simpl.
  - auto.
  - destruct pool as [|q0 pool]; [simpl; auto|].
    unfold bind. simpl.
    destruct ((q0 :: pool) !! _) as [q|]; [|simpl; auto with lia].
    specialize (IH (delete (pickIndex (Random.stream r (Random.cursor r))
                                      (length (q0 :: pool))) (q0 :: pool))
                   {| Random.stream := Random.stream r;
                      Random.cursor := S (Random.cursor r) |}).
    destruct (drawRandom n _ _) as [rest r']. simpl in *.
    destruct IH as [E L]. split; [exact E | lia].
Qed.

Lemma advances_getRandomQuestions catalog count excludeIds :
  advances (getRandomQuestions catalog count excludeIds).
Proof. apply advances_drawRandom. Qed.

#[local] Hint Resolve onlyDraws_ret onlyDraws_Math_random
  advances_getRandomQuestions onlyDraws_liftRandom : draws.

(** Walks through the binds of a computation, leaving the calls that are
    not known to draw only. *)
Ltac walk_draws :=
  repeat first
    [ solve [auto with draws]
    | apply onlyDraws_bind; [|intro]
    | apply onlyDraws_mapM; intro ].

Lemma onlyDraws_calculateRelevanceScore q pd :
  onlyDraws (calculateRelevanceScore q pd).
Proof. unfold calculateRelevanceScore. walk_draws. Qed.

#[local] Hint Resolve onlyDraws_calculateRelevanceScore : draws.

Lemma onlyDraws_rankQuestionsByRelevance l pd :
  onlyDraws (rankQuestionsByRelevance l pd).
Proof. unfold rankQuestionsByRelevance. walk_draws. Qed.

#[local] Hint Resolve onlyDraws_rankQuestionsByRelevance : draws.

Lemma onlyDraws_personalizeQuestion q pd : onlyDraws (personalizeQuestion q pd).
Proof.
  unfold personalizeQuestion. apply onlyDraws_bind; [|intro; walk_draws].
  destruct (pd_name pd) as [n|]; [destruct (JsString.truthy n)|]; walk_draws.
Qed.

Lemma onlyDraws_selectFromCategories catalog dist used pd :
  onlyDraws (selectFromCategories catalog dist used pd).
Proof.
  induction dist as [|[c k] rest IH]; simpl; [walk_draws|].
  apply onlyDraws_bind; [|intro; apply onlyDraws_bind; [exact IH | intro; walk_draws]].
  destruct (List.filter _ _); walk_draws.
Qed.

#[local] Hint Resolve onlyDraws_selectFromCategories : draws.

Lemma onlyDraws_chooseQuestions catalog used pd count :
  onlyDraws (chooseQuestions catalog used pd count).
Proof.
  unfold chooseQuestions. apply onlyDraws_bind; [walk_draws|].
  intros sel. destruct (_ <? count); walk_draws.
Qed.

Lemma readsRandomOnly_ret {A} (a : A) : readsRandomOnly (ret a).
Proof. intros w1 w2 E. auto. Qed.

Lemma readsRandomOnly_bind {A B} (m : State World A) (k : A -> State World B) :
  readsRandomOnly m -> (forall a, readsRandomOnly (k a)) ->
  readsRandomOnly (bind m k).
Proof.
  intros Hm Hk w1 w2 E. unfold bind. specialize (Hm w1 w2 E).
  destruct (m w1) as [a1 v1], (m w2) as [a2 v2]. simpl in Hm.
  destruct Hm as [-> Ev]. apply Hk. exact Ev.
Qed.

Lemma readsRandomOnly_mapM {A B} (f : A -> State World B) (l : list A) :
  (forall x, readsRandomOnly (f x)) -> readsRandomOnly (mapM f l).
Proof.
  intros Hf. induction l as [|x l IH]; simpl.
  - apply readsRandomOnly_ret.
  - apply readsRandomOnly_bind; [apply Hf|]. intros y.
    apply readsRandomOnly_bind; [exact IH|]. intros ys. apply readsRandomOnly_ret.
Qed.

Lemma readsRandomOnly_Math_random : readsRandomOnly Math_random.
Proof. intros w1 w2 E. unfold Math_random. rewrite E. simpl. auto. Qed.

Lemma readsRandomOnly_liftRandom {A} (m : State Random.Source A) :
  readsRandomOnly (liftRandom m).
Proof.
  intros w1 w2 E. unfold liftRandom. rewrite E.
  destruct (m (random w2)). simpl. auto.
Qed.

#[local] Hint Resolve readsRandomOnly_ret readsRandomOnly_Math_random
  readsRandomOnly_liftRandom : reads.

(** The same walk for the dependence on the random source. *)
Ltac walk_reads :=
  repeat first
    [ solve [auto with reads]
    | apply readsRandomOnly_bind; [|intro]
    | apply readsRandomOnly_mapM; intro ].

Lemma readsRandomOnly_calculateRelevanceScore q pd :
  readsRandomOnly (calculateRelevanceScore q pd).
Proof. unfold calculateRelevanceScore. walk_reads. Qed.

#[local] Hint Resolve readsRandomOnly_calculateRelevanceScore : reads.

Lemma readsRandomOnly_rankQuestionsByRelevance l pd :
  readsRandomOnly (rankQuestionsByRelevance l pd).
Proof. unfold rankQuestionsByRelevance. walk_reads. Qed.

#[local] Hint Resolve readsRandomOnly_rankQuestionsByRelevance : reads.

Lemma readsRandomOnly_personalizeQuestion q pd :
  readsRandomOnly (personalizeQuestion q pd).
Proof.
  unfold personalizeQuestion. apply readsRandomOnly_bind; [|intro; walk_reads].
  destruct (pd_name pd) as [n|]; [destruct (JsString.truthy n)|]; walk_reads.
Qed.

Lemma readsRandomOnly_selectFromCategories catalog dist used pd :
  readsRandomOnly (selectFromCategories catalog dist used pd).
Proof.
  induction dist as [|[c k] rest IH]; simpl; [walk_reads|].
  apply readsRandomOnly_bind;
    [|intro; apply readsRandomOnly_bind; [exact IH | intro; walk_reads]].
  destruct (List.filter _ _); walk_reads.
Qed.

#[local] Hint Resolve readsRandomOnly_selectFromCategories : reads.

Lemma readsRandomOnly_chooseQuestions catalog used pd count :
  readsRandomOnly (chooseQuestions catalog used pd count).
Proof.
  unfold chooseQuestions. apply readsRandomOnly_bind; [walk_reads|].
  intros sel. destruct (_ <? count); walk_reads.
Qed.

(** [selectDiverse] chooses from the entry of its own session and stores
    the extended entry. *)
Lemma selectDiverse_unfold catalog context count w :
  let sid := default "default"%string (sessionId context) in
  let used := usedQuestionsOf (sessionQuestions w) sid in
  let chosen := chooseQuestions catalog used (profileData context) count w in
  selectDiverse catalog context count w
  = (fst chosen,
     {| random := random (snd chosen);
        sessionQuestions :=
          <[sid := used ++ List.map id (fst chosen)]> (sessionQuestions w) |}).
Proof.
  intros sid used chosen. unfold selectDiverse, bind, get, put, ret.
  fold sid. fold used. fold chosen.
  pose proof (onlyDraws_chooseQuestions catalog used (profileData context) count w)
    as (_ & _ & Hs).
  fold chosen in Hs. destruct chosen as [sel w2]. simpl in *. rewrite Hs.
  reflexivity.
Qed.

Lemma getDiverseQuestions_unfold catalog context count w :
  getDiverseQuestions catalog context count w
  = mapM (fun question => personalizeQuestion question (profileData context))
         (fst (selectDiverse catalog context count w))
         (snd (selectDiverse catalog context count w)).
Proof.
  unfold getDiverseQuestions, bind.
  destruct (selectDiverse catalog context count w). reflexivity.
Qed.

Lemma personalizeQuestion_original q pd w :
  originalQuestion (fst (personalizeQuestion q pd w)) = question q.
Proof.
  unfold personalizeQuestion, bind.
  destruct (pd_name pd) as [n|]; [destruct (JsString.truthy n)|];
    unfold bind, ret.
  - destruct (Math_random w) as [r w0].
    destruct (calculateRelevanceScore q pd w0). reflexivity.
  - destruct (calculateRelevanceScore q pd w). reflexivity.
  - destruct (calculateRelevanceScore q pd w). reflexivity.
Qed.

Lemma personalized_originals pd l w :
  List.map originalQuestion
    (fst (mapM (fun question => personalizeQuestion question pd) l w))
  = List.map question l.
Proof.
  revert w. induction l as [|q l IH]; intros w; simpl; [reflexivity|].
  unfold bind at 1. pose proof (personalizeQuestion_original q pd w) as Hq.
  destruct (personalizeQuestion q pd w) as [y w1].
  unfold bind at 1. specialize (IH w1).
  destruct (mapM _ l w1) as [ys w2]. simpl in *. rewrite IH, Hq. reflexivity.
Qed.

End DrawFacts.

Section SelectorFacts.

Import Js StateMonad QuestionBank ConversationService Invariants.

Variable catalog : list ConversationStarter.

Lemma elem_of_filter {A} (f : A -> bool) (l : list A) (x : A) :
  x ∈ List.filter f l <-> x ∈ l /\ f x = true.
Proof. rewrite !list_elem_of_In. apply filter_In. Qed.

Lemma unused_spec ids q : unused ids q = true <-> id q ∉ ids.
Proof.
  unfold unused. rewrite negb_true_iff, bool_decide_eq_false. reflexivity.
Qed.

Lemma same_id_same_question (l : list ConversationStarter) q q' :
  NoDup (List.map id l) -> q ∈ l -> q' ∈ l -> id q = id q' -> q = q'.
Proof.
  induction l as [|x l IH]; intros Hnd Hq Hq' E; [inversion Hq|].
  simpl in Hnd. apply NoDup_cons in Hnd as [Hx Hnd].
  apply elem_of_cons in Hq as [-> | Hq]; apply elem_of_cons in Hq' as [-> | Hq'].
  - reflexivity.
  - exfalso. apply Hx. rewrite E. apply (list_elem_of_fmap_2 id). exact Hq'.
  - exfalso. apply Hx. rewrite <- E. apply (list_elem_of_fmap_2 id). exact Hq.
  - auto.
Qed.

(** *** Ranking keeps the questions *)

Lemma scored_questions pd (l : list ConversationStarter) w :
  List.map fst
    (fst (mapM (fun question =>
                  let* s := calculateRelevanceScore question pd in
                  ret (question, s)) l w))
  = l.
Proof.
  revert w. induction l as [|q l IH]; intros w; simpl; [reflexivity|].
  unfold bind at 1. unfold bind at 1.
  destruct (calculateRelevanceScore q pd w) as [s w1]. unfold ret at 1.
  unfold bind at 1. specialize (IH w1).
  destruct (mapM _ l w1) as [ys w2]. simpl in *. rewrite IH. reflexivity.
Qed.

Lemma rankQuestionsByRelevance_Permutation l pd w :
  fst (rankQuestionsByRelevance l pd w) ≡ₚ l.
Proof.
  unfold rankQuestionsByRelevance, bind.
  pose proof (scored_questions pd l w) as Hs.
  destruct (mapM _ l w) as [scored w1]. simpl in *.
  rewrite sortDesc_Permutation, Hs. reflexivity.
Qed.

Lemma categoryPick_submseteq (avail : list ConversationStarter) k pd w :
  fst (match avail with
       | [] => ret []
       | _ :: _ =>
           let* relevantQuestions := rankQuestionsByRelevance avail pd in
           ret (slice0 k relevantQuestions)
       end w) ⊆+ avail.
Proof.
  destruct avail as [|q0 avail]; [reflexivity|].
  unfold bind. pose proof (rankQuestionsByRelevance_Permutation (q0 :: avail) pd w) as Hp.
  destruct (rankQuestionsByRelevance (q0 :: avail) pd w) as [ranked w1].
  simpl in *. rewrite <- Hp.
  apply sublist_submseteq, slice0_sublist.
Qed.

Lemma selectFromCategories_submseteq dist used pd w :
  NoDup (List.map fst dist) ->
  fst (selectFromCategories catalog dist used pd w)
  ⊆+ List.filter (fun q => unused used q && inCategories (List.map fst dist) q) catalog.
Proof.
  revert w. induction dist as [|[c k] rest IH]; intros w Hnd.
  - simpl. apply submseteq_nil_l.
  - simpl in Hnd. apply NoDup_cons in Hnd as [Hc Hnd].
    cbn [selectFromCategories]. unfold bind at 1.
    pose proof (categoryPick_submseteq
                  (List.filter (unused used) (getQuestionsByCategory catalog c))
                  k pd w) as Hsel.
    destruct (match List.filter (unused used) (getQuestionsByCategory catalog c) with
              | [] => ret []
              | _ :: _ => _
              end w) as [selected w1].
    unfold bind at 1. specialize (IH w1 Hnd).
    destruct (selectFromCategories catalog rest used pd w1) as [more w2].
    simpl in *.
    unfold getQuestionsByCategory in Hsel. rewrite filter_filter in Hsel.
    etransitivity; [apply submseteq_app; [exact Hsel | exact IH]|].
    rewrite filter_exclusive_app.
    + erewrite filter_ext; [reflexivity|]. intros q. simpl.
      unfold inCategories. simpl.
      destruct (unused used q), (String.eqb (category q) c); reflexivity.
    + intros q. simpl. destruct (unused used q); [|reflexivity]. simpl.
      destruct (String.eqb (category q) c) eqn:Ec; [|reflexivity].
      apply String.eqb_eq in Ec. unfold inCategories.
      destruct (existsb _ _) eqn:Ex; [|reflexivity]. exfalso.
      apply existsb_exists in Ex as (c' & Hin & Ec').
      apply String.eqb_eq in Ec'. apply Hc. rewrite <- Ec, Ec'.
      apply list_elem_of_In. exact Hin.
Qed.

Lemma distribution_categories count :
  List.map fst (calculateCategoryDistribution count) = categories.
Proof. reflexivity. Qed.

Lemma categories_NoDup : NoDup categories.
Proof. apply (bool_decide_unpack _). reflexivity. Qed.

(** *** The random backfill *)

Lemma pickIndex_lt r n : (0 < n)%nat -> (pickIndex r n < n)%nat.
Proof. intros H. unfold pickIndex. apply Nat.mod_upper_bound. lia. Qed.

Lemma drawRandom_submseteq n pool r : fst (drawRandom n pool r) ⊆+ pool.
Proof.
  revert pool r. induction n as [|n IH]; intros pool r; simpl.
  - apply submseteq_nil_l.
  - destruct pool as [|q0 pool]; [reflexivity|].
    unfold bind at 1. simpl.
    destruct ((q0 :: pool) !! _) as [q|] eqn:E; [|apply submseteq_nil_l].
    unfold bind.
    match goal with
    | |- context [drawRandom n ?p ?s] =>
        specialize (IH p s); destruct (drawRandom n p s) as [rest r']
    end.
    simpl in *. rewrite (delete_Permutation _ _ _ E).
    apply submseteq_skip. exact IH.
Qed.

Lemma drawRandom_all n pool r :
  (length pool <= n)%nat -> fst (drawRandom n pool r) ≡ₚ pool.
Proof.
  revert pool r. induction n as [|n IH]; intros pool r Hlen; simpl.
  - destruct pool; [reflexivity | simpl in Hlen; lia].
  - destruct pool as [|q0 pool]; [reflexivity|].
    unfold bind at 1. simpl.
    destruct ((q0 :: pool) !! _) as [q|] eqn:E.
    + unfold bind.
      assert (Hd : (length (delete (pickIndex (Random.stream r (Random.cursor r))
                                      (length (q0 :: pool))) (q0 :: pool)) <= n)%nat).
      { rewrite length_delete by eauto. simpl in *. lia. }
      match goal with
      | |- context [drawRandom n ?p ?s] =>
          specialize (IH p s Hd); destruct (drawRandom n p s) as [rest r']
      end.
      simpl in *. rewrite (delete_Permutation _ _ _ E).
      apply perm_skip. exact IH.
    + exfalso. apply lookup_ge_None in E.
      pose proof (pickIndex_lt (Random.stream r (Random.cursor r))
                    (length (q0 :: pool))) as Hlt.
      simpl in *. lia.
Qed.

(** *** The selection proper *)

Local Abbreviation unusedCatalog used := (List.filter (unused used) catalog).

Lemma categorySelection_unused used pd count w :
  fst (selectFromCategories catalog (calculateCategoryDistribution count) used pd w)
  ⊆+ unusedCatalog used.
Proof.
  etransitivity.
  - apply selectFromCategories_submseteq.
    rewrite distribution_categories. apply categories_NoDup.
  - apply sublist_submseteq, filter_and_sublist.
Qed.

Lemma backfill_pool_unused used ids q :
  q ∈ List.filter (unused (used ++ ids)) catalog ->
  q ∈ unusedCatalog used /\ id q ∉ ids.
Proof.
  rewrite !elem_of_filter, !unused_spec, elem_of_app. tauto.
Qed.

Lemma chooseQuestions_submseteq used pd count w :
  NoDup (List.map id catalog) ->
  fst (chooseQuestions catalog used pd count w) ⊆+ unusedCatalog used.
Proof.
  intros Hids. assert (Hcat : NoDup catalog) by (eapply NoDup_fmap_1; exact Hids).
  assert (Hu : NoDup (unusedCatalog used))
    by (eapply sublist_NoDup; [exact Hcat | apply filter_sublist]).
  unfold chooseQuestions, bind.
  pose proof (categorySelection_unused used pd count w) as Hsel.
  destruct (selectFromCategories catalog _ used pd w) as [sel w1]. simpl in Hsel.
  destruct (Z.of_nat (length sel) <? count); [|exact Hsel].
  unfold liftRandom, getRandomQuestions.
  match goal with
  | |- context [drawRandom ?n ?p ?s] =>
      pose proof (drawRandom_submseteq n p s) as Hfill;
      destruct (drawRandom n p s) as [fill r']
  end.
  simpl in *. apply NoDup_submseteq.
  - apply NoDup_app. split; [eapply submseteq_NoDup; eassumption|]. split.
    + intros q Hq Hq'. apply (elem_of_submseteq _ _ _ Hq') in Hfill.
      apply backfill_pool_unused in Hfill as [_ Hn]. apply Hn.
      apply (list_elem_of_fmap_2 id). exact Hq.
    + eapply submseteq_NoDup; [exact Hfill|].
      eapply sublist_NoDup; [exact Hcat | apply filter_sublist].
  - intros q Hq. apply elem_of_app in Hq as [Hq | Hq].
    + eapply elem_of_submseteq; eassumption.
    + apply (elem_of_submseteq _ _ _ Hq) in Hfill.
      apply backfill_pool_unused in Hfill. tauto.
Qed.

Lemma chooseQuestions_exhausts used pd count w :
  NoDup (List.map id catalog) ->
  Z.of_nat (length (unusedCatalog used)) < count ->
  fst (chooseQuestions catalog used pd count w) ≡ₚ unusedCatalog used.
Proof.
  intros Hids Hfew.
  assert (Hcat : NoDup catalog) by (eapply NoDup_fmap_1; exact Hids).
  assert (Hu : NoDup (unusedCatalog used))
    by (eapply sublist_NoDup; [exact Hcat | apply filter_sublist]).
  unfold chooseQuestions, bind.
  pose proof (categorySelection_unused used pd count w) as Hsel.
  destruct (selectFromCategories catalog _ used pd w) as [sel w1]. simpl in Hsel.
  pose proof (submseteq_length _ _ Hsel) as Hlen.
  destruct (Z.of_nat (length sel) <? count) eqn:Hlt;
    [|apply Z.ltb_ge in Hlt; lia].
  unfold liftRandom, getRandomQuestions.
  set (pool := List.filter (unused (used ++ List.map id sel)) catalog).
  assert (Hpool : sel ++ pool ≡ₚ unusedCatalog used).
  { apply NoDup_Permutation; [|exact Hu|].
    - apply NoDup_app. split; [eapply submseteq_NoDup; eassumption|]. split.
      + intros q Hq Hq'. apply backfill_pool_unused in Hq' as [_ Hn]. apply Hn.
        apply (list_elem_of_fmap_2 id). exact Hq.
      + eapply sublist_NoDup; [exact Hcat | apply filter_sublist].
    - intros q. rewrite elem_of_app. split.
      + intros [Hq | Hq].
        * eapply elem_of_submseteq; eassumption.
        * apply backfill_pool_unused in Hq. tauto.
      + intros Hq. destruct (decide (id q ∈ List.map id sel)) as [Hin | Hout].
        * left. apply list_elem_of_fmap in Hin as (q' & E & Hq').
          assert (q = q') as ->; [|exact Hq'].
          apply (same_id_same_question catalog); auto.
          -- apply elem_of_filter in Hq. tauto.
          -- apply (elem_of_submseteq _ _ _ Hq') in Hsel.
             apply elem_of_filter in Hsel. tauto.
        * right. unfold pool. apply elem_of_filter in Hq as [Hq Hun].
          apply elem_of_filter. split; [exact Hq|].
          apply unused_spec. apply unused_spec in Hun.
          rewrite elem_of_app. tauto. }
  assert (Hn : (length pool
                <= Z.to_nat (count - Z.of_nat (length sel)))%nat).
  { apply Permutation_length in Hpool. rewrite length_app in Hpool. lia. }
  pose proof (drawRandom_all _ pool (random w1) Hn) as Hfill.
  destruct (drawRandom _ pool (random w1)) as [fill r']. simpl in *.
  rewrite Hfill. exact Hpool.
Qed.

(** C1. When the ids of the catalog are unique, the questions selected by
    one call of [getDiverseQuestions] (those whose texts it returns,
    personalized, and whose ids it records) have pairwise distinct ids,
    none of which was in the used-id list of the session at the start of
    the call; and when fewer than [count] catalog questions are unused in
    the session, the call returns exactly the unused ones, fewer than
    [count].  The call is a total function of its inputs. *)
Theorem getDiverseQuestions_distinct_unused context count w :
  NoDup (List.map id catalog) ->
  let used :=
    usedQuestionsOf (sessionQuestions w) (default "default"%string (sessionId context)) in
  let selected := fst (selectDiverse catalog context count w) in
  let returned := fst (getDiverseQuestions catalog context count w) in
  List.map originalQuestion returned = List.map question selected
  /\ NoDup (List.map id selected)
  /\ (forall q, q ∈ selected -> q ∈ catalog /\ id q ∉ used)
  /\ (Z.of_nat (length (unusedCatalog used)) < count ->
      selected ≡ₚ unusedCatalog used
      /\ Z.of_nat (length returned) < count).
Proof.
  intros Hids used selected returned.
  assert (Hret : List.map originalQuestion returned = List.map question selected).
  { unfold returned. rewrite getDiverseQuestions_unfold.
    apply personalized_originals. }
  assert (Hsel : selected
                 = fst (chooseQuestions catalog used (profileData context) count w)).
  { unfold selected. rewrite selectDiverse_unfold. reflexivity. }
  pose proof (chooseQuestions_submseteq used (profileData context) count w Hids)
    as Hsub.
  rewrite <- Hsel in Hsub.
  split; [exact Hret|]. split; [|split].
  - eapply submseteq_NoDup; [|exact Hids].
    etransitivity; [apply (fmap_submseteq id); exact Hsub|].
    apply sublist_submseteq, (fmap_sublist id), filter_sublist.
  - intros q Hq. apply (elem_of_submseteq _ _ _ Hq) in Hsub.
    apply elem_of_filter in Hsub as [Hc Hu]. apply unused_spec in Hu. auto.
  - intros Hfew.
    pose proof (chooseQuestions_exhausts used (profileData context) count w
                  Hids Hfew) as Hall.
    rewrite <- Hsel in Hall. split; [exact Hall|].
    apply (f_equal length) in Hret. rewrite !length_map in Hret.
    rewrite Hret, (Permutation_length Hall). exact Hfew.
Qed.

(** C8. A call of [getDiverseQuestions] for session [A] replaces the entry
    of [A] in the session map by its former list followed by the ids of
    the selected questions, in order, and changes nothing else in the map:
    the entry of every other session is as before.  Besides, the call only
    advances the random source; and it reads no entry but that of [A]: in
    two states with the same random source and the same list for [A] it
    selects and returns the same. *)
Theorem getDiverseQuestions_session_frame context count w :
  let A := default "default"%string (sessionId context) in
  let used := usedQuestionsOf (sessionQuestions w) A in
  let selected := fst (selectDiverse catalog context count w) in
  let w' := snd (getDiverseQuestions catalog context count w) in
  sessionQuestions w' = <[A := used ++ List.map id selected]> (sessionQuestions w)
  /\ usedQuestionsOf (sessionQuestions w') A = used ++ List.map id selected
  /\ (forall B, B <> A -> sessionQuestions w' !! B = sessionQuestions w !! B)
  /\ Random.stream (random w') = Random.stream (random w)
  /\ (forall v,
        random v = random w -> usedQuestionsOf (sessionQuestions v) A = used ->
        fst (selectDiverse catalog context count v) = selected
        /\ fst (getDiverseQuestions catalog context count v)
           = fst (getDiverseQuestions catalog context count w)).
Proof.
  intros A used selected w'.
  set (pd := profileData context).
  set (personalize := fun question => personalizeQuestion question pd).
  assert (Hw' : drawnFrom (snd (selectDiverse catalog context count w)) w').
  { unfold w'. rewrite getDiverseQuestions_unfold.
    apply onlyDraws_mapM. intros q. apply onlyDraws_personalizeQuestion. }
  destruct Hw' as (Hstream & _ & Hstore).
  pose proof (selectDiverse_unfold catalog context count w) as Hsd.
  cbv zeta in Hsd. fold A in Hsd. fold used in Hsd. fold pd in Hsd.
  assert (Hsel : selected = fst (chooseQuestions catalog used pd count w)).
  { unfold selected. rewrite Hsd. reflexivity. }
  assert (Hmap : sessionQuestions w'
                 = <[A := used ++ List.map id selected]> (sessionQuestions w)).
  { rewrite Hstore, Hsd, Hsel. reflexivity. }
  split; [exact Hmap|]. split; [|split; [|split]].
  - unfold usedQuestionsOf at 1. rewrite Hmap, lookup_insert_eq. reflexivity.
  - intros B HB. rewrite Hmap. apply lookup_insert_ne. congruence.
  - rewrite Hstream, Hsd. simpl.
    apply (onlyDraws_chooseQuestions catalog used pd count w).
  - intros v Hrand Hused.
    pose proof (selectDiverse_unfold catalog context count v) as Hv.
    cbv zeta in Hv. fold A in Hv. fold pd in Hv. rewrite Hused in Hv.
    destruct (readsRandomOnly_chooseQuestions catalog used pd count v w Hrand)
      as [Hfst Hsnd].
    split; [rewrite Hv, Hsel; exact Hfst|].
    rewrite !getDiverseQuestions_unfold. fold pd. fold personalize.
    rewrite Hv, Hsd. simpl. rewrite Hfst.
    apply (readsRandomOnly_mapM personalize).
    + intros q. apply readsRandomOnly_personalizeQuestion.
    + simpl. exact Hsnd.
Qed.

End SelectorFacts.

(** ** The relevance scorer *)

Section ScorerFacts.

Import JsString Js StateMonad QuestionBank ConversationService Invariants SpecWords.

Lemma bonus_nonneg (c : bool) (p : Q) : (0 <= p)%Q -> (0 <= bonus c p)%Q.
Proof. intros H. unfold bonus. destruct c; [exact H | apply Qle_refl]. Qed.

Lemma Qadd_nonneg (a b : Q) : (0 <= a)%Q -> (0 <= b)%Q -> (0 <= a + b)%Q.
Proof.
  intros Ha Hb. rewrite <- (Qplus_0_l 0). apply Qplus_le_compat; assumption.
Qed.

Lemma bonusSum_nonneg early q pd : (0 <= bonusSum early q pd)%Q.
Proof.
  unfold bonusSum.
  repeat apply Qadd_nonneg; apply bonus_nonneg; discriminate.
Qed.

Lemma includesCI_empty (k : string) : includesCI k EmptyString = negb (truthy k).
Proof. destruct k; reflexivity. Qed.

(** The score is the deterministic part plus twice the next random value. *)
Lemma calculateRelevanceScore_jitter q pd w :
  exists points,
    fst (calculateRelevanceScore q pd w)
    = (points + Random.stream (random w) (Random.cursor (random w)) * 2)%Q
    /\ (points == firedBonuses q pd)%Q.
Proof.
  unfold calculateRelevanceScore, bind, Math_random, ret.
  cbn [Random.next fst snd].
  eexists. split; [reflexivity|].
  unfold firedBonuses, bonusSum, titleContains, industryContains,
    someSkillMatches, experienceLength, optIncludesCI.
  destruct (pd_title pd) as [[|c t]|], (pd_industry pd) as [[|c' i]|],
    (pd_skills pd) as [[|s0 sk]|], (pd_experience pd) as [[|e0 ex]|];
    rewrite ?includesCI_empty;
    cbn [truthy negb default from_option Datatypes.id existsb length
         Nat.ltb Nat.leb andb orb bonus];
    rewrite ?(andb_comm (hasTag _ q)); ring.
Qed.

Lemma twice_unit (r : Q) :
  (0 <= r)%Q -> (r < 1)%Q -> (0 <= r * 2)%Q /\ (r * 2 < 2)%Q.
Proof.
  destruct r as [n d]. unfold Qle, Qlt, Qmult. simpl. intros H0 H1.
  rewrite Pos2Z.inj_mul. lia.
Qed.

Lemma firedBonuses_listedBonuses q pd :
  pd_experience pd <> Some [] -> firedBonuses q pd = listedBonuses q pd.
Proof.
  intros Hne. unfold firedBonuses, listedBonuses, bonusSum, experienceLength.
  destruct (pd_experience pd) as [[|e ex]|]; [congruence | reflexivity | reflexivity].
Qed.

(** C6, amended. For every question and profile, the relevance score is
    the sum of the listed bonuses that fire plus a jitter in [[0, 2)], and
    so is not negative, where the early-career bonus fires on an
    experience array of length 1 or 2: an empty array, like an absent one,
    earns no experience bonus.  Titles, industries and skills are matched
    regardless of case.  For a profile whose experience array is not
    empty the sum is the one of the listed rules as they are worded. *)
Theorem calculateRelevanceScore_bonuses_jitter q pd w :
  Random.unitInterval (random w) ->
  (exists jitter,
     (0 <= jitter)%Q /\ (jitter < 2)%Q
     /\ (fst (calculateRelevanceScore q pd w) == firedBonuses q pd + jitter)%Q)
  /\ (0 <= fst (calculateRelevanceScore q pd w))%Q
  /\ (pd_experience pd <> Some [] -> firedBonuses q pd = listedBonuses q pd).
Proof.
  intros Hunit.
  destruct (calculateRelevanceScore_jitter q pd w) as (points & E & Hp).
  destruct (Hunit (Random.cursor (random w))) as [H0 H1].
  destruct (twice_unit _ H0 H1) as [Hj0 Hj2].
  split; [|split].
  - eexists. split; [exact Hj0|]. split; [exact Hj2|].
    rewrite E, Hp. reflexivity.
  - rewrite E, Hp. apply Qadd_nonneg; [apply bonusSum_nonneg | exact Hj0].
  - apply firedBonuses_listedBonuses.
Qed.

(** *** Scoring again at personalization time *)

Lemma personalizeQuestion_score q pd w :
  exists w',
    drawnFrom w w'
    /\ relevanceScore (fst (personalizeQuestion q pd w))
       = fst (calculateRelevanceScore q pd w').
Proof.
  unfold personalizeQuestion, bind.
  destruct (pd_name pd) as [n|]; [destruct (truthy n)|]; unfold bind, ret.
  - pose proof (onlyDraws_Math_random w) as Hd.
    destruct (Math_random w) as [r w0]. exists w0. split; [exact Hd|].
    destruct (calculateRelevanceScore q pd w0). reflexivity.
  - exists w. split; [apply drawnFrom_refl|].
    destruct (calculateRelevanceScore q pd w). reflexivity.
  - exists w. split; [apply drawnFrom_refl|].
    destruct (calculateRelevanceScore q pd w). reflexivity.
Qed.

Lemma dice_unitInterval : Random.unitInterval Samples.dice.
Proof.
  intros n. unfold Samples.dice, Random.replay. simpl.
  do 8 (destruct n as [|n]; [split; [discriminate | reflexivity]|]).
  destruct n; split; try discriminate; reflexivity.
Qed.

Lemma bank_ids_NoDup : NoDup (List.map id Samples.bank).
Proof. apply (bool_decide_unpack _). reflexivity. Qed.


End ScorerFacts.

Section ScorerSamples.

Import StateMonad QuestionBank ConversationService SpecWords Samples.

(** A question tagged [early_career] scored for a profile whose experience
    array is empty gets no bonus: its score is below the 2 points that the
    rule "experience length < 3" would give. *)
Lemma empty_experience_earns_no_bonus :
  let q := starter 2 "career_background" ["early_career"]
             "What was your first role like?" in
  let pd := experienced (Some []) in
  ~ exists jitter,
      (0 <= jitter)%Q /\ (jitter < 2)%Q
      /\ (fst (calculateRelevanceScore q pd world0) == listedBonuses q pd + jitter)%Q.
Proof.
  intros q pd (jitter & H0 & _ & E).
  assert (Es : (fst (calculateRelevanceScore q pd world0) == 1.8)%Q) by reflexivity.
  assert (El : (listedBonuses q pd == 2)%Q) by reflexivity.
  rewrite Es, El in E. destruct jitter as [n d].
  unfold Qeq, Qle, Qplus in *. simpl in *. lia.
Qed.

Lemma calculateRelevanceScore_bonuses_jitter_sample :
  let q := starter 2 "career_background" ["early_career"]
             "What was your first role like?" in
  let pd := experienced (Some [lasting "9 mos"]) in
  Random.unitInterval (random world0)
  /\ (firedBonuses q pd == 2)%Q
  /\ (0 <= fst (calculateRelevanceScore q pd world0))%Q.
Proof.
  intros q pd. split; [exact dice_unitInterval|]. split; [reflexivity|].
  apply (calculateRelevanceScore_bonuses_jitter q pd world0 dice_unitInterval).
Defined.

End ScorerSamples.

(** *** The selector on the sample bank *)

Section SelectorSamples.

Import StateMonad QuestionBank ConversationService Samples.

Lemma getDiverseQuestions_distinct_unused_sample :
  let selected := fst (selectDiverse bank (contextOf None) 10 world0) in
  NoDup (List.map id bank)
  /\ usedQuestionsOf (sessionQuestions world0) "default" = [3]
  /\ NoDup (List.map id selected)
  /\ selected ≡ₚ List.filter (unused [3]) bank.
Proof.
  intros selected.
  pose proof (getDiverseQuestions_distinct_unused bank (contextOf None) 10 world0
                bank_ids_NoDup) as (_ & Hnd & _ & Hall).
  split; [exact bank_ids_NoDup|]. split; [reflexivity|]. split; [exact Hnd|].
  apply Hall. reflexivity.
Defined.

Lemma getDiverseQuestions_session_frame_sample :
  let selected := fst (selectDiverse bank (contextOf None) 2 world0) in
  let w' := snd (getDiverseQuestions bank (contextOf None) 2 world0) in
  usedQuestionsOf (sessionQuestions w') "default" = [3] ++ List.map id selected
  /\ sessionQuestions w' !! "B"%string = Some [1; 2].
Proof.
  intros selected w'.
  pose proof (getDiverseQuestions_session_frame bank (contextOf None) 2 world0)
    as (_ & Hown & Hother & _).
  split; [exact Hown|].
  change (Some [1; 2]) with (sessionQuestions world0 !! "B"%string).
  apply Hother. discriminate.
Defined.

End SelectorSamples.

(** ** The fallback of the intelligent service *)

Section FallbackFacts.

Import StateMonad QuestionBank IntelligentQuestionService SpecWords.

Variable conversationStarters : list ConversationStarter.
Variable generateContent : Result string.
Variable JSON_parse : string -> Result Reply.
Variable sortRandomly :
  list ConversationStarter -> State Random.Source (list ConversationStarter).
Variable Number_toString : Q -> string.

Local Abbreviation getIntelligentQuestions :=
  (getIntelligentQuestions conversationStarters generateContent JSON_parse
     sortRandomly Number_toString).
Local Abbreviation fallbackQuestionSelection :=
  (fallbackQuestionSelection conversationStarters sortRandomly Number_toString).

(** The loop throws when it meets [null]. *)
Lemma collectQuestions_null candidates questions entries :
  NullEntry ∈ entries ->
  exists error, collectQuestions candidates questions entries = Throw error.
Proof.
  revert questions.
  induction entries as [|e entries IH]; intros questions H.
  - apply elem_of_nil in H. contradiction.
  - destruct e as [| |q]; cbn [collectQuestions].
    + eexists. reflexivity.
    + apply IH. apply elem_of_cons in H as [H|H]; [discriminate | exact H].
    + apply IH. apply elem_of_cons in H as [H|H]; [discriminate | exact H].
Qed.

(** C3, amended. When the call to the completion service throws
    (transport error, no API key), or its output cannot be read: the text
    of the reply has no braced block, or [JSON.parse] throws on the block,
    or the [questions] of the parsed object are not iterable or have
    [null] among them, [getIntelligentQuestions] returns what
    [fallbackQuestionSelection] returns for the same profile, count and
    random source.  A missing field is not such a failure: when the block
    parses to an object without a [questions] field, the result is the
    empty list and the random source is left untouched. *)
Theorem getIntelligentQuestions_fallback profile count r :
  (serviceThrows generateContent JSON_parse ->
   getIntelligentQuestions profile count r
   = fallbackQuestionSelection profile count r)
  /\ (forall response block,
        generateContent = Ok response ->
        matchBraces response = Some block ->
        JSON_parse block = Ok Missing ->
        getIntelligentQuestions profile count r = ([], r)).
Proof.
  unfold IntelligentQuestionService.getIntelligentQuestions,
    selectAndCustomizeWithAI, parseAIResponse, serviceThrows.
  split.
  - destruct generateContent as [response|e]; [|reflexivity].
    destruct (matchBraces response) as [block|]; [|reflexivity].
    destruct (JSON_parse block) as [reply|e]; [|reflexivity].
    destruct reply as [| | |entries]; cbn [unreadable]; try contradiction.
    + reflexivity.
    + intros H.
      destruct (collectQuestions_null
                  (preFilterQuestions conversationStarters profile
                     (analyzeProfile profile)) [] entries H) as [error ->].
      reflexivity.
  - intros response block -> -> ->. reflexivity.
Qed.

End FallbackFacts.

Section FallbackSamples.

Import StateMonad QuestionBank IntelligentQuestionService SpecWords Samples.

(** A reply whose braced block is the empty object has no [questions]
    field: the service returns the empty list, not the fallback
    selection. *)
Lemma missing_questions_field_no_fallback :
  let reply := Ok "Here you go: {}"%string in
  serviceFails reply parseEmptyObject
  /\ fst (getIntelligentQuestions bank reply parseEmptyObject keepOrder noDigits
            engineer 1 dice) = []
  /\ fst (getIntelligentQuestions bank reply parseEmptyObject keepOrder noDigits
            engineer 1 dice)
     <> fst (fallbackQuestionSelection bank keepOrder noDigits engineer 1 dice).
Proof.
  intros reply. split.
  - right. exists "Here you go: {}"%string, "{}"%string, Missing.
    repeat split; reflexivity.
  - split; [reflexivity|]. vm_compute. discriminate.
Qed.

(** The fallback selection is returned for a reply without a braced
    block, and for a reply whose [questions] hold [null]. *)
Lemma getIntelligentQuestions_fallback_sample :
  let reply := Ok "I cannot help with that."%string in
  let nullReply := Ok ("Here you go: " +:+ nullBlock)%string in
  (serviceThrows reply parseSamples
   /\ getIntelligentQuestions bank reply parseSamples keepOrder noDigits
        engineer 1 dice
      = fallbackQuestionSelection bank keepOrder noDigits engineer 1 dice)
  /\ (serviceThrows nullReply parseSamples
      /\ getIntelligentQuestions bank nullReply parseSamples keepOrder noDigits
           engineer 1 dice
         = fallbackQuestionSelection bank keepOrder noDigits engineer 1 dice).
Proof.
  intros reply nullReply.
  assert (H : serviceThrows reply parseSamples) by exact I.
  assert (Hnull : serviceThrows nullReply parseSamples)
    by (cbn; apply elem_of_cons; left; reflexivity).
  split; (split; [assumption|]).
  - apply (getIntelligentQuestions_fallback bank reply parseSamples keepOrder
             noDigits engineer 1 dice). exact H.
  - apply (getIntelligentQuestions_fallback bank nullReply parseSamples keepOrder
             noDigits engineer 1 dice). exact Hnull.
Defined.

End FallbackSamples.

(** * Further properties of the selector *)

Section SortFacts.

Import SpecWords.

Context {A : Type} (key : A -> Q).

Lemma sortedDescending_cons (x : Q) (l : list Q) :
  sortedDescending (x :: l)
  <-> (match l with [] => True | y :: _ => (y <= x)%Q end) /\ sortedDescending l.
Proof. destruct l as [|y l]; simpl; tauto. Qed.

Lemma sortedDescending_head (x : Q) (l : list Q) :
  sortedDescending (x :: l) -> forall y, y ∈ l -> (y <= x)%Q.
Proof.
  revert x. induction l as [|z l IH]; intros x Hs y Hy; [inversion Hy|].
  destruct Hs as [Hzx Hs]. apply elem_of_cons in Hy as [-> | Hy]; [exact Hzx|].
  eapply Qle_trans; [apply (IH z Hs y Hy) | exact Hzx].
Qed.

Lemma sortedDescending_app_r (l1 l2 : list Q) :
  sortedDescending (l1 ++ l2) -> sortedDescending l2.
Proof.
  induction l1 as [|x l1 IH]; [auto|]. simpl app.
  intros Hs. apply sortedDescending_cons in Hs as [_ Hs]. auto.
Qed.

Lemma insertDesc_sorted x l :
  sortedDescending (List.map key l) ->
  sortedDescending (List.map key (Js.insertDesc key x l)).
Proof.
  induction l as [|y l IH]; intros Hs; [exact I|].
  simpl. destruct (Qle_bool (key y) (key x)) eqn:E.
  - apply Qle_bool_iff in E. simpl. split; [exact E | exact Hs].
  - assert (Hxy : (key x <= key y)%Q).
    { apply Qlt_le_weak, Qnot_le_lt. intros Hle.
      apply Qle_bool_iff in Hle. congruence. }
    simpl List.map in *. apply sortedDescending_cons in Hs as [Hh Hs].
    specialize (IH Hs). apply sortedDescending_cons. split; [|exact IH].
    destruct l as [|z l]; simpl; [exact Hxy|].
    destruct (Qle_bool (key z) (key x)); simpl; [exact Hxy | exact Hh].
Qed.

Lemma sortDesc_sorted l : sortedDescending (List.map key (Js.sortDesc key l)).
Proof.
  unfold Js.sortDesc. induction l as [|x l IH]; simpl; [exact I|].
  apply insertDesc_sorted. exact IH.
Qed.

End SortFacts.

Section SelectorExtras.

Import Js StateMonad QuestionBank ConversationService Invariants SpecWords.

Variable catalog : list ConversationStarter.

Local Abbreviation unusedCatalog used := (List.filter (unused used) catalog).

(** *** The category distribution *)

Lemma distribution_shape (count : Z) :
  calculateCategoryDistribution count
  = [("career_background"%string,
       count / 3 + (if 0 <? Z.rem count 3 then 1 else 0));
     ("soft_skills"%string,
       count / 3 + (if 1 <? Z.rem count 3 then 1 else 0));
     ("personality_motivation"%string,
       count / 3 + (if 2 <? Z.rem count 3 then 1 else 0))].
Proof. reflexivity. Qed.

(** X1. For a count that is not negative, the three categories get shares
    that add up to the count, that differ by at most one and of which the
    earlier is never the smaller; the last share is the count divided by
    three, rounded down.  For a negative count every share is the count
    divided by three, rounded down. *)
Theorem calculateCategoryDistribution_shares (count : Z) :
  exists a b c,
    calculateCategoryDistribution count
    = [("career_background"%string, a); ("soft_skills"%string, b);
       ("personality_motivation"%string, c)]
    /\ c = count / 3
    /\ (0 <= count -> a + b + c = count /\ c <= b /\ b <= a /\ a <= c + 1)
    /\ (count < 0 -> a = c /\ b = c).
Proof.
  rewrite distribution_shape. eexists _, _, _.
  split; [reflexivity|]. split.
  - pose proof (Z.rem_bound_abs count 3 ltac:(lia)).
    destruct (2 <? Z.rem count 3) eqn:E; [apply Z.ltb_lt in E; lia | lia].
  - split.
    + intros Hc. rewrite Z.rem_mod_nonneg by lia.
      pose proof (Z.mod_pos_bound count 3 ltac:(lia)) as Hm.
      pose proof (Z.div_mod count 3 ltac:(lia)) as Hd.
      destruct (0 <? count mod 3) eqn:E0, (1 <? count mod 3) eqn:E1,
        (2 <? count mod 3) eqn:E2;
        rewrite ?Z.ltb_lt, ?Z.ltb_ge in *; lia.
    + intros Hc. pose proof (Z.rem_nonpos count 3 ltac:(lia) ltac:(lia)) as Hr.
      destruct (0 <? Z.rem count 3) eqn:E0, (1 <? Z.rem count 3) eqn:E1,
        (2 <? Z.rem count 3) eqn:E2;
        rewrite ?Z.ltb_lt, ?Z.ltb_ge in *; lia.
Qed.

(** *** How many questions are returned *)

Lemma slice0_length_le {A} (k : Z) (l : list A) :
  0 <= k -> Z.of_nat (length (slice0 k l)) <= k.
Proof.
  intros Hk. unfold slice0. destruct (k <? 0) eqn:E; [apply Z.ltb_lt in E; lia|].
  rewrite length_take. lia.
Qed.

Lemma categoryPick_length avail k pd w :
  0 <= k ->
  Z.of_nat (length (fst (match avail with
                         | [] => ret []
                         | _ :: _ =>
                             let* relevantQuestions :=
                               rankQuestionsByRelevance avail pd in
                             ret (slice0 k relevantQuestions)
                         end w))) <= k.
Proof.
  intros Hk. destruct avail as [|q0 avail]; [simpl; lia|].
  unfold bind. destruct (rankQuestionsByRelevance (q0 :: avail) pd w) as [r w1].
  simpl. apply slice0_length_le. exact Hk.
Qed.

Lemma selectFromCategories_length dist used pd w :
  Forall (fun ck => 0 <= snd ck) dist ->
  Z.of_nat (length (fst (selectFromCategories catalog dist used pd w)))
  <= foldr Z.add 0 (List.map snd dist).
Proof.
  revert w. induction dist as [|[c k] rest IH]; intros w Hpos; [simpl; lia|].
  apply Forall_cons in Hpos as [Hk Hpos]. simpl in Hk.
  cbn [selectFromCategories]. unfold bind at 1.
  pose proof (categoryPick_length
                (List.filter (unused used) (getQuestionsByCategory catalog c))
                k pd w Hk) as Hsel.
  destruct (match List.filter (unused used) (getQuestionsByCategory catalog c) with
            | [] => ret []
            | _ :: _ => _
            end w) as [selected w1].
  unfold bind at 1. specialize (IH w1 Hpos).
  destruct (selectFromCategories catalog rest used pd w1) as [more w2].
  simpl in *. rewrite length_app. lia.
Qed.

Lemma categorySelection_length used pd count w :
  0 <= count ->
  Z.of_nat (length (fst (selectFromCategories catalog
                           (calculateCategoryDistribution count) used pd w)))
  <= count.
Proof.
  intros Hc. etransitivity.
  - apply selectFromCategories_length. rewrite distribution_shape.
    pose proof (Z.div_pos count 3 Hc ltac:(lia)).
    repeat constructor; simpl;
      match goal with |- context [if ?b then _ else _] => destruct b end; lia.
  - rewrite distribution_shape. simpl.
    rewrite Z.rem_mod_nonneg by lia.
    pose proof (Z.mod_pos_bound count 3 ltac:(lia)) as Hm.
    pose proof (Z.div_mod count 3 ltac:(lia)) as Hd.
    destruct (0 <? count mod 3) eqn:E0, (1 <? count mod 3) eqn:E1,
      (2 <? count mod 3) eqn:E2;
      rewrite ?Z.ltb_lt, ?Z.ltb_ge in *; lia.
Qed.

Lemma drawRandom_length n pool r :
  length (fst (drawRandom n pool r)) = Nat.min n (length pool).
Proof.
  revert pool r. induction n as [|n IH]; intros pool r; [reflexivity|].
  simpl. destruct pool as [|q0 pool]; [reflexivity|].
  unfold bind at 1. simpl.
  destruct ((q0 :: pool) !! _) as [q|] eqn:E.
  - unfold bind.
    match goal with
    | |- context [drawRandom n ?p ?s] =>
        specialize (IH p s); destruct (drawRandom n p s) as [rest r']
    end.
    simpl in *. rewrite IH, length_delete by eauto. simpl. lia.
  - exfalso. apply lookup_ge_None in E.
    pose proof (pickIndex_lt (Random.stream r (Random.cursor r))
                  (length (q0 :: pool))) as Hlt.
    simpl in *. lia.
Qed.

(** The questions that the backfill may draw are the unused ones that the
    categories did not give. *)
Lemma backfill_pool_Permutation used sel :
  NoDup (List.map id catalog) ->
  sel ⊆+ unusedCatalog used ->
  sel ++ List.filter (unused (used ++ List.map id sel)) catalog
  ≡ₚ unusedCatalog used.
Proof.
  intros Hids Hsel.
  assert (Hcat : NoDup catalog) by (eapply NoDup_fmap_1; exact Hids).
  assert (Hu : NoDup (unusedCatalog used))
    by (eapply sublist_NoDup; [exact Hcat | apply filter_sublist]).
  apply NoDup_Permutation; [|exact Hu|].
  - apply NoDup_app. split; [eapply submseteq_NoDup; eassumption|]. split.
    + intros q Hq Hq'. apply backfill_pool_unused in Hq' as [_ Hn]. apply Hn.
      apply (list_elem_of_fmap_2 id). exact Hq.
    + eapply sublist_NoDup; [exact Hcat | apply filter_sublist].
  - intros q. rewrite elem_of_app. split.
    + intros [Hq | Hq].
      * eapply elem_of_submseteq; eassumption.
      * apply backfill_pool_unused in Hq. tauto.
    + intros Hq. destruct (decide (id q ∈ List.map id sel)) as [Hin | Hout].
      * left. apply list_elem_of_fmap in Hin as (q' & E & Hq').
        assert (q = q') as ->; [|exact Hq'].
        apply (same_id_same_question catalog); auto.
        -- apply elem_of_filter in Hq. tauto.
        -- apply (elem_of_submseteq _ _ _ Hq') in Hsel.
           apply elem_of_filter in Hsel. tauto.
      * right. apply elem_of_filter in Hq as [Hq Hun].
        apply elem_of_filter. split; [exact Hq|].
        apply unused_spec. apply unused_spec in Hun.
        rewrite elem_of_app. tauto.
Qed.

Lemma chooseQuestions_length used pd count w :
  0 <= count ->
  Z.of_nat (length (fst (chooseQuestions catalog used pd count w))) <= count
  /\ (NoDup (List.map id catalog) ->
      count <= Z.of_nat (length (unusedCatalog used)) ->
      Z.of_nat (length (fst (chooseQuestions catalog used pd count w))) = count).
Proof.
  intros Hc. unfold chooseQuestions, bind.
  pose proof (categorySelection_length used pd count w Hc) as Hlen.
  pose proof (categorySelection_unused catalog used pd count w) as Hsel.
  destruct (selectFromCategories catalog _ used pd w) as [sel w1]. simpl in Hlen, Hsel.
  destruct (Z.of_nat (length sel) <? count) eqn:Hlt.
  - apply Z.ltb_lt in Hlt. unfold liftRandom, getRandomQuestions.
    match goal with
    | |- context [drawRandom ?n ?p ?s] =>
        pose proof (drawRandom_length n p s) as Hfill;
        destruct (drawRandom n p s) as [fill r']
    end.
    simpl in *. rewrite length_app, Hfill. split; [lia|].
    intros Hids Hmany.
    pose proof (backfill_pool_Permutation used sel Hids Hsel) as Hp.
    apply Permutation_length in Hp. rewrite length_app in Hp. lia.
  - apply Z.ltb_ge in Hlt. simpl. split; lia.
Qed.

Lemma getDiverseQuestions_selected_length context count w :
  length (fst (getDiverseQuestions catalog context count w))
  = length (fst (selectDiverse catalog context count w)).
Proof.
  rewrite getDiverseQuestions_unfold.
  pose proof (personalized_originals (profileData context)
                (fst (selectDiverse catalog context count w))
                (snd (selectDiverse catalog context count w))) as H.
  apply (f_equal length) in H. rewrite !length_map in H. exact H.
Qed.

(** X2. For a count that is not negative, [getDiverseQuestions] returns at
    most [count] questions; and when the ids of the catalog are unique and
    at least [count] of its questions are unused in the session, it
    returns exactly [count]. *)
Theorem getDiverseQuestions_returns_count context count w :
  0 <= count ->
  let used :=
    usedQuestionsOf (sessionQuestions w) (default "default"%string (sessionId context)) in
  let returned := fst (getDiverseQuestions catalog context count w) in
  Z.of_nat (length returned) <= count
  /\ (NoDup (List.map id catalog) ->
      count <= Z.of_nat (length (unusedCatalog used)) ->
      Z.of_nat (length returned) = count).
Proof.
  intros Hc used returned. unfold returned.
  rewrite getDiverseQuestions_selected_length, selectDiverse_unfold.
  cbn [fst]. apply chooseQuestions_length. exact Hc.
Qed.

(** *** Successive calls *)

Lemma getDiverseQuestions_store context count w :
  let A := default "default"%string (sessionId context) in
  sessionQuestions (snd (getDiverseQuestions catalog context count w))
  = <[A := usedQuestionsOf (sessionQuestions w) A
           ++ List.map id (fst (selectDiverse catalog context count w))]>
      (sessionQuestions w)
  /\ Random.stream (random (snd (getDiverseQuestions catalog context count w)))
     = Random.stream (random w).
Proof.
  intros A.
  assert (Hd : drawnFrom (snd (selectDiverse catalog context count w))
                 (snd (getDiverseQuestions catalog context count w))).
  { rewrite getDiverseQuestions_unfold.
    apply onlyDraws_mapM. intros q. apply onlyDraws_personalizeQuestion. }
  destruct Hd as (Hstream & _ & Hstore). rewrite Hstore, Hstream.
  rewrite selectDiverse_unfold. cbn [fst snd sessionQuestions random]. fold A.
  split; [reflexivity|].
  apply (onlyDraws_chooseQuestions catalog _ (profileData context) count w).
Qed.

Lemma selectDiverse_unused context count w :
  NoDup (List.map id catalog) ->
  fst (selectDiverse catalog context count w)
  ⊆+ unusedCatalog (usedQuestionsOf (sessionQuestions w)
                      (default "default"%string (sessionId context))).
Proof.
  intros Hids. rewrite selectDiverse_unfold. cbn [fst].
  apply chooseQuestions_submseteq. exact Hids.
Qed.

(** X3. Two successive calls of [getDiverseQuestions] for the same session
    never select the same question twice, whatever the counts and the
    profiles of the two calls: no id selected by the second call is an id
    selected by the first. *)
Theorem successive_selections_disjoint context1 context2 count1 count2 w :
  NoDup (List.map id catalog) ->
  default "default"%string (sessionId context2)
  = default "default"%string (sessionId context1) ->
  let first := fst (selectDiverse catalog context1 count1 w) in
  let w1 := snd (getDiverseQuestions catalog context1 count1 w) in
  let second := fst (selectDiverse catalog context2 count2 w1) in
  forall q1 q2, q1 ∈ first -> q2 ∈ second -> id q1 <> id q2.
Proof.
  intros Hids Hsame first w1 second q1 q2 H1 H2 E.
  pose proof (selectDiverse_unused context2 count2 w1 Hids) as Hsub.
  fold second in Hsub. apply (elem_of_submseteq _ _ _ H2) in Hsub.
  apply elem_of_filter in Hsub as [_ Hun]. apply unused_spec in Hun.
  apply Hun. rewrite Hsame. unfold w1, usedQuestionsOf.
  destruct (getDiverseQuestions_store context1 count1 w) as [-> _].
  rewrite lookup_insert_eq. simpl. apply elem_of_app. right.
  rewrite <- E. apply (list_elem_of_fmap_2 id). exact H1.
Qed.

(** X4. [clearSession] removes the entry of its session and nothing else:
    the session has no used ids afterwards, every other session keeps its
    list and the random source is untouched.  A selection made after it
    forgets what the session had seen: it selects what a session that
    never asked would get from the same random source. *)
Theorem clearSession_forgets sid w :
  let w' := snd (clearSession sid w) in
  sessionQuestions w' !! sid = None
  /\ usedQuestionsOf (sessionQuestions w') sid = []
  /\ (forall B, B <> sid -> sessionQuestions w' !! B = sessionQuestions w !! B)
  /\ random w' = random w
  /\ (forall context count v,
        default "default"%string (sessionId context) = sid ->
        random v = random w -> sessionQuestions v !! sid = None ->
        fst (getDiverseQuestions catalog context count w')
        = fst (getDiverseQuestions catalog context count v)).
Proof.
  intros w'. unfold w', clearSession. cbn [snd sessionQuestions random].
  assert (Hnone : delete sid (sessionQuestions w) !! sid = None)
    by apply lookup_delete_eq.
  split; [exact Hnone|]. split; [unfold usedQuestionsOf; rewrite Hnone; reflexivity|].
  split; [intros B HB; apply lookup_delete_ne; congruence|].
  split; [reflexivity|].
  intros context count v Hsid Hrand Hv.
  set (u := {| random := random w;
               sessionQuestions := delete sid (sessionQuestions w) |}).
  set (pd := profileData context).
  set (personalize := fun question => personalizeQuestion question pd).
  rewrite !getDiverseQuestions_unfold. fold pd. fold personalize.
  rewrite !selectDiverse_unfold. rewrite Hsid. fold pd.
  assert (Hu : usedQuestionsOf (sessionQuestions u) sid = [])
    by (unfold usedQuestionsOf; simpl; rewrite Hnone; reflexivity).
  assert (Hv' : usedQuestionsOf (sessionQuestions v) sid = [])
    by (unfold usedQuestionsOf; rewrite Hv; reflexivity).
  rewrite Hu, Hv'. cbn [fst snd].
  destruct (readsRandomOnly_chooseQuestions catalog [] pd count u v
              ltac:(simpl; congruence)) as [Hfst Hsnd].
  rewrite Hfst.
  apply (readsRandomOnly_mapM personalize).
  - intros q. apply readsRandomOnly_personalizeQuestion.
  - simpl. exact Hsnd.
Qed.

End SelectorExtras.

Section ScorerExtras.

Import JsString Js StateMonad QuestionBank ConversationService Invariants SpecWords.

Lemma bonus_le (c : bool) (p : Q) : (0 <= p)%Q -> (bonus c p <= p)%Q.
Proof. intros H. unfold bonus. destruct c; [apply Qle_refl | exact H]. Qed.

Lemma firedBonuses_le q pd : (firedBonuses q pd <= 17)%Q.
Proof.
  unfold firedBonuses, bonusSum.
  set (t1 := titleContains "lead" pd && hasTag "leadership" q).
  set (t2 := titleContains "manager" pd && hasTag "management" q).
  set (t3 := (titleContains "engineer" pd || titleContains "developer" pd)
             && hasTag "technical" q).
  set (i1 := industryContains "tech" pd && hasTag "technology" q).
  set (i2 := industryContains "finance" pd && hasTag "finance" q).
  set (s1 := someSkillMatches pd && (hasTag "skills" q || hasTag "technical" q)).
  assert (He : (bonus (experienceLength (fun n => 5 <? n)%nat pd
                       && hasTag "senior" q) 2
                + bonus (experienceLength (fun n => (0 <? n) && (n <? 3))%nat pd
                         && hasTag "early_career" q) 2 <= 2)%Q).
  { unfold experienceLength. destruct (pd_experience pd) as [ex|]; [|discriminate].
    destruct (5 <? length ex)%nat eqn:E5.
    - apply Nat.ltb_lt in E5.
      assert ((length ex <? 3)%nat = false) as -> by (apply Nat.ltb_ge; lia).
      rewrite andb_false_r. simpl.
      destruct (hasTag "senior" q); discriminate.
    - simpl. destruct (_ && hasTag "early_career" q); discriminate. }
  pose proof (bonus_le t1 3 ltac:(discriminate)) as H1.
  pose proof (bonus_le t2 3 ltac:(discriminate)) as H2.
  pose proof (bonus_le t3 3 ltac:(discriminate)) as H3.
  pose proof (bonus_le i1 2 ltac:(discriminate)) as H4.
  pose proof (bonus_le i2 2 ltac:(discriminate)) as H5.
  pose proof (bonus_le s1 2 ltac:(discriminate)) as H6.
  set (b7 := bonus (experienceLength _ pd && hasTag "senior" q) 2) in *.
  set (b8 := bonus (experienceLength _ pd && hasTag "early_career" q) 2) in *.
  assert (E : (bonus t1 3 + bonus t2 3 + bonus t3 3 + bonus i1 2 + bonus i2 2
               + bonus s1 2 + b7 + b8
               == bonus t1 3 + (bonus t2 3 + (bonus t3 3 + (bonus i1 2
                  + (bonus i2 2 + (bonus s1 2 + (b7 + b8)))))))%Q) by ring.
  rewrite E.
  change 17%Q with (3 + (3 + (3 + (2 + (2 + (2 + 2))))))%Q.
  repeat apply Qplus_le_compat; assumption.
Qed.

Lemma score_within q pd w :
  Random.unitInterval (random w) ->
  (firedBonuses q pd <= fst (calculateRelevanceScore q pd w))%Q
  /\ (fst (calculateRelevanceScore q pd w) < firedBonuses q pd + 2)%Q.
Proof.
  intros Hunit.
  destruct (calculateRelevanceScore_jitter q pd w) as (points & E & Hp).
  destruct (Hunit (Random.cursor (random w))) as [H0 H1].
  destruct (twice_unit _ H0 H1) as [Hj0 Hj2].
  rewrite E, Hp. split.
  - rewrite <- (Qplus_0_r (firedBonuses q pd)) at 1.
    apply Qplus_le_compat; [apply Qle_refl | exact Hj0].
  - apply Qplus_lt_r. exact Hj2.
Qed.

(** X5. The relevance score is bounded: the bonus for a long experience and
    the one for a short experience exclude each other, so the bonuses add
    up to at most 17 and the score, jitter included, is at least the sum
    of the bonuses and at most 19.  The upper bound is not strict: it is
    the one that the sum also meets when the engine rounds it to a
    floating-point number, a jitter just under 2 then bringing 17 to 19. *)
Theorem calculateRelevanceScore_at_most_19 q pd w :
  Random.unitInterval (random w) ->
  (firedBonuses q pd <= 17)%Q
  /\ (firedBonuses q pd <= fst (calculateRelevanceScore q pd w))%Q
  /\ (fst (calculateRelevanceScore q pd w) <= 19)%Q.
Proof.
  intros Hunit. destruct (score_within q pd w Hunit) as [Hle Hlt].
  split; [apply firedBonuses_le|]. split; [exact Hle|].
  apply Qlt_le_weak. eapply Qlt_le_trans; [exact Hlt|].
  change 19%Q with (17 + 2)%Q.
  apply Qplus_le_compat; [apply firedBonuses_le | apply Qle_refl].
Qed.

(** *** Ranking *)

Lemma unitInterval_drawnFrom w w' :
  drawnFrom w w' -> Random.unitInterval (random w) -> Random.unitInterval (random w').
Proof. intros (E & _ & _) H n. unfold Random.unitInterval in H. rewrite E. apply H. Qed.

Lemma scored_within pd (l : list ConversationStarter) w :
  Random.unitInterval (random w) ->
  Forall (fun qs => (firedBonuses (fst qs) pd <= snd qs)%Q
                    /\ (snd qs < firedBonuses (fst qs) pd + 2)%Q)
    (fst (mapM (fun question =>
                  let* s := calculateRelevanceScore question pd in
                  ret (question, s)) l w)).
Proof.
  revert w. induction l as [|q l IH]; intros w Hunit; simpl; [constructor|].
  unfold bind at 1. unfold bind at 1.
  pose proof (score_within q pd w Hunit) as Hq.
  pose proof (onlyDraws_calculateRelevanceScore q pd w) as Hd.
  destruct (calculateRelevanceScore q pd w) as [s w1]. unfold ret at 1.
  unfold bind at 1. specialize (IH w1 (unitInterval_drawnFrom _ _ Hd Hunit)).
  destruct (mapM _ l w1) as [ys w2]. simpl in *.
  constructor; [exact Hq | exact IH].
Qed.

(** X6. Ranking returns the questions it was given, reordered, and the
    jitter never overturns a lead of more than two points: a question is
    ranked after another only if its bonuses exceed the other's by at most
    2.  The bound is not strict: a lead of exactly two points can be lost
    to a tie when the engine rounds the scores to floating-point numbers,
    and the sort then keeps the order in which the questions came. *)
Theorem rankQuestionsByRelevance_lead questions pd w :
  Random.unitInterval (random w) ->
  let ranked := fst (rankQuestionsByRelevance questions pd w) in
  ranked ≡ₚ questions
  /\ (forall before q after,
        ranked = before ++ q :: after ->
        forall q', q' ∈ after -> (firedBonuses q' pd <= firedBonuses q pd + 2)%Q).
Proof.
  intros Hunit ranked.
  split; [apply rankQuestionsByRelevance_Permutation|].
  unfold ranked, rankQuestionsByRelevance, bind.
  pose proof (scored_within pd questions w Hunit) as Hb.
  destruct (mapM _ questions w) as [scored w1]. simpl in *.
  intros before q after Hsplit q' Hq'.
  pose proof (sortDesc_sorted snd scored) as Hsorted.
  assert (Hb' : forall qs, qs ∈ sortDesc snd scored ->
                  (firedBonuses (fst qs) pd <= snd qs)%Q
                  /\ (snd qs < firedBonuses (fst qs) pd + 2)%Q).
  { intros qs Hin. rewrite sortDesc_Permutation in Hin.
    rewrite Forall_forall in Hb. apply Hb. exact Hin. }
  apply fmap_app_inv in Hsplit as (s1 & s2' & -> & Hs2 & Hsort).
  symmetry in Hs2. apply fmap_cons_inv in Hs2 as (qs & s2 & -> & -> & ->).
  rewrite Hsort in Hsorted, Hb'.
  apply list_elem_of_fmap in Hq' as (qs' & -> & Hqs').
  rewrite map_app in Hsorted. apply sortedDescending_app_r in Hsorted.
  simpl List.map in Hsorted.
  pose proof (sortedDescending_head _ _ Hsorted (snd qs')
                ltac:(apply (list_elem_of_fmap_2 snd); exact Hqs')) as Hle.
  destruct (Hb' qs) as [_ Hq2];
    [apply elem_of_app; right; apply elem_of_cons; left; reflexivity|].
  destruct (Hb' qs') as [Hq1 _];
    [apply elem_of_app; right; apply elem_of_cons; right; exact Hqs'|].
  apply Qlt_le_weak.
  eapply Qle_lt_trans; [exact Hq1|].
  eapply Qle_lt_trans; [exact Hle | exact Hq2].
Qed.

End ScorerExtras.

(** * Targeted selection *)

Section TargetedFacts.

Import JsString Js StateMonad QuestionBank ConversationService TargetedSelection
  Invariants.

Variable catalog : list ConversationStarter.
Variable getQuestionsByTags : list string -> list ConversationStarter.

Local Abbreviation designated := (designatedQuestions catalog getQuestionsByTags).
Local Abbreviation selectTargeted := (selectTargeted catalog getQuestionsByTags).
Local Abbreviation getTargetedQuestions :=
  (getTargetedQuestions catalog getQuestionsByTags).

Lemma selectTargeted_unfold criteria context count w :
  let sid := orStr (sessionId context) "default" in
  let used := usedQuestionsOf (sessionQuestions w) sid in
  let ranked :=
    rankQuestionsByRelevance (List.filter (unused used) (designated criteria))
      (profileData context) w in
  selectTargeted criteria context count w
  = (slice0 count (fst ranked),
     {| random := random (snd ranked);
        sessionQuestions :=
          <[sid := used ++ List.map id (slice0 count (fst ranked))]>
            (sessionQuestions w) |}).
Proof.
  intros sid used ranked.
  unfold TargetedSelection.selectTargeted, bind, get, put, ret.
  fold sid. fold used. fold ranked.
  pose proof (onlyDraws_rankQuestionsByRelevance
                (List.filter (unused used) (designated criteria))
                (profileData context) w) as (_ & _ & Hs).
  fold ranked in Hs. destruct ranked as [r w2]. simpl in *. rewrite Hs.
  reflexivity.
Qed.

Lemma getTargetedQuestions_unfold criteria context count w :
  getTargetedQuestions criteria context count w
  = mapM (fun question => personalizeQuestion question (profileData context))
         (fst (selectTargeted criteria context count w))
         (snd (selectTargeted criteria context count w)).
Proof.
  unfold TargetedSelection.getTargetedQuestions, bind.
  destruct (selectTargeted criteria context count w). reflexivity.
Qed.

Lemma getTargetedQuestions_store criteria context count w :
  let sid := orStr (sessionId context) "default" in
  sessionQuestions (snd (getTargetedQuestions criteria context count w))
  = <[sid := usedQuestionsOf (sessionQuestions w) sid
             ++ List.map id (fst (selectTargeted criteria context count w))]>
      (sessionQuestions w).
Proof.
  intros sid.
  assert (Hd : drawnFrom (snd (selectTargeted criteria context count w))
                 (snd (getTargetedQuestions criteria context count w))).
  { rewrite getTargetedQuestions_unfold.
    apply onlyDraws_mapM. intros q. apply onlyDraws_personalizeQuestion. }
  destruct Hd as (_ & _ & Hstore). rewrite Hstore.
  rewrite selectTargeted_unfold. reflexivity.
Qed.

(** X7. For a count that is not negative, [getTargetedQuestions] selects
    among the questions that its criteria designate and that the session
    has not used, as many as the count allows and no others: there is no
    backfill from the rest of the catalog.  It appends the selected ids,
    in order, to the list of the session and returns one personalized
    question for each. *)
Theorem getTargetedQuestions_selection criteria context count w :
  0 <= count ->
  let sid := orStr (sessionId context) "default" in
  let used := usedQuestionsOf (sessionQuestions w) sid in
  let available := List.filter (unused used) (designated criteria) in
  let selected := fst (selectTargeted criteria context count w) in
  let result := getTargetedQuestions criteria context count w in
  selected ⊆+ available
  /\ Z.of_nat (length selected) = Z.min count (Z.of_nat (length available))
  /\ List.map originalQuestion (fst result) = List.map question selected
  /\ sessionQuestions (snd result)
     = <[sid := used ++ List.map id selected]> (sessionQuestions w).
Proof.
  intros Hc sid used available selected result.
  assert (Hsel : selected
                 = slice0 count
                     (fst (rankQuestionsByRelevance available (profileData context) w))).
  { unfold selected. rewrite selectTargeted_unfold. reflexivity. }
  pose proof (rankQuestionsByRelevance_Permutation available (profileData context) w)
    as Hp.
  split; [|split; [|split]].
  - rewrite Hsel. etransitivity; [apply sublist_submseteq, slice0_sublist|].
    apply Permutation_submseteq, Hp.
  - rewrite Hsel, <- (Permutation_length Hp). unfold slice0.
    destruct (count <? 0) eqn:E; [apply Z.ltb_lt in E; lia|].
    rewrite length_take. lia.
  - unfold result. rewrite getTargetedQuestions_unfold.
    apply personalized_originals.
  - apply getTargetedQuestions_store.
Qed.

(** X8. An empty session id is treated differently by the two selection
    modes: [getTargetedQuestions] records its selection under the session
    ["default"] and leaves the session with the empty name alone, whereas
    [getDiverseQuestions] records under the session with the empty name
    and leaves ["default"] alone. *)
Theorem empty_session_id_modes criteria context count w :
  sessionId context = Some EmptyString ->
  let targeted := getTargetedQuestions criteria context count w in
  let diverse := getDiverseQuestions catalog context count w in
  usedQuestionsOf (sessionQuestions (snd targeted)) "default"
  = usedQuestionsOf (sessionQuestions w) "default"
    ++ List.map id (fst (selectTargeted criteria context count w))
  /\ sessionQuestions (snd targeted) !! EmptyString
     = sessionQuestions w !! EmptyString
  /\ usedQuestionsOf (sessionQuestions (snd diverse)) EmptyString
     = usedQuestionsOf (sessionQuestions w) EmptyString
       ++ List.map id (fst (selectDiverse catalog context count w))
  /\ sessionQuestions (snd diverse) !! "default"%string
     = sessionQuestions w !! "default"%string.
Proof.
  intros Hsid targeted diverse.
  pose proof (getTargetedQuestions_store criteria context count w) as Ht.
  destruct (getDiverseQuestions_store catalog context count w) as [Hd _].
  cbv zeta in Ht, Hd. rewrite Hsid in Ht, Hd. simpl orStr in Ht. simpl default in Hd.
  fold targeted in Ht. fold diverse in Hd.
  unfold usedQuestionsOf at 1 3. rewrite Ht, Hd.
  rewrite !lookup_insert_eq, !lookup_insert_ne by discriminate.
  auto.
Qed.

End TargetedFacts.

(** * Texts that the customizations leave alone *)

Section TextFacts.

Import JsString Js.

Lemma startsWith_app_l p q s :
  startsWith (p +:+ q) s = true -> startsWith p s = true.
Proof.
  revert s. induction p as [|a p IH]; intros s H; [destruct s; reflexivity|].
  destruct s as [|b s]; simpl in *; [discriminate|].
  destruct (Ascii.eqb a b); [apply IH, H|discriminate].
Qed.

Lemma includes_app_l p q s :
  includes (p +:+ q) s = true -> includes p s = true.
Proof.
  induction s as [|c s IH]; simpl; intros H.
  - apply orb_true_iff in H as [H|H]; [|discriminate].
    rewrite (startsWith_app_l _ _ _ H). reflexivity.
  - apply orb_true_iff in H as [H|H].
    + rewrite (startsWith_app_l _ _ _ H). reflexivity.
    + rewrite (IH H). apply orb_true_r.
Qed.

Lemma includesCI_absent_app p q s :
  includesCI p s = false -> includesCI (p +:+ q) s = false.
Proof.
  unfold includesCI. intros H.
  destruct (includes (p +:+ q) (toLowerCase s)) eqn:E; [|reflexivity].
  apply includes_app_l in E. congruence.
Qed.

Lemma includes_tail p c s :
  includes p (String c s) = false ->
  startsWith p (String c s) = false /\ includes p s = false.
Proof.
  change (includes p (String c s))
    with (startsWith p (String c s) || includes p s).
  intros H. apply orb_false_iff in H. exact H.
Qed.

Lemma replaceFrom_absent pats r s :
  (forall p, In p pats -> includesCI p s = false) ->
  replaceFrom O pats r s = s.
Proof.
  induction s as [|c s IH]; intros H; [reflexivity|].
  cbn [replaceFrom].
  destruct (List.find _ pats) as [p|] eqn:E.
  - apply find_some in E as [Hin Hp]. specialize (H p Hin).
    unfold includesCI in H. cbn [toLowerCase] in H.
    apply includes_tail in H as [H _].
    unfold startsWithCI in Hp. cbn [toLowerCase] in Hp. congruence.
  - f_equal. apply IH. intros p Hin. specialize (H p Hin).
    unfold includesCI in *. cbn [toLowerCase] in H.
    apply includes_tail in H as [_ H]. exact H.
Qed.

Lemma replaceAllCI_absent pats r s :
  (forall p, In p pats -> includesCI p s = false) ->
  replaceAllCI pats r s = s.
Proof. apply replaceFrom_absent. Qed.

Lemma startsWith_split stem p :
  startsWith stem p = true -> exists rest, p = stem +:+ rest.
Proof.
  revert p. induction stem as [|a stem IH]; intros p H; [exists p; reflexivity|].
  destruct p as [|b p]; simpl in H; [discriminate|].
  destruct (Ascii.eqb a b) eqn:E; [|discriminate].
  apply Ascii.eqb_eq in E as ->. destruct (IH p H) as [rest ->].
  exists rest. reflexivity.
Qed.

(** Patterns that start with a literal absent from the text match
    nowhere in it. *)
Lemma replaceAllCI_stem_absent stem pats r s :
  includesCI stem s = false ->
  forallb (startsWith stem) pats = true ->
  replaceAllCI pats r s = s.
Proof.
  intros H Hp. apply replaceAllCI_absent. intros p Hin.
  rewrite forallb_forall in Hp.
  destruct (startsWith_split _ _ (Hp p Hin)) as [rest ->].
  apply includesCI_absent_app, H.
Qed.

Lemma toLowerCase_app a s :
  toLowerCase (a +:+ s) = toLowerCase a +:+ toLowerCase s.
Proof.
  induction a as [|c a IH]; [reflexivity|].
  change (String c a +:+ s) with (String c (a +:+ s)). cbn [toLowerCase].
  rewrite IH. reflexivity.
Qed.

Lemma includesCI_absent_suffix p a s :
  includesCI p (a +:+ s) = false -> includesCI p s = false.
Proof.
  unfold includesCI. rewrite toLowerCase_app.
  induction (toLowerCase a) as [|c l IH]; [trivial|].
  change (String c l +:+ toLowerCase s) with (String c (l +:+ toLowerCase s)).
  intros H. apply includes_tail in H as [_ H]. apply IH, H.
Qed.

End TextFacts.

(** * Personalization *)

Section PersonalizationFacts.

Import JsString Js StateMonad QuestionBank ConversationService.

Ltac keep_text H :=
  repeat match goal with
         | |- context [match ?o with Some _ => _ | None => _ end] => destruct o
         | |- context [match ?l with [] => _ | _ :: _ => _ end] => destruct l
         | |- context [if ?b then _ else _] => destruct b
         end;
  rewrite ?(replaceAllCI_stem_absent "your " _ _ _ H) by reflexivity;
  reflexivity.

(** X9. A question whose text, with the greeting in front of it, nowhere
    contains "your " (in any case) is not reworded by [personalizeQuestion],
    whatever the profile holds: the personalized text is the template, or
    the template after ["Hi <name>! "] when the profile has a name and the
    random value drawn first exceeds 0.5. *)
Theorem personalizeQuestion_plain q pd w :
  let text := question q in
  let greeting := "Hi " +:+ default EmptyString (pd_name pd) +:+ "! " +:+ text in
  includesCI "your " greeting = false ->
  personalizedQuestion (fst (personalizeQuestion q pd w))
  = if truthyStr (pd_name pd) && negb (Qle_bool (fst (Math_random w)) 0.5)
    then greeting else text.
Proof.
  intros text greeting Hg.
  assert (Ht : includesCI "your " text = false).
  { unfold greeting in Hg.
    apply includesCI_absent_suffix, includesCI_absent_suffix,
      includesCI_absent_suffix in Hg. exact Hg. }
  unfold personalizeQuestion, bind, ret. fold text. unfold greeting in *.
  destruct (pd_name pd) as [n|]; cbn [truthyStr default andb] in *.
  - destruct (truthy n); cbn [andb].
    + destruct (Math_random w) as [r w1]. cbn [fst].
      destruct (calculateRelevanceScore q pd w1) as [score w2].
      cbn [fst personalizedQuestion].
      destruct (negb (Qle_bool r 0.5)); [keep_text Hg|keep_text Ht].
    + destruct (calculateRelevanceScore q pd w) as [score w2].
      cbn [fst personalizedQuestion]. keep_text Ht.
  - destruct (calculateRelevanceScore q pd w) as [score w2].
    cbn [fst personalizedQuestion]. keep_text Ht.
Qed.

Lemma personalizeQuestion_plain_sample :
  personalizedQuestion
    (fst (personalizeQuestion
            (Samples.starter 4 "personality_motivation" []
               "What motivates you outside of work?")
            (Samples.experienced None) Samples.world0))
  = "What motivates you outside of work?"%string.
Proof.
  apply (personalizeQuestion_plain
           (Samples.starter 4 "personality_motivation" []
              "What motivates you outside of work?")
           (Samples.experienced None) Samples.world0).
  vm_compute. reflexivity.
Defined.

End PersonalizationFacts.

(** * The intelligent question service *)

Section IntelligentFacts.

Import JsString Js StateMonad QuestionBank IntelligentQuestionService.
Import Invariants SpecWords.

Variable catalog : list ConversationStarter.
Variable generateContent : Result string.
Variable JSON_parse : string -> Result Reply.
Variable sortRandomly :
  list ConversationStarter -> State Random.Source (list ConversationStarter).
Variable Number_toString : Q -> string.

Ltac keep_question Hyour Hthe Hat :=
  repeat match goal with
         | |- context [match ?o with Some _ => _ | None => _ end] => destruct o
         | |- context [match ?l with [] => _ | _ :: _ => _ end] => destruct l
         | |- context [if ?b then _ else _] => destruct b
         end;
  repeat first
    [ rewrite (replaceAllCI_stem_absent "your " _ _ _ Hyour) by reflexivity
    | rewrite (replaceAllCI_stem_absent "the industry" _ _ _ Hthe) by reflexivity
    | rewrite (replaceAllCI_stem_absent "at work" _ _ _ Hat) by reflexivity ];
  reflexivity.

(** One [let] of the customization at a time: the text bound so far is
    the question. *)
Ltac stage Hyour Hthe Hat :=
  lazymatch goal with
  | |- (let x := ?v in @?body x) = ?q =>
      let c := fresh "customized" in
      let Hc := fresh "Hc" in
      pose (c := v); change (body c = q); cbv beta;
      assert (c = q) as Hc by (unfold c; keep_question Hyour Hthe Hat);
      clearbody c; subst c
  end.

(** X10. [basicCustomization] returns a question unchanged, for every
    profile, when the question contains none of "your ", "the industry"
    and "at work" (in any case). *)
Theorem basicCustomization_plain question profile :
  includesCI "your " question = false ->
  includesCI "the industry" question = false ->
  includesCI "at work" question = false ->
  basicCustomization Number_toString question profile = question.
Proof.
  intros Hyour Hthe Hat. cbv beta delta [basicCustomization].
  repeat stage Hyour Hthe Hat. reflexivity.
Qed.

Lemma preFilterQuestions_sublist profile analysis :
  preFilterQuestions catalog profile analysis `sublist_of` catalog.
Proof.
  unfold preFilterQuestions.
  match goal with
  | |- context [if (length ?f <? 20)%nat then _ else _] => set (filtered := f)
  end.
  assert (Hsub : filtered `sublist_of` catalog).
  { unfold filtered.
    destruct (roleType analysis), (seniorityLevel analysis);
      repeat (etransitivity; [apply filter_sublist|]); reflexivity. }
  cbv zeta. destruct (length filtered <? 20)%nat; [apply slice0_sublist|exact Hsub].
Qed.

(** X11. [preFilterQuestions] returns catalog questions in catalog order,
    and never fewer than 20 of them unless the catalog itself is shorter,
    in which case it returns the whole catalog length. *)
Theorem preFilterQuestions_enough profile analysis :
  let result := preFilterQuestions catalog profile analysis in
  result `sublist_of` catalog
  /\ (Nat.min 20 (length catalog) <= length result)%nat.
Proof.
  split; [apply preFilterQuestions_sublist|].
  unfold preFilterQuestions.
  match goal with
  | |- context [if (length ?f <? 20)%nat then _ else _] => set (filtered := f)
  end.
  cbv zeta. destruct (length filtered <? 20)%nat eqn:E.
  - unfold slice0. change (50 <? 0) with false. cbv iota.
    rewrite length_take. change (Z.to_nat 50) with 50%nat. lia.
  - apply Nat.ltb_ge in E. lia.
Qed.

Lemma pushQuestion_app candidates questions q :
  pushQuestion candidates questions q
  = questions ++ pushQuestion candidates [] q.
Proof.
  unfold pushQuestion. destruct (List.find _ candidates).
  - reflexivity.
  - symmetry. apply app_nil_r.
Qed.

(** Without [null] the loop comes to its end, and pushes the items in the
    order of the entries. *)
Lemma collectQuestions_answered candidates questions entries :
  NullEntry ∉ entries ->
  collectQuestions candidates questions entries
  = Ok (questions ++ answered candidates entries).
Proof.
  revert questions.
  induction entries as [|e entries IH]; intros questions H.
  - cbn. rewrite app_nil_r. reflexivity.
  - assert (Hrest : NullEntry ∉ entries)
      by (intros Hin; apply H; apply elem_of_cons; right; exact Hin).
    destruct e as [| |q]; cbn [collectQuestions].
    + exfalso. apply H. apply elem_of_cons. left. reflexivity.
    + rewrite (IH _ Hrest). reflexivity.
    + rewrite (IH _ Hrest), (pushQuestion_app candidates questions q).
      unfold answered. cbn [List.map List.concat].
      rewrite <- app_assoc. reflexivity.
Qed.

Lemma pushQuestion_length candidates q :
  (length (pushQuestion candidates [] q) <= 1)%nat.
Proof. unfold pushQuestion. destruct (List.find _ candidates); cbn; lia. Qed.

Lemma answered_length candidates entries :
  (length (answered candidates entries) <= length entries)%nat.
Proof.
  unfold answered. induction entries as [|e entries IH]; [reflexivity|].
  cbn [List.map List.concat length]. rewrite length_app.
  destruct e as [| |q]; cbn [length]; try lia.
  pose proof (pushQuestion_length candidates q). lia.
Qed.

Lemma pushQuestion_origin candidates q item :
  item ∈ pushQuestion candidates [] q ->
  exists cq,
    cq ∈ candidates /\ questionId q = Some (id cq)
    /\ originalQuestion item = question cq
    /\ iq_category item = category cq
    /\ iq_subcategory item = subcategory cq
    /\ customizedQuestion item = ai_customizedQuestion q
    /\ (relevanceScore item
        = match ai_relevanceScore q with
          | Some s => if qtruthy s then s else 80
          | None => 80
          end)%Q
    /\ reasoning item = orStr (ai_reasoning q) "AI selected as relevant"
    /\ ~ (relevanceScore item == 0)%Q
    /\ reasoning item <> EmptyString.
Proof.
  unfold pushQuestion.
  destruct (List.find _ candidates) as [cq|] eqn:E; cbn [app]; intros H.
  - apply list_elem_of_singleton in H. subst item.
    apply find_some in E as [Hin Hid]. apply bool_decide_eq_true in Hid.
    exists cq. cbn. repeat split; auto.
    + apply list_elem_of_In, Hin.
    + destruct (ai_relevanceScore q) as [sc|]; [|discriminate].
      destruct (qtruthy sc) eqn:Et; [|discriminate].
      unfold qtruthy in Et. intros Hz. apply Qeq_bool_iff in Hz.
      rewrite Hz in Et. discriminate.
    + unfold orStr. destruct (ai_reasoning q) as [t|]; [|discriminate].
      destruct t; simpl; discriminate.
  - apply elem_of_nil in H. contradiction.
Qed.

Lemma answered_origin candidates entries item :
  item ∈ answered candidates entries ->
  exists q, ObjectEntry q ∈ entries /\ item ∈ pushQuestion candidates [] q.
Proof.
  unfold answered. induction entries as [|e entries IH]; cbn [List.map List.concat].
  - intros H. apply elem_of_nil in H. contradiction.
  - intros H. apply elem_of_app in H as [H|H].
    + destruct e as [| |q]; try (apply elem_of_nil in H; contradiction).
      exists q. split; [apply elem_of_cons; left; reflexivity | exact H].
    + destruct (IH H) as (q & Hq & Hitem).
      exists q. split; [apply elem_of_cons; right; exact Hq | exact Hitem].
Qed.

(** X12. When the completion service replies, the braced block of the
    reply parses and its [questions] can be gone through (they are
    missing, or an array without [null] in it), [getIntelligentQuestions]
    does not fall back and draws no random value: it returns one item for
    each entry that is an object whose [questionId] is the id of a
    pre-filtered question, in the order of the reply.  Every item carries
    the text and category of such a catalog question and the customized
    text of its entry; its relevance score is the one of the entry, or 80
    when the entry has none or has 0, and is never 0; its reasoning is
    the one of the entry, or a default text when the entry has none or an
    empty one, and is never empty.  Entries that are not objects, and
    objects that name no pre-filtered question, are passed over.  The
    requested count plays no role: the reply decides how many items come
    back. *)
Theorem getIntelligentQuestions_reply profile count src response block reply :
  generateContent = Ok response ->
  matchBraces response = Some block ->
  JSON_parse block = Ok reply ->
  ~ unreadable reply ->
  let run n :=
    getIntelligentQuestions catalog generateContent JSON_parse sortRandomly
      Number_toString profile n src in
  let entries := entriesOf reply in
  run count
  = (answered (preFilterQuestions catalog profile (analyzeProfile profile))
       entries, src)
  /\ (forall n, run n = run count)
  /\ (length (fst (run count)) <= length entries)%nat
  /\ (forall item, item ∈ fst (run count) ->
       exists cq q,
         cq ∈ catalog /\ ObjectEntry q ∈ entries /\ questionId q = Some (id cq)
         /\ originalQuestion item = question cq
         /\ iq_category item = category cq
         /\ iq_subcategory item = subcategory cq
         /\ customizedQuestion item = ai_customizedQuestion q
         /\ (relevanceScore item
             = match ai_relevanceScore q with
               | Some s => if qtruthy s then s else 80
               | None => 80
               end)%Q
         /\ reasoning item = orStr (ai_reasoning q) "AI selected as relevant"
         /\ ~ (relevanceScore item == 0)%Q
         /\ reasoning item <> EmptyString).
Proof.
  intros Hg Hm Hp Hread run entries.
  set (candidates := preFilterQuestions catalog profile (analyzeProfile profile)).
  assert (Hrun : forall n, run n = (answered candidates entries, src)).
  { intros n. unfold run, getIntelligentQuestions, selectAndCustomizeWithAI,
      parseAIResponse. rewrite Hg, Hm, Hp. fold candidates.
    unfold entries. destruct reply as [| | |l]; cbn [entriesOf].
    - reflexivity.
    - reflexivity.
    - exfalso. apply Hread. exact I.
    - rewrite (collectQuestions_answered candidates [] l) by exact Hread.
      reflexivity. }
  split; [apply Hrun|]. split; [intros n; rewrite !Hrun; reflexivity|].
  rewrite Hrun. cbn [fst]. split; [apply answered_length|].
  intros item Hitem.
  destruct (answered_origin _ _ _ Hitem) as (q & Hq & Hpushed).
  destruct (pushQuestion_origin _ _ _ Hpushed) as (cq & Hcq & rest).
  exists cq, q. split; [|split; [exact Hq | exact rest]].
  pose proof (preFilterQuestions_sublist profile (analyzeProfile profile)) as Hsub.
  apply sublist_submseteq in Hsub. eapply elem_of_submseteq; eassumption.
Qed.

End IntelligentFacts.

Section IntelligentSamples.

Import JsString Js StateMonad QuestionBank IntelligentQuestionService.

Lemma basicCustomization_plain_sample :
  basicCustomization Samples.noDigits "What motivates you outside of work?"
    Samples.engineer
  = "What motivates you outside of work?"%string.
Proof.
  apply (basicCustomization_plain Samples.noDigits
           "What motivates you outside of work?" Samples.engineer);
    vm_compute; reflexivity.
Defined.

Lemma getIntelligentQuestions_reply_sample :
  let response := ("Sure! " +:+ Samples.sampleBlock +:+ " Enjoy.")%string in
  matchBraces response = Some Samples.sampleBlock
  /\ getIntelligentQuestions Samples.bank (Ok response)
       Samples.parseSamples Samples.keepOrder Samples.noDigits
       Samples.engineer 5 Samples.dice
     = ([ {| originalQuestion := "What motivates you outside of work?";
             customizedQuestion := Some "What motivates you at Acme?"%string;
             relevanceScore := 80;
             reasoning := "AI selected as relevant";
             iq_category := "personality_motivation";
             iq_subcategory := "general" |} ],
        Samples.dice).
Proof.
  intros response.
  assert (Hm : matchBraces response = Some Samples.sampleBlock) by reflexivity.
  split; [exact Hm|].
  refine (proj1 (getIntelligentQuestions_reply Samples.bank (Ok response)
                   Samples.parseSamples Samples.keepOrder Samples.noDigits
                   Samples.engineer 5 Samples.dice response Samples.sampleBlock
                   (Entries Samples.sampleEntries) eq_refl Hm eq_refl _)).
  cbn. intros H. repeat (apply elem_of_cons in H as [H|H]; [discriminate|]).
  apply elem_of_nil in H. exact H.
Defined.

End IntelligentSamples.

Section FallbackExtras.

Import JsString Js StateMonad QuestionBank IntelligentQuestionService.

Variable catalog : list ConversationStarter.
Variable sortRandomly :
  list ConversationStarter -> State Random.Source (list ConversationStarter).
Variable Number_toString : Q -> string.

(** X13. When the engine's sort with a random comparator permutes its
    array, [fallbackQuestionSelection] with a count that is not negative
    returns as many items as the count allows, the catalog permitting,
    and takes them from the first 2 * count questions of the catalog
    only; every item has the score 70, the reasoning
    ["Fallback selection"] and a customized text. *)
Theorem fallbackQuestionSelection_draws profile count src :
  (forall l s, fst (sortRandomly l s) ≡ₚ l) ->
  0 <= count ->
  let result :=
    fst (fallbackQuestionSelection catalog sortRandomly Number_toString
           profile count src) in
  Z.of_nat (length result) = Z.min count (Z.of_nat (length catalog))
  /\ List.map originalQuestion result
     ⊆+ List.map question (slice0 (count * 2) catalog)
  /\ Forall (fun item =>
               relevanceScore item = 70%Q
               /\ reasoning item = "Fallback selection"%string
               /\ customizedQuestion item
                  = Some (basicCustomization Number_toString
                            (originalQuestion item) profile))
            result.
Proof.
  intros Hsort Hc. unfold fallbackQuestionSelection, bind, ret.
  pose proof (Hsort (slice0 (count * 2) catalog) src) as Hp.
  destruct (sortRandomly (slice0 (count * 2) catalog) src) as [shuffled src'].
  cbn [fst] in *. split; [|split].
  - rewrite length_map. unfold slice0 at 1.
    destruct (count <? 0) eqn:E; [apply Z.ltb_lt in E; lia|].
    rewrite length_take, (Permutation_length Hp). unfold slice0.
    destruct (count * 2 <? 0) eqn:E2; [apply Z.ltb_lt in E2; lia|].
    rewrite length_take. lia.
  - rewrite map_map. cbn [originalQuestion].
    change (List.map (fun x => question x)) with (fmap (M := list) question).
    change (List.map question) with (fmap (M := list) question).
    apply fmap_submseteq. etransitivity.
    + apply sublist_submseteq, slice0_sublist.
    + apply Permutation_submseteq, Hp.
  - apply Forall_forall. intros item Hin.
    apply list_elem_of_In, in_map_iff in Hin as (q & <- & _).
    cbn. auto.
Qed.

End FallbackExtras.

Section FallbackExtrasSamples.

Import JsString Js StateMonad QuestionBank IntelligentQuestionService.

Lemma fallbackQuestionSelection_draws_sample :
  Z.of_nat (length (fst (fallbackQuestionSelection Samples.bank Samples.keepOrder
                           Samples.noDigits Samples.engineer 2 Samples.dice)))
  = 2.
Proof.
  refine (proj1 (fallbackQuestionSelection_draws Samples.bank Samples.keepOrder
                   Samples.noDigits Samples.engineer 2 Samples.dice _ _)).
  - intros l s. reflexivity.
  - lia.
Defined.

End FallbackExtrasSamples.

(** * The braced block of a reply *)

Section BlockFacts.

Import JsString Js IntelligentQuestionService.

Local Abbreviation noOpen s := (anyChar (fun c => Ascii.eqb c "{") s = false).
Local Abbreviation noClose s := (anyChar (fun c => Ascii.eqb c "}") s = false).

Lemma upToLastClose_none s : noClose s -> upToLastClose s = None.
Proof.
  induction s as [|c s IH]; [reflexivity|]. cbn [anyChar upToLastClose].
  intros H. apply orb_false_iff in H as [Hc Hs].
  rewrite (IH Hs), Hc. reflexivity.
Qed.

Lemma upToLastClose_block body post :
  noClose post ->
  upToLastClose (body +:+ "}" +:+ post) = Some (body +:+ "}").
Proof.
  intros Hpost. induction body as [|c body IH].
  - change (EmptyString +:+ "}" +:+ post) with (String "}" post).
    cbn [upToLastClose]. rewrite (upToLastClose_none _ Hpost). reflexivity.
  - change (String c body +:+ "}" +:+ post)
      with (String c (body +:+ "}" +:+ post)).
    cbn [upToLastClose]. rewrite IH. reflexivity.
Qed.

Lemma matchBraces_no_close s : noClose s -> matchBraces s = None.
Proof.
  induction s as [|c s IH]; [reflexivity|]. cbn [anyChar matchBraces].
  intros H. apply orb_false_iff in H as [Hc Hs].
  destruct (Ascii.eqb c "{"); [|exact (IH Hs)].
  rewrite (upToLastClose_none _ Hs). reflexivity.
Qed.

(** X14. [matchBraces] keeps the text from the first opening brace to the
    last closing brace and drops what is around it: a block between a
    prefix without opening brace and a suffix without closing brace is
    returned as it is, and the prefix followed by the suffix alone has
    no block. *)
Theorem matchBraces_block pre body post :
  noOpen pre ->
  noClose post ->
  matchBraces (pre +:+ "{" +:+ body +:+ "}" +:+ post)
  = Some ("{" +:+ body +:+ "}")
  /\ matchBraces (pre +:+ post) = None.
Proof.
  intros Hpre Hpost. induction pre as [|c pre IH].
  - split.
    + change (EmptyString +:+ "{" +:+ body +:+ "}" +:+ post)
        with (String "{" (body +:+ "}" +:+ post)).
      cbn [matchBraces]. change (Ascii.eqb "{" "{") with true. cbv iota.
      rewrite (upToLastClose_block _ _ Hpost). reflexivity.
    + apply matchBraces_no_close, Hpost.
  - cbn [anyChar] in Hpre. apply orb_false_iff in Hpre as [Hc Hpre].
    destruct (IH Hpre) as [IH1 IH2].
    change (String c pre +:+ "{" +:+ body +:+ "}" +:+ post)
      with (String c (pre +:+ "{" +:+ body +:+ "}" +:+ post)).
    change (String c pre +:+ post) with (String c (pre +:+ post)).
    cbn [matchBraces]. rewrite Hc. auto.
Qed.

Lemma matchBraces_block_sample :
  matchBraces "Here you go: {1} Bye {"
  = Some "{1}"%string.
Proof.
  refine (proj1 (matchBraces_block "Here you go: " "1" " Bye {" _ _));
    reflexivity.
Defined.

End BlockFacts.

(** * The further properties on the sample bank *)

Section ExtraSamples.

Import JsString Js StateMonad QuestionBank ConversationService TargetedSelection
  Samples.

Lemma getDiverseQuestions_returns_count_sample :
  Z.of_nat (length (fst (getDiverseQuestions bank (contextOf None) 2 world0))) = 2.
Proof.
  refine (proj2 (getDiverseQuestions_returns_count bank (contextOf None) 2 world0 _)
            bank_ids_NoDup _).
  - lia.
  - vm_compute. discriminate.
Defined.

Lemma successive_selections_disjoint_sample :
  let first := fst (selectDiverse bank (contextOf None) 2 world0) in
  let w1 := snd (getDiverseQuestions bank (contextOf None) 2 world0) in
  let second := fst (selectDiverse bank (contextOf None) 2 w1) in
  List.map id first = [1; 5] /\ List.map id second = [2; 4]
  /\ forall q1 q2, q1 ∈ first -> q2 ∈ second -> id q1 <> id q2.
Proof.
  intros first w1 second. split; [reflexivity|]. split; [reflexivity|].
  exact (successive_selections_disjoint bank (contextOf None) (contextOf None)
           2 2 world0 bank_ids_NoDup eq_refl).
Defined.

Lemma calculateRelevanceScore_at_most_19_sample :
  (fst (calculateRelevanceScore
          (starter 1 "career_background" ["technical"] "What drew you to your career?")
          (experienced None) world0) <= 19)%Q.
Proof.
  apply (calculateRelevanceScore_at_most_19
           (starter 1 "career_background" ["technical"] "What drew you to your career?")
           (experienced None) world0).
  exact dice_unitInterval.
Defined.

Lemma rankQuestionsByRelevance_lead_sample :
  let ranked := fst (rankQuestionsByRelevance bank (experienced None) world0) in
  ranked ≡ₚ bank
  /\ (forall before q after,
        ranked = before ++ q :: after ->
        forall q', q' ∈ after ->
          (SpecWords.firedBonuses q' (experienced None)
           <= SpecWords.firedBonuses q (experienced None) + 2)%Q).
Proof.
  exact (rankQuestionsByRelevance_lead bank (experienced None) world0
           dice_unitInterval).
Defined.

Lemma getTargetedQuestions_selection_sample :
  Z.of_nat
    (length (fst (selectTargeted bank (fun _ => [])
                    {| cr_category := Some "career_background"%string;
                       cr_tags := None; cr_subcategory := None |}
                    (contextOf None) 1 world0)))
  = 1.
Proof.
  refine (proj1 (proj2 (getTargetedQuestions_selection bank (fun _ => [])
                          {| cr_category := Some "career_background"%string;
                             cr_tags := None; cr_subcategory := None |}
                          (contextOf None) 1 world0 _))).
  lia.
Defined.

Lemma empty_session_id_modes_sample :
  sessionQuestions
    (snd (getTargetedQuestions bank (fun _ => [])
            {| cr_category := Some "career_background"%string;
               cr_tags := None; cr_subcategory := None |}
            (contextOf (Some EmptyString)) 1 world0)) !! EmptyString
  = None.
Proof.
  refine (proj1 (proj2 (empty_session_id_modes bank (fun _ => [])
                          {| cr_category := Some "career_background"%string;
                             cr_tags := None; cr_subcategory := None |}
                          (contextOf (Some EmptyString)) 1 world0 _))).
  reflexivity.
Defined.

End ExtraSamples.

(** * Further properties of the profile analysis *)

Section DurationExtras.

Import JsString Js ProfileAnalysis SpecWords.

Variable Date_parse : string -> option Z.
Variable Date_now : Z.

Local Abbreviation durationMonths := (durationMonths Date_parse Date_now).
Local Abbreviation experienceMonths := (experienceMonths Date_parse Date_now).
Local Abbreviation totalMonths := (totalMonths Date_parse Date_now).
Local Abbreviation calculateExperienceYears :=
  (calculateExperienceYears Date_parse Date_now).

Lemma span_allChars p s : allChars p (fst (span p s)) = true.
Proof.
  induction s as [|c s IH]; simpl; [reflexivity|].
  destruct (p c) eqn:E; [|reflexivity].
  destruct (span p s) as [a b]. simpl in *. rewrite E, IH. reflexivity.
Qed.

Lemma parseDigits_nonneg s acc :
  0 <= acc -> allChars isDigit s = true -> 0 <= parseDigits acc s.
Proof.
  revert acc. induction s as [|c s IH]; intros acc Hacc Hall; simpl in *; [exact Hacc|].
  apply andb_true_iff in Hall as [Hc Hs]. apply IH; [|exact Hs].
  unfold isDigit, between, digitValue in *.
  apply andb_true_iff in Hc as [Hlo _]. apply N.leb_le in Hlo. lia.
Qed.

Lemma matchCount_nonneg units s n : matchCount units s = Some n -> 0 <= n.
Proof.
  induction s as [|c s IH]; [discriminate|].
  cbn [matchCount]. destruct (isDigit c); [|exact IH].
  pose proof (span_allChars isDigit (String c s)) as Hall.
  destruct (span isDigit (String c s)) as [digits rest].
  destruct (existsb _ units); [|exact IH].
  intros [= <-]. apply parseDigits_nonneg; [lia|exact Hall].
Qed.

Lemma ceilDiv_nonneg n d : 0 <= n -> 0 < d -> 0 <= ceilDiv n d.
Proof.
  intros Hn Hd. unfold ceilDiv.
  assert (- n / d <= 0); [|lia].
  apply Z.div_le_upper_bound; lia.
Qed.

Lemma durationMonths_nonneg d : 0 <= durationMonths d.
Proof.
  unfold ProfileAnalysis.durationMonths, yearMatch, monthMatch.
  pose proof (matchCount_nonneg ["yr"; "year"]%string d) as Hy.
  pose proof (matchCount_nonneg ["mo"; "month"]%string d) as Hm.
  destruct (matchCount ["yr"; "year"]%string d) as [y|];
    destruct (matchCount ["mo"; "month"]%string d) as [m|];
    try specialize (Hy _ eq_refl); try specialize (Hm _ eq_refl);
    match goal with |- 0 <= (if ?b then _ else _) => destruct b end;
    try lia;
    destruct (dateRangeMatch d) as [[g1 g2]|]; try lia;
    destruct (Date_parse g1);
    destruct (if String.eqb (toLowerCase g2) "present" then Some Date_now
              else Date_parse g2);
    try lia; apply ceilDiv_nonneg; unfold msPerMonth; lia.
Qed.

Lemma experienceMonths_nonneg e : 0 <= experienceMonths e.
Proof.
  unfold ProfileAnalysis.experienceMonths.
  destruct (exp_duration e) as [d|]; [|lia].
  destruct (truthy d); [apply durationMonths_nonneg|lia].
Qed.

Lemma monthSum_nonneg l : 0 <= monthSum (List.map experienceMonths l).
Proof.
  induction l as [|e l IH]; simpl; [lia|].
  pose proof (experienceMonths_nonneg e). unfold monthSum in *. lia.
Qed.

Lemma monthSum_submseteq l1 l2 :
  l1 ⊆+ l2 ->
  monthSum (List.map experienceMonths l1) <= monthSum (List.map experienceMonths l2).
Proof.
  unfold monthSum. induction 1 as [|x l1 l2 _ IH|x y l|x l1 l2 _ IH|l1 l2 l3 _ IH1 _ IH2];
    simpl in *; try lia.
  pose proof (experienceMonths_nonneg x). lia.
Qed.

Lemma roundToTenth_monotone m1 m2 :
  m1 <= m2 -> (roundToTenth m1 <= roundToTenth m2)%Q.
Proof.
  intros H. unfold roundToTenth.
  apply Qmult_le_compat_r; [|discriminate].
  rewrite <- Zle_Qle. apply Z.div_le_mono; lia.
Qed.

Lemma roundToTenth_nonneg m : 0 <= m -> (0 <= roundToTenth m)%Q.
Proof.
  intros H. eapply Qle_trans; [|apply (roundToTenth_monotone 0 m H)].
  vm_compute. discriminate.
Qed.

Lemma calculateExperienceYears_rounds experience :
  (calculateExperienceYears experience
   == roundToTenth (totalMonths (default [] experience)))%Q.
Proof.
  destruct experience as [[|e l]|]; try reflexivity.
  cbn [ProfileAnalysis.calculateExperienceYears default].
  unfold qmax.
  destruct (Qle_bool (roundToTenth (totalMonths (e :: l))) 0) eqn:E; [|reflexivity].
  apply Qle_bool_iff in E. apply Qle_antisym; [|exact E].
  apply roundToTenth_nonneg. rewrite totalMonths_monthSum. apply monthSum_nonneg.
Qed.

(** X15. No duration string contributes a negative number of months, so
    the guards of [calculateExperienceYears] never change its result: the
    years are the rounded month total also for an absent or empty array
    and without the floor at 0.  Hence entries can only add to the years:
    a list of experiences never yields fewer years than a list made of
    some of its entries, and the order of the entries does not matter. *)
Theorem calculateExperienceYears_monotone l1 l2 :
  l1 ⊆+ l2 ->
  (calculateExperienceYears (Some l1) <= calculateExperienceYears (Some l2))%Q
  /\ (l1 ≡ₚ l2 ->
      (calculateExperienceYears (Some l1) == calculateExperienceYears (Some l2))%Q)
  /\ (calculateExperienceYears (Some l2) == roundToTenth (totalMonths l2))%Q.
Proof.
  intros Hsub.
  assert (Hle : forall a b, a ⊆+ b ->
            (calculateExperienceYears (Some a) <= calculateExperienceYears (Some b))%Q).
  { intros a b Hab. rewrite !calculateExperienceYears_rounds. cbn [default].
    apply roundToTenth_monotone. rewrite !totalMonths_monthSum.
    apply monthSum_submseteq, Hab. }
  split; [apply Hle, Hsub|]. split.
  - intros Hp. apply Qle_antisym; apply Hle, Permutation_submseteq;
      [exact Hp | symmetry; exact Hp].
  - apply (calculateExperienceYears_rounds (Some l2)).
Qed.

End DurationExtras.

Section JourneyExtras.

Import JsString Js ProfileAnalysis.

Lemma orStr_truthy o d : truthy d = true -> truthy (orStr o d) = true.
Proof.
  intros Hd. unfold orStr. destruct o as [s|]; [|exact Hd].
  destruct (truthy s) eqn:E; [exact E|exact Hd].
Qed.

Lemma careerSteps_spec experience :
  forall index i exp,
    experience !! i = Some exp ->
    careerSteps index experience !! i
    = Some {| cs_title := orStr (exp_title exp) "Position";
              cs_company := orStr (exp_company exp) "Company";
              cs_duration := exp_duration exp;
              cs_isCurrent :=
                default false (exp_isCurrent exp) || (index + i =? 0)%nat;
              cs_significance := determineRoleSignificance exp (index + i) |}.
Proof.
  induction experience as [|e l IH]; intros index i exp H; [discriminate|].
  destruct i as [|i]; simpl in *.
  - injection H as ->. rewrite Nat.add_0_r. reflexivity.
  - rewrite (IH (S index) i exp H).
    replace (S index + i)%nat with (index + S i)%nat by lia. reflexivity.
Qed.

Lemma careerSteps_length experience index :
  length (careerSteps index experience) = length experience.
Proof.
  revert index. induction experience as [|e l IH]; intros index; simpl; [reflexivity|].
  rewrite IH. reflexivity.
Qed.

(** X16. [careerProgression] has one step for each experience entry, in
    the order of the entries; no step has an empty title or company (the
    defaults are "Position" and "Company"); a step after the first is
    current only if the raw entry says so; the second and third steps are
    never of low significance, and a later step is of high significance
    exactly when its title mentions a director, a vp or a head, and of
    low significance otherwise. *)
Theorem careerProgression_steps (profile : RawProfile) :
  let experience := default [] (experience profile) in
  let steps := careerProgression (analyzeProfessionalJourney profile) in
  length steps = length experience
  /\ forall i exp,
       experience !! i = Some exp ->
       exists step,
         steps !! i = Some step
         /\ truthy (cs_title step) = true /\ truthy (cs_company step) = true
         /\ cs_duration step = exp_duration exp
         /\ ((0 < i)%nat -> cs_isCurrent step = default false (exp_isCurrent exp))
         /\ ((0 < i <= 2)%nat -> cs_significance step <> low)
         /\ ((2 < i)%nat ->
             cs_significance step
             = if optIncludesCI "director" (exp_title exp)
                  || optIncludesCI "vp" (exp_title exp)
                  || optIncludesCI "head" (exp_title exp)
               then high else low).
Proof.
  intros experience steps. split; [apply careerSteps_length|].
  intros i exp Hi. eexists. split; [apply (careerSteps_spec _ 0 i exp Hi)|].
  cbn [cs_title cs_company cs_duration cs_isCurrent cs_significance Nat.add].
  split; [apply orStr_truthy; reflexivity|].
  split; [apply orStr_truthy; reflexivity|].
  split; [reflexivity|]. unfold determineRoleSignificance.
  split; [|split].
  - intros H. destruct i; [lia|]. apply orb_false_r.
  - intros H. destruct i as [|[|[|i]]]; try lia; simpl;
      destruct (_ || _); discriminate.
  - intros H. destruct i as [|[|[|i]]]; try lia. reflexivity.
Qed.

Lemma identifyCareerTransitions_spec experience :
  length (identifyCareerTransitions experience) = pred (length experience)
  /\ forall i current previous,
       experience !! i = Some current ->
       experience !! S i = Some previous ->
       exists t,
         identifyCareerTransitions experience !! i = Some t
         /\ ct_from t = show (exp_title previous) +:+ " at " +:+ show (exp_company previous)
         /\ ct_to t = show (exp_title current) +:+ " at " +:+ show (exp_company current)
         /\ ct_type t = determineTransitionType previous current.
Proof.
  induction experience as [|e l IH]; [split; [reflexivity|discriminate]|].
  destruct l as [|e' l]; [split; [reflexivity|intros [|i]; discriminate]|].
  destruct IH as [IHlen IHat]. split.
  - cbn [identifyCareerTransitions length pred] in *. rewrite IHlen. reflexivity.
  - intros [|i] current previous Hc Hp.
    + injection Hc as <-. injection Hp as <-. eexists. split; [reflexivity|].
      cbn. auto.
    + apply (IHat i current previous Hc Hp).
Qed.

(** X17. [identifyCareerTransitions] yields one transition for each pair
    of neighbouring entries, from the later entry of the list (the
    earlier role) to the entry before it; a transition is a promotion
    exactly when the two companies are equal (two absent companies are),
    otherwise a career change when the earlier title mentions an engineer
    and the later one a manager, otherwise a company change; it is never
    an industry switch. *)
Theorem identifyCareerTransitions_pairs experience :
  let transitions := identifyCareerTransitions experience in
  length transitions = pred (length experience)
  /\ (forall i current previous,
        experience !! i = Some current ->
        experience !! S i = Some previous ->
        exists t,
          transitions !! i = Some t
          /\ ct_from t = show (exp_title previous) +:+ " at " +:+ show (exp_company previous)
          /\ ct_to t = show (exp_title current) +:+ " at " +:+ show (exp_company current)
          /\ (ct_type t = promotion <-> exp_company previous = exp_company current)
          /\ (ct_type t = career_change <->
              exp_company previous <> exp_company current
              /\ optIncludesCI "engineer" (exp_title previous) = true
              /\ optIncludesCI "manager" (exp_title current) = true))
  /\ Forall (fun t => ct_type t <> industry_switch) transitions.
Proof.
  intros transitions.
  destruct (identifyCareerTransitions_spec experience) as [Hlen Hat].
  split; [exact Hlen|]. split.
  - intros i current previous Hc Hp.
    destruct (Hat i current previous Hc Hp) as (t & Ht & Hfrom & Hto & Hty).
    exists t. split; [exact Ht|]. split; [exact Hfrom|]. split; [exact Hto|].
    rewrite Hty. unfold determineTransitionType.
    destruct (bool_decide (exp_company previous = exp_company current)) eqn:E.
    + apply bool_decide_eq_true in E. split; [tauto|].
      split; [discriminate|tauto].
    + apply bool_decide_eq_false in E.
      destruct (optIncludesCI "engineer" (exp_title previous));
        destruct (optIncludesCI "manager" (exp_title current)); simpl;
        (split; [split; [discriminate|tauto]|]);
        (split; [try discriminate; auto|]); try (intros (_ & ? & ?); discriminate);
        reflexivity.
  - unfold transitions. clear. induction experience as [|e [|e' l] IH];
      [constructor|constructor|].
    cbn [identifyCareerTransitions]. constructor; [|exact IH].
    cbn [ct_type]. unfold determineTransitionType.
    destruct (bool_decide _); [discriminate|]. destruct (_ && _); discriminate.
Qed.

End JourneyExtras.

Section TopicExtras.

Import JsString Js ProfileAnalysis SpecWords.

Variable Date_parse : string -> option Z.
Variable Date_now : Z.
Variable Number_toString : Q -> string.

Local Abbreviation analyzeProfileForRAG :=
  (analyzeProfileForRAG Date_parse Date_now Number_toString).

Lemma insertDesc_top {A} (key : A -> Q) x l :
  (forall y, (key y <= key x)%Q) -> insertDesc key x l = x :: l.
Proof.
  intros Htop. destruct l as [|y l]; [reflexivity|]. simpl.
  destruct (Qle_bool (key y) (key x)) eqn:E; [reflexivity|].
  apply Qle_bool_false in E. exfalso. exact (Qlt_not_le _ _ E (Htop y)).
Qed.

Lemma relevanceOrder_le_high t : (relevanceOrder t <= relevanceOrder high)%Q.
Proof. destruct t; discriminate. Qed.

Lemma filter_all {A} (p : A -> bool) l :
  Forall (fun x => p x = true) l -> List.filter p l = l.
Proof.
  induction 1 as [|x l Hx _ IH]; simpl; [reflexivity|]. rewrite Hx, IH. reflexivity.
Qed.

Lemma transitions_significant experience :
  Forall (fun t => truthy (ct_significance t) = true)
         (identifyCareerTransitions experience).
Proof.
  induction experience as [|e [|e' l] IH]; [constructor|constructor|].
  cbn [identifyCareerTransitions]. constructor; [reflexivity|exact IH].
Qed.

(** X18. The conversation topics of an analysed profile are never empty:
    the first one is always the topic on the current role, of high
    relevance, because the role and the company have defaults.  The
    topics are in descending order of relevance, and there is one for
    the industry if the profile has one, one for every career transition,
    one for the technical skills if there are any and one for the
    education if there is any. *)
Theorem conversationTopics_shape (profile : RawProfile) :
  let analysed := analyzeProfileForRAG profile in
  let topics := conversationTopics analysed in
  (exists first rest,
     topics = first :: rest
     /\ relevance first = high
     /\ topic first
        = "Current role at " +:+ orStr (currentCompany profile) "Current Company")
  /\ sortedDescending (List.map (fun t => relevanceOrder (relevance t)) topics)
  /\ length topics
     = (1 + (if truthyStr (industry profile) then 1 else 0)
        + pred (length (default [] (experience profile)))
        + (match technicalSkills (expertise analysed) with [] => 0 | _ => 1 end)
        + (match default [] (education profile) with [] => 0 | _ => 1 end))%nat.
Proof.
  intros analysed topics.
  unfold topics, analysed, ProfileAnalysis.analyzeProfileForRAG.
  cbn [conversationTopics expertise].
  unfold generateConversationTopics.
  cbn [pc_currentRole pc_currentCompany pc_industry extractPersonalContext
       keyTransitions analyzeProfessionalJourney technicalSkills
       extractExpertiseContext].
  rewrite !orStr_truthy by reflexivity. cbn [andb].
  rewrite (filter_all _ _ (transitions_significant _)).
  match goal with
  | |- context [sortDesc ?k ([?t0] ++ ?l0)] =>
      set (key := k); set (first := t0); set (others := l0)
  end.
  split; [|split].
  - exists first, (sortDesc key others). split; [|split; reflexivity].
    change (sortDesc key ([first] ++ others))
      with (insertDesc key first (sortDesc key others)).
    apply insertDesc_top. intros y. apply relevanceOrder_le_high.
  - apply (sortDesc_sorted key).
  - rewrite (Permutation_length (sortDesc_Permutation key _)).
    unfold others. rewrite !length_app, length_map.
    destruct (identifyCareerTransitions_spec (default [] (experience profile)))
      as [-> _].
    unfold truthyStr.
    destruct (industry profile) as [i|]; [destruct (truthy i)|];
      destruct (identifyTechnicalSkills (default [] (skills profile)));
      destruct (default [] (education profile)); cbn [length]; lia.
Qed.

End TopicExtras.

Section NetworkingExtras.

Import JsString Js ProfileAnalysis.

Variable Date_parse : string -> option Z.
Variable Date_now : Z.
Variable Number_toString : Q -> string.

Local Abbreviation analyzeProfileForRAG :=
  (analyzeProfileForRAG Date_parse Date_now Number_toString).

Lemma senior_from_eight (years : Q) experience :
  match determineCareerLevel years experience with
  | senior | executive => (8 <= years)%Q
  | _ => ~ (8 <= years)%Q
  end.
Proof.
  unfold determineCareerLevel.
  destruct (Qle_bool 15 years) eqn:E15.
  - apply Qle_bool_iff in E15. eapply Qle_trans; [|exact E15]. discriminate.
  - destruct (Qle_bool 8 years) eqn:E8; [apply Qle_bool_iff, E8|].
    apply Qle_bool_false in E8.
    destruct (Qle_bool 3 years); apply Qlt_not_le, E8.
Qed.

(** X19. The networking opportunities of an analysed profile are, in this
    order and each at most once, an industry connection (exactly when
    the profile has an industry), a skill synergy (exactly when some
    skill is a core skill), a career advice (exactly when the years of
    experience are at least 8) and an educational background (exactly
    when the education is not empty); a shared experience is never
    proposed. *)
Theorem networkingOpportunities_types (profile : RawProfile) :
  let analysed := analyzeProfileForRAG profile in
  let types := List.map no_type (networkingOpportunities analysed) in
  types `sublist_of`
    [industry_connection; skill_synergy; career_advice; educational_background]
  /\ (industry_connection ∈ types <-> truthyStr (industry profile) = true)
  /\ (skill_synergy ∈ types <-> coreSkills (expertise analysed) <> [])
  /\ (career_advice ∈ types
      <-> (8 <= pc_yearsOfExperience (personalInfo analysed))%Q)
  /\ (educational_background ∈ types <-> default [] (education profile) <> []).
Proof.
  intros analysed types.
  unfold types, analysed, ProfileAnalysis.analyzeProfileForRAG.
  cbn [networkingOpportunities expertise personalInfo].
  unfold identifyNetworkingOpportunities.
  cbn [pc_industry pc_careerLevel pc_yearsOfExperience extractPersonalContext
       coreSkills extractExpertiseContext].
  match goal with
  | |- context [determineCareerLevel ?y ?e] =>
      pose proof (senior_from_eight y e) as Hlevel; set (years := y) in *
  end.
  unfold truthyStr.
  assert (Hin : forall (x : OpportunityType) l, x ∈ l <-> In x l)
    by (intros; apply list_elem_of_In).
  destruct (industry profile) as [i|]; [destruct (truthy i)|];
    destruct (identifyCoreSkills (default [] (skills profile)));
    destruct (determineCareerLevel years (experience profile));
    destruct (default [] (education profile));
    cbn [List.map app no_type];
    (split; [repeat first [apply sublist_nil | apply sublist_skip
                          | apply sublist_cons]|]);
    rewrite !Hin; cbn [In];
    repeat split; intros; try discriminate; try tauto; try congruence;
    repeat match goal with
           | H : _ \/ _ |- _ => destruct H
           | H : False |- _ => destruct H
           end;
    try discriminate; try tauto.
Qed.

End NetworkingExtras.

Section SetExtras.

Import JsString Js ProfileAnalysis.

Lemma setAdd_NoDup x s : NoDup s -> NoDup (setAdd x s).
Proof.
  intros H. unfold setAdd. destruct (bool_decide (x ∈ s)) eqn:E; [exact H|].
  apply bool_decide_eq_false in E. apply NoDup_app. split; [exact H|].
  split; [|apply NoDup_singleton].
  intros y Hy Hx. apply list_elem_of_singleton in Hx as ->. exact (E Hy).
Qed.

Lemma elem_of_setAdd y x s : y ∈ setAdd x s <-> y ∈ s \/ y = x.
Proof.
  unfold setAdd. destruct (bool_decide (x ∈ s)) eqn:E.
  - apply bool_decide_eq_true in E. split; [auto|]. intros [H| ->]; assumption.
  - rewrite elem_of_app, list_elem_of_singleton. reflexivity.
Qed.

Lemma addIf_NoDup c x s : NoDup s -> NoDup (addIf c x s).
Proof. intros H. unfold addIf. destruct c; [apply setAdd_NoDup|]; exact H. Qed.

Lemma elem_of_addIf y c x s : y ∈ addIf c x s <-> y ∈ s \/ (c = true /\ y = x).
Proof.
  unfold addIf. destruct c.
  - rewrite elem_of_setAdd. tauto.
  - split; [auto|]. intros [H|[H _]]; [exact H|discriminate].
Qed.

(** A [forEach] that adds to a set the label of every rule whose condition
    holds of the element; the rules are listed from the last one tried to
    the first. *)
Lemma fold_rules {E} (rules : list ((E -> bool) * string)) (l : list E) :
  forall init : list string,
    let step := fun acc e => foldr (fun r acc => addIf (r.1 e) r.2 acc) acc rules in
    (NoDup init -> NoDup (fold_left step l init))
    /\ forall x, x ∈ fold_left step l init
                 <-> x ∈ init
                     \/ exists e r, e ∈ l /\ r ∈ rules /\ r.1 e = true /\ x = r.2.
Proof.
  intros init step.
  assert (Hstep : forall acc e,
            (NoDup acc -> NoDup (step acc e))
            /\ forall x, x ∈ step acc e
                         <-> x ∈ acc \/ exists r, r ∈ rules /\ r.1 e = true /\ x = r.2).
  { intros acc e. unfold step. clear step.
    induction rules as [|r rules [IHn IHx]]; cbn [foldr].
    - split; [auto|]. intros x. split; [auto|].
      intros [H|(r & Hr & _)]; [exact H|]. inversion Hr.
    - split; [intros H; apply addIf_NoDup, IHn, H|].
      intros x. rewrite elem_of_addIf, IHx. split.
      + intros [[H|(r' & Hr' & Hc & Hx)]|[Hc Hx]]; [auto| |].
        * right. exists r'. rewrite elem_of_cons. auto.
        * right. exists r. rewrite elem_of_cons. auto.
      + intros [H|(r' & Hr' & Hc & Hx)]; [auto|].
        apply elem_of_cons in Hr' as [->|Hr']; [auto|].
        left. right. exists r'. auto. }
  revert init. induction l as [|e l IH]; intros init; cbn [fold_left].
  - split; [auto|]. intros x. split; [auto|].
    intros [H|(e & _ & He & _)]; [exact H|]. inversion He.
  - destruct (IH (step init e)) as [IHn IHx]. destruct (Hstep init e) as [Hn Hx].
    split; [intros H; apply IHn, Hn, H|].
    intros x. rewrite IHx, Hx. split.
    + intros [[H|(r & Hr & Hc & Hxr)]|(e' & r & He' & Hr & Hc & Hxr)]; [auto| |].
      * right. exists e, r. rewrite elem_of_cons. auto.
      * right. exists e', r. rewrite elem_of_cons. auto.
    + intros [H|(e' & r & He' & Hr & Hc & Hxr)]; [auto|].
      apply elem_of_cons in He' as [->|He'].
      * left. right. exists r. auto.
      * right. exists e', r. auto.
Qed.


End SetExtras.

(** * The profile scraper *)

Section SubstringFacts.

Import JsString Js.

Lemma string_app_assoc (a b c : string) : (a +:+ b) +:+ c = a +:+ (b +:+ c).
Proof.
  induction a as [|x a IH]; [reflexivity|].
  change ((String x a +:+ b) +:+ c) with (String x ((a +:+ b) +:+ c)).
  rewrite IH. reflexivity.
Qed.

Lemma startsWith_app p s : startsWith p (p +:+ s) = true.
Proof.
  induction p as [|c p IH]; [destruct s; reflexivity|].
  change (String c p +:+ s) with (String c (p +:+ s)). simpl.
  rewrite Ascii.eqb_refl. exact IH.
Qed.

Lemma includes_unfold p s :
  includes p s
  = startsWith p s || match s with EmptyString => false | String _ s' => includes p s' end.
Proof. destruct s; reflexivity. Qed.

(** [s.includes(p)] holds exactly when [p] occurs in [s]. *)
Lemma includes_iff p s :
  includes p s = true <-> exists pre post, s = pre +:+ p +:+ post.
Proof.
  split.
  - induction s as [|c s IH]; rewrite includes_unfold; intros H;
      apply orb_true_iff in H as [H|H]; try discriminate.
    + apply startsWith_split in H as [rest ->]. exists EmptyString, rest. reflexivity.
    + apply startsWith_split in H as [rest ->]. exists EmptyString, rest. reflexivity.
    + destruct (IH H) as (pre & post & ->). exists (String c pre), post. reflexivity.
  - intros (pre & post & ->). induction pre as [|c pre IH].
    + rewrite includes_unfold.
      change (EmptyString +:+ p +:+ post) with (p +:+ post).
      rewrite startsWith_app. reflexivity.
    + change (String c pre +:+ p +:+ post) with (String c (pre +:+ p +:+ post)).
      rewrite includes_unfold, IH. apply orb_true_r.
Qed.

Lemma includes_trans a b s :
  includes a b = true -> includes b s = true -> includes a s = true.
Proof.
  intros Hab Hbs.
  apply includes_iff in Hab as (pre1 & post1 & ->).
  apply includes_iff in Hbs as (pre2 & post2 & ->).
  apply includes_iff. exists (pre2 +:+ pre1), (post1 +:+ post2).
  rewrite !string_app_assoc. reflexivity.
Qed.

(** A text that contains a keyword contains every part of the keyword. *)
Lemma includesCI_part part keyword s :
  includes part keyword = true ->
  includesCI keyword s = true -> includesCI part s = true.
Proof. unfold includesCI. apply includes_trans. Qed.

End SubstringFacts.

Section SkillFacts.

Import JsString Js StateMonad Scraper.

Local Abbreviation bucket skills :=
  (fun category : string =>
     List.filter (fun skill => String.eqb category (categoryOf skill)) skills).

Lemma push_spec category skill buckets :
  push category skill buckets
  = List.map (fun entry =>
                (fst entry,
                 snd entry ++ (if String.eqb (fst entry) category then [skill] else [])))
             buckets.
Proof.
  unfold push. apply map_ext. intros [c l]. simpl.
  destruct (String.eqb c category); [reflexivity|]. rewrite app_nil_r. reflexivity.
Qed.

(** The object [skillCategories] after the loop. *)
Lemma skillCategories_spec skills init :
  fold_left (fun skillCategories skill => push (categoryOf skill) skill skillCategories)
            skills init
  = List.map (fun entry => (fst entry, snd entry ++ bucket skills (fst entry))) init.
Proof.
  revert init. induction skills as [|skill skills IH]; intros init; cbn [fold_left].
  - cbn [List.filter]. rewrite <- (map_id init) at 1. apply map_ext.
    intros [c l]. simpl. rewrite app_nil_r. reflexivity.
  - rewrite IH, push_spec, map_map. apply map_ext. intros [c l].
    cbn [fst snd List.filter].
    destruct (String.eqb c (categoryOf skill)); rewrite <- app_assoc; reflexivity.
Qed.

Lemma categoryOf_known skill : categoryOf skill ∈ List.map fst categoryMappings.
Proof.
  unfold categoryOf.
  destruct (List.find _ categoryMappings) as [entry|] eqn:E.
  - apply find_some in E as [Hin _]. apply list_elem_of_In, in_map, Hin.
  - apply list_elem_of_In. cbn. tauto.
Qed.

Lemma filter_head {A} (f : A -> bool) x l :
  List.filter f (x :: l) = if f x then x :: List.filter f l else List.filter f l.
Proof. reflexivity. Qed.

Lemma buckets_Permutation (categories : list string) (skills : list string) :
  NoDup categories ->
  (forall skill, skill ∈ skills -> categoryOf skill ∈ categories) ->
  concat (List.map (bucket skills) categories) ≡ₚ skills.
Proof.
  intros Hnd. induction skills as [|x skills IH]; intros Hknown.
  - clear. induction categories as [|c categories IH]; [reflexivity|exact IH].
  - assert (Hx : categoryOf x ∈ categories) by (apply Hknown; left).
    specialize (IH (fun skill H => Hknown skill (list_elem_of_further _ _ _ H))).
    etransitivity; [|apply Permutation_skip, IH]. clear IH Hknown.
    induction Hnd as [|c categories Hc Hnd IHc]; [inversion Hx|].
    cbn [List.map concat]. cbn beta.
    rewrite (filter_head (fun skill => String.eqb c (categoryOf skill)) x skills).
    destruct (String.eqb c (categoryOf x)) eqn:E.
    + apply String.eqb_eq in E. subst c. cbn [app].
      apply Permutation_skip, Permutation_app_head.
      assert (Hsame : forall cs, categoryOf x ∉ cs ->
                List.map (bucket (x :: skills)) cs = List.map (bucket skills) cs).
      { intros cs Hcs. apply map_ext_in. intros c Hin. cbn [List.filter].
        destruct (String.eqb c (categoryOf x)) eqn:E; [|reflexivity].
        apply String.eqb_eq in E. subst c. exfalso. apply Hcs, list_elem_of_In, Hin. }
      rewrite (Hsame _ Hc). reflexivity.
    + apply String.eqb_neq in E.
      apply elem_of_cons in Hx as [Hx|Hx]; [congruence|].
      rewrite (IHc Hx). symmetry. apply Permutation_middle.
Qed.

Lemma concat_nonempty (entries : list (string * list string)) :
  concat (List.map snd (List.filter (fun entry => (0 <? length (snd entry))%nat) entries))
  = concat (List.map snd entries).
Proof.
  induction entries as [|[c l] entries IH]; [reflexivity|].
  rewrite filter_head. cbn [snd]. destruct l as [|x l].
  - change (0 <? length (@nil string))%nat with false. cbv iota.
    rewrite IH. reflexivity.
  - change (0 <? length (x :: l))%nat with true. cbv iota.
    cbn [List.map concat snd]. rewrite IH. reflexivity.
Qed.

Lemma unitInterval_next src :
  Random.unitInterval src ->
  (0 <= fst (Random.next src) < 1)%Q /\ Random.unitInterval (snd (Random.next src)).
Proof. intros H. split; [apply H|exact H]. Qed.

Lemma endorsements_range r : (0 <= r < 1)%Q -> 10 <= Qfloor (r * 50) + 10 <= 59.
Proof.
  intros [H0 H1].
  assert (0 <= Qfloor (r * 50)).
  { change 0 with (Qfloor 0). apply Qfloor_resp_le.
    apply Qmult_le_0_compat; [exact H0|discriminate]. }
  assert (Qfloor (r * 50) < 50); [|lia].
  rewrite Zlt_Qlt. eapply Qle_lt_trans; [apply Qfloor_le|].
  change (inject_Z 50) with (1 * 50)%Q.
  apply Qmult_lt_compat_r; [reflexivity|exact H1].
Qed.

Lemma categorized_entries (entries : list (string * list string)) src :
  Forall2 (fun entry c =>
             sc_category c = fst entry /\ sc_skills c = snd entry
             /\ proficiencyLevel c = proficiencyOf (snd entry))
          entries
          (fst (mapM (fun entry =>
                        let* r := Random.next in
                        ret {| sc_category := fst entry;
                               sc_skills := snd entry;
                               proficiencyLevel := proficiencyOf (snd entry);
                               endorsements := Qfloor (r * 50) + 10 |})
                     entries src)).
Proof.
  revert src. induction entries as [|entry entries IH]; intros src; [constructor|].
  cbn [mapM]. unfold bind at 1. unfold bind at 1.
  destruct (Random.next src) as [r src1]. unfold ret at 1. unfold bind at 1.
  specialize (IH src1). destruct (mapM _ entries src1) as [cs src2].
  cbn [fst snd ret] in *. constructor; [|exact IH].
  cbn. auto.
Qed.

Lemma categorized_endorsements (entries : list (string * list string)) src :
  Random.unitInterval src ->
  Forall (fun c => 10 <= endorsements c <= 59)
         (fst (mapM (fun entry =>
                       let* r := Random.next in
                       ret {| sc_category := fst entry;
                              sc_skills := snd entry;
                              proficiencyLevel := proficiencyOf (snd entry);
                              endorsements := Qfloor (r * 50) + 10 |})
                    entries src)).
Proof.
  revert src. induction entries as [|entry entries IH]; intros src Hunit;
    [constructor|].
  cbn [mapM]. unfold bind at 1. unfold bind at 1.
  destruct (unitInterval_next src Hunit) as [Hr Hnext].
  destruct (Random.next src) as [r src1]. unfold ret at 1. unfold bind at 1.
  specialize (IH src1 Hnext). destruct (mapM _ entries src1) as [cs src2].
  cbn [fst snd ret] in *. constructor; [|exact IH].
  cbn. apply endorsements_range, Hr.
Qed.

Lemma categorizeSkills_structure profile src :
  let skills := default [] (skills profile) in
  let result := fst (categorizeSkills profile src) in
  concat (List.map sc_skills result) ≡ₚ skills
  /\ List.map sc_category result `sublist_of` List.map fst categoryMappings
  /\ Forall (fun c =>
               sc_skills c <> []
               /\ sc_skills c
                  = List.filter (fun skill => String.eqb (sc_category c) (categoryOf skill))
                                skills
               /\ proficiencyLevel c = proficiencyOf (sc_skills c))
            result.
Proof.
  intros skills result.
  unfold result, categorizeSkills. fold skills.
  set (names := List.map fst categoryMappings).
  set (buckets := List.map (fun c => (c, bucket skills c)) names).
  assert (Hb : fold_left (fun skillCategories skill =>
                            push (categoryOf skill) skill skillCategories)
                         skills emptyCategories
               = buckets)
    by (rewrite skillCategories_spec; reflexivity).
  rewrite Hb. clear Hb.
  set (entries := List.filter (fun entry => (0 <? length (snd entry))%nat) buckets).
  match goal with
  | |- context [fst (mapM ?f entries src)] =>
      pose proof (categorized_entries entries src
                  : Forall2 _ entries (fst (mapM f entries src))) as Hall;
      set (cs := fst (mapM f entries src)) in *
  end.
  assert (Hboth : List.map sc_category cs = List.map fst entries
                  /\ List.map sc_skills cs = List.map snd entries).
  { clearbody cs.
    induction Hall as [|e c es cs' (Hc & Hs & _) _ [IH1 IH2]]; [split; reflexivity|].
    cbn [List.map]. rewrite Hc, Hs, IH1, IH2. split; reflexivity. }
  destruct Hboth as [Hcat Hsk].
  split; [|split].
  - rewrite Hsk. unfold entries. rewrite concat_nonempty. unfold buckets.
    rewrite map_map. cbn [snd].
    apply buckets_Permutation.
    + apply (bool_decide_unpack _). reflexivity.
    + intros skill _. apply categoryOf_known.
  - rewrite Hcat. unfold entries.
    replace names with (List.map fst buckets)
      by (unfold buckets; rewrite map_map; apply map_id).
    change (List.map fst) with (fmap (M := list) (@fst string (list string))).
    apply fmap_sublist, filter_sublist.
  - assert (Hentries : Forall (fun entry =>
                          snd entry <> [] /\ snd entry = bucket skills (fst entry))
                         entries).
    { apply Forall_forall. intros entry Hin. unfold entries in Hin.
      apply elem_of_filter in Hin as [Hin Hlen]. split.
      - intros E. rewrite E in Hlen. discriminate.
      - unfold buckets in Hin. apply list_elem_of_fmap in Hin as (c & -> & _).
        reflexivity. }
    clearbody cs. clear Hcat Hsk.
    induction Hall as [|e c es cs' (Hc & Hs & Hp) _ IH]; [constructor|].
    apply Forall_cons in Hentries as [[Hne Hb] Hrest].
    constructor; [|apply IH, Hrest].
    rewrite Hc, Hs, Hp. auto.
Qed.


Lemma go_first skill :
  includesCI "go" skill = true -> categoryOf skill = "Programming Languages"%string.
Proof.
  intros H. unfold categoryOf, categoryMappings. cbn [List.find snd].
  assert (E : existsb (fun keyword => includesCI keyword skill)
                ["javascript"; "python"; "java"; "typescript"; "go"; "rust"; "c++";
                 "c#"; "php"; "ruby"; "swift"; "kotlin"]%string = true).
  { apply existsb_exists. exists "go"%string. split; [|exact H]. cbn. tauto. }
  rewrite E. reflexivity.
Qed.

(** X22. The keyword "go" of the first category shadows keywords of later
    categories that contain it: a skill that mentions django or mongodb
    (in any case) is never listed under "Frameworks & Libraries" or
    "Databases"; the category that holds it is "Programming Languages". *)
Theorem go_shadows_later_keywords profile src skill c :
  includesCI "django" skill = true \/ includesCI "mongodb" skill = true ->
  c ∈ fst (categorizeSkills profile src) ->
  skill ∈ sc_skills c ->
  sc_category c = "Programming Languages"%string.
Proof.
  intros Hkey Hc Hskill.
  assert (Hgo : includesCI "go" skill = true).
  { destruct Hkey as [H|H]; refine (includesCI_part "go" _ skill _ H); reflexivity. }
  destruct (categorizeSkills_structure profile src) as (_ & _ & Hall).
  rewrite Forall_forall in Hall. destruct (Hall c Hc) as (_ & Heq & _).
  rewrite Heq in Hskill. apply elem_of_filter in Hskill as [_ Hcat].
  apply String.eqb_eq in Hcat. rewrite Hcat. apply go_first, Hgo.
Qed.

End SkillFacts.

Section CareerFacts.

Import JsString Js Scraper.

Variable Date_parse : string -> option Z.
Variable Date_now : Z.

Local Abbreviation analyzeCareerProgression :=
  (analyzeCareerProgression Date_parse Date_now).

(** X23. The keyword "cto" of the C-level titles shadows the keyword
    "director" of the executive titles, which contains it: a profile
    whose current role (or, without one, whose title) mentions a director
    is classified as C-level, never as executive. *)
Theorem director_is_c_level profile :
  includesCI "director"
    (orStr (orOpt (currentRole profile) (title profile)) EmptyString) = true ->
  careerLevel (analyzeCareerProgression profile) = C_Level.
Proof.
  intros H. unfold Scraper.analyzeCareerProgression. cbn [careerLevel].
  set (currentTitle :=
         toLowerCase (orStr (orOpt (currentRole profile) (title profile)) EmptyString)).
  assert (E : existsb (fun title => includes title currentTitle) cLevelTitles = true).
  { apply existsb_exists. exists "cto"%string. split; [cbn; tauto|].
    refine (includes_trans "cto" "director" currentTitle _ H). reflexivity. }
  rewrite E. reflexivity.
Qed.

Lemma remove_dups_length (l : list string) :
  (length (remove_dups l) <= length l)%nat
  /\ (l <> [] -> 1 <= length (remove_dups l))%nat.
Proof.
  split.
  - induction l as [|x l IH]; [reflexivity|]. cbn [remove_dups].
    destruct (decide_rel elem_of x l); cbn [length]; lia.
  - intros Hne. destruct l as [|x l]; [congruence|].
    assert (Hx : x ∈ remove_dups (x :: l)) by (apply elem_of_remove_dups; left).
    destruct (remove_dups (x :: l)); [inversion Hx|cbn [length]; lia].
Qed.

(** X24. [industryChanges] is the number of distinct companies of the
    experience minus one: it lies between -1 and the number of entries
    minus one, and it is -1 exactly when there is no experience.  The
    growth pattern is "Rapid" exactly when the promotion rate, the years
    per entry, is below 2; in particular a profile without experience
    has promotion rate 0, the pattern "Rapid", no role transition and no
    leadership progression. *)
Theorem careerProgression_changes profile :
  let experience := default [] (experience profile) in
  let progression := analyzeCareerProgression profile in
  industryChanges progression
  = Z.of_nat (length (remove_dups (List.map we_company experience))) - 1
  /\ -1 <= industryChanges progression < Z.of_nat (length experience)
  /\ (industryChanges progression = -1 <-> experience = [])
  /\ roleTransitions progression = List.map we_title experience
  /\ (careerGrowthPattern progression = Rapid
      <-> (promotionRate progression < 2)%Q)
  /\ (experience = [] ->
      promotionRate progression = 0%Q
      /\ careerGrowthPattern progression = Rapid
      /\ leadershipProgression progression = false).
Proof.
  intros experience progression.
  unfold progression, Scraper.analyzeCareerProgression.
  cbn [industryChanges roleTransitions careerGrowthPattern promotionRate
       leadershipProgression].
  fold experience.
  destruct (remove_dups_length (List.map we_company experience)) as [Hle Hge].
  rewrite length_map in Hle.
  split; [reflexivity|]. split; [lia|]. split; [|split; [reflexivity|split]].
  - split.
    + intros H. destruct experience as [|e l]; [reflexivity|].
      assert (List.map we_company (e :: l) <> []) as Hne by discriminate.
      specialize (Hge Hne). lia.
    + intros ->. reflexivity.
  - match goal with
    | |- context [if negb (Qle_bool 2 ?rate) then _ else _] => set (r := rate)
    end.
    destruct (Qle_bool 2 r) eqn:E; cbn [negb].
    + apply Qle_bool_iff in E. split.
      * intros H. exfalso. revert H.
        destruct (2 <? _); [discriminate|]. destruct (existsb _ _); discriminate.
      * intros H. exfalso. exact (Qlt_not_le _ _ H E).
    + apply Qle_bool_false in E. split; [intros _; exact E|reflexivity].
  - intros ->. cbn. auto.
Qed.

End CareerFacts.

Section QualityFacts.

Import JsString Js Scraper.

Variable Date_toISOString : string.

Local Abbreviation assessDataQuality := (assessDataQuality Date_toISOString).

Lemma filter_split_length {A} (p : A -> bool) (l : list A) :
  (length (List.filter p l) + length (List.filter (fun x => negb (p x)) l)
   = length l)%nat.
Proof.
  induction l as [|x l IH]; [reflexivity|]. cbn [List.filter].
  destruct (p x); cbn [negb length]; lia.
Qed.

Lemma round_tenths (n : nat) :
  Math_round (inject_Z (Z.of_nat n) / inject_Z (Z.of_nat (length fields)) * 100)
  = 10 * Z.of_nat n.
Proof.
  unfold Math_round.
  assert (E : (inject_Z (Z.of_nat n) / inject_Z (Z.of_nat (length fields)) * 100
               + (1 # 2)
               == (20 * Z.of_nat n + 1) # 2)%Q).
  { unfold Qeq, Qdiv, Qmult, Qplus, Qinv, inject_Z. simpl. lia. }
  rewrite E. unfold Qfloor.
  change (Z.pos 2) with 2.
  replace (20 * Z.of_nat n + 1) with (1 + (10 * Z.of_nat n) * 2) by lia.
  rewrite Z.div_add by lia. reflexivity.
Qed.

(** X25. [assessDataQuality] scores ten fields at ten points each: the
    completeness is ten times the number of fields that are present, the
    missing fields are the others, in the order of the field list, so
    that the completeness and ten points for each missing field add up to
    100.  A text field counts as present when it is not empty; an array
    field (skills, experience, education) counts as present even when it
    is empty. *)
Theorem assessDataQuality_completeness profile :
  let quality := assessDataQuality profile in
  completeness quality = 10 * Z.of_nat (length (List.filter (fieldPresent profile) fields))
  /\ completeness quality + 10 * Z.of_nat (length (missingFields quality)) = 100
  /\ 0 <= completeness quality <= 100
  /\ missingFields quality `sublist_of` fields
  /\ (forall field, field ∈ missingFields quality
                    <-> field ∈ fields /\ fieldPresent profile field = false)
  /\ ("skills"%string ∈ missingFields quality <-> skills profile = None)
  /\ ("bio"%string ∈ missingFields quality
      <-> bio profile = None \/ bio profile = Some EmptyString).
Proof.
  intros quality. unfold quality, Scraper.assessDataQuality.
  cbn [completeness missingFields].
  pose proof (filter_split_length (fieldPresent profile) fields) as Hlen.
  change (length fields) with 10%nat in Hlen.
  rewrite round_tenths.
  assert (Hmem : forall field,
            field ∈ List.filter (fun field => negb (fieldPresent profile field)) fields
            <-> field ∈ fields /\ fieldPresent profile field = false).
  { intros field. rewrite elem_of_filter, negb_true_iff. reflexivity. }
  split; [reflexivity|]. split; [lia|]. split; [lia|].
  split; [apply filter_sublist|]. split; [exact Hmem|]. split.
  - rewrite Hmem.
    change (fieldPresent profile "skills") with (bool_decide (is_Some (skills profile))).
    split.
    + intros [_ H]. destruct (skills profile); [|reflexivity].
      apply bool_decide_eq_false in H. exfalso. apply H. eauto.
    + intros ->. split; [|reflexivity].
      apply list_elem_of_In. cbn. tauto.
  - rewrite Hmem.
    change (fieldPresent profile "bio") with (truthyStr (bio profile)).
    split.
    + intros [_ H]. destruct (bio profile) as [[|c s]|]; auto. discriminate.
    + intros H. split; [apply list_elem_of_In; cbn; tauto|].
      destruct H as [-> | ->]; reflexivity.
Qed.

End QualityFacts.

Section RecommendationFacts.

Import JsString Js Scraper.

Lemma pushIf_sublist cond items l full :
  l `sublist_of` full -> pushIf cond items l `sublist_of` full ++ items.
Proof.
  intros H. unfold pushIf. destruct cond.
  - apply sublist_app; [exact H|reflexivity].
  - rewrite <- (app_nil_r l). apply sublist_app; [exact H|apply sublist_nil_l].
Qed.

(** A list of recommendations: what was pushed, or the defaults when
    nothing was, cut to [k] entries. *)
Lemma recommended_bounded (k : Z) (defaults pushed full : list string) :
  0 < k -> defaults <> [] -> NoDup defaults -> NoDup full ->
  pushed `sublist_of` full ->
  let l := slice0 k (orDefault defaults pushed) in
  l <> [] /\ NoDup l /\ Z.of_nat (length l) <= k.
Proof.
  intros Hk Hd Hnd Hfull Hsub l.
  assert (Hne : orDefault defaults pushed <> [])
    by (unfold orDefault; destruct pushed; [exact Hd|discriminate]).
  assert (Hdup : NoDup (orDefault defaults pushed)).
  { unfold orDefault. destruct pushed; [exact Hnd|].
    apply (sublist_NoDup _ _ Hfull Hsub). }
  split; [|split].
  - unfold l, slice0. destruct (k <? 0) eqn:E; [apply Z.ltb_lt in E; lia|].
    destruct (orDefault defaults pushed) as [|x rest]; [congruence|].
    destruct (Z.to_nat k) eqn:En; [lia|]. discriminate.
  - apply (sublist_NoDup _ _ Hdup), slice0_sublist.
  - apply slice0_length_le. lia.
Qed.

Ltac pushed_sublist :=
  repeat match goal with
         | |- pushIf _ ?items _ `sublist_of` _ =>
             refine (pushIf_sublist _ items _ _ _)
         end;
  reflexivity.

(** X26. Each of the four lists of [generateTechnologyRecommendations] has
    at least one entry (the defaults step in when no rule fires), lists no
    entry twice and has at most 4, 3, 4 and 3 entries. *)
Theorem recommendations_bounded profile :
  let r := generateTechnologyRecommendations profile in
  (emergingTechnologies r <> [] /\ NoDup (emergingTechnologies r)
   /\ Z.of_nat (length (emergingTechnologies r)) <= 4)
  /\ (skillGaps r <> [] /\ NoDup (skillGaps r)
      /\ Z.of_nat (length (skillGaps r)) <= 3)
  /\ (industryTrends r <> [] /\ NoDup (industryTrends r)
      /\ Z.of_nat (length (industryTrends r)) <= 4)
  /\ (learningPaths r <> [] /\ NoDup (learningPaths r)
      /\ Z.of_nat (length (learningPaths r)) <= 3).
Proof.
  intros r. unfold r, generateTechnologyRecommendations.
  cbn [emergingTechnologies skillGaps industryTrends learningPaths].
  split; [|split; [|split]];
    (eapply recommended_bounded;
     [ lia | discriminate | apply (bool_decide_unpack _); reflexivity
     | | pushed_sublist ];
     apply (bool_decide_unpack _); reflexivity).
Qed.

End RecommendationFacts.

(** * The years handed to the question service *)

Section YearsFacts.

Import JsString Js AiService.

Lemma span_digits digits rest :
  allChars isDigit digits = true ->
  match rest with EmptyString => true | String c _ => negb (isDigit c) end = true ->
  span isDigit (digits +:+ rest) = (digits, rest).
Proof.
  intros Hd Hr. induction digits as [|c digits IH].
  - change (EmptyString +:+ rest) with rest. destruct rest as [|c rest]; [reflexivity|].
    cbn [span]. apply negb_true_iff in Hr. rewrite Hr. reflexivity.
  - change (String c digits +:+ rest) with (String c (digits +:+ rest)).
    cbn [allChars] in Hd. apply andb_true_iff in Hd as [Hc Hd].
    cbn [span]. rewrite Hc, (IH Hd). reflexivity.
Qed.

(** No white-space character starts with a digit. *)
Lemma spaceWidth_digit c s : isDigit c = true -> spaceWidth (String c s) = O.
Proof.
  intros Hc. unfold isDigit, between in Hc.
  apply andb_true_iff in Hc as [H1 H2]. apply N.leb_le in H1, H2.
  unfold spaceWidth, isSpace, between.
  replace (9 <=? code c)%N with true by (symmetry; apply N.leb_le; lia).
  replace (code c <=? 13)%N with false by (symmetry; apply N.leb_gt; lia).
  replace (code c =? 32)%N with false by (symmetry; apply N.eqb_neq; lia).
  replace (code c =? 194)%N with false by (symmetry; apply N.eqb_neq; lia).
  replace (code c =? 225)%N with false by (symmetry; apply N.eqb_neq; lia).
  replace (code c =? 226)%N with false by (symmetry; apply N.eqb_neq; lia).
  replace (code c =? 227)%N with false by (symmetry; apply N.eqb_neq; lia).
  replace (code c =? 239)%N with false by (symmetry; apply N.eqb_neq; lia).
  reflexivity.
Qed.

(** [parseInt] reads the number in front of a space, whatever follows. *)
Lemma parseInt_leading digits more :
  truthy digits = true -> allChars isDigit digits = true ->
  Number_parseInt (digits +:+ " " +:+ more) = Num (parseInt digits).
Proof.
  intros Ht Hd. destruct digits as [|c digits]; [discriminate|].
  cbn [allChars] in Hd. apply andb_true_iff in Hd as [Hc Hd].
  unfold Number_parseInt.
  change (String c digits +:+ " " +:+ more)
    with (String c (digits +:+ String " " more)).
  assert (Hskip : skipSpaces (String c (digits +:+ String " " more))
                  = String c (digits +:+ String " " more)).
  { unfold skipSpaces, spanSpaces. cbn [spanSpacesFrom].
    rewrite (spaceWidth_digit _ _ Hc). reflexivity. }
  rewrite Hskip.
  assert (Hnot : forall a, isDigit a = false ->
            startsWith (String a EmptyString) (String c (digits +:+ String " " more))
            = false).
  { intros a Ha. cbn [startsWith]. destruct (Ascii.eqb a c) eqn:E; [|reflexivity].
    apply Ascii.eqb_eq in E. subst a. congruence. }
  rewrite !Hnot by reflexivity. cbn [orb].
  assert (Hhex : forall x, isDigit x = false -> Ascii.eqb x " " = false ->
            startsWith (String "0" (String x EmptyString))
              (String c (digits +:+ String " " more)) = false).
  { intros x Hx Hxs. cbn [startsWith]. destruct (Ascii.eqb "0" c); [|reflexivity].
    destruct digits as [|d digits].
    - change (EmptyString +:+ String " " more) with (String " " more).
      cbn [startsWith]. rewrite Hxs. reflexivity.
    - change (String d digits +:+ String " " more)
        with (String d (digits +:+ String " " more)).
      cbn [startsWith]. destruct (Ascii.eqb x d) eqn:E; [|reflexivity].
      apply Ascii.eqb_eq in E. subst x.
      cbn [allChars] in Hd. apply andb_true_iff in Hd as [Hd _]. congruence. }
  rewrite !Hhex by reflexivity. cbn [orb].
  change (String c (digits +:+ String " " more))
    with (String c digits +:+ String " " more).
  rewrite span_digits;
    [cbn [fst truthy]; rewrite Z.mul_1_l; reflexivity| |reflexivity].
  cbn [allChars]. rewrite Hc, Hd. reflexivity.
Qed.

Lemma parseInt_letter c rest :
  isUpper c || isLower c = true -> Number_parseInt (String c rest) = NaN.
Proof.
  intros H.
  destruct c as [[] [] [] [] [] [] [] []]; try discriminate H; reflexivity.
Qed.

Lemma add_NaN_l (l : list ScrapedExperience) :
  fold_left (fun total exp => add total (yearsOf exp)) l NaN = NaN.
Proof. induction l as [|e l IH]; [reflexivity|exact IH]. Qed.

Lemma total_NaN (l : list ScrapedExperience) e total :
  e ∈ l -> yearsOf e = NaN ->
  fold_left (fun total exp => add total (yearsOf exp)) l total = NaN.
Proof.
  intros Hin He. revert total. induction l as [|x l IH]; intros total; [inversion Hin|].
  cbn [fold_left]. apply elem_of_cons in Hin as [->|Hin].
  - rewrite He. destruct total; apply add_NaN_l.
  - apply IH, Hin.
Qed.

Lemma total_numbers (l : list ScrapedExperience) (numbers : list Z) total :
  List.map yearsOf l = List.map Num numbers ->
  fold_left (fun total exp => add total (yearsOf exp)) l (Num total)
  = Num (total + foldr Z.add 0 numbers).
Proof.
  revert numbers total. induction l as [|e l IH]; intros numbers total H.
  - destruct numbers; [|discriminate]. cbn. f_equal. lia.
  - destruct numbers as [|n numbers]; [discriminate|].
    cbn [List.map] in H. injection H as He Hl.
    cbn [fold_left foldr]. rewrite He. cbn [add]. rewrite (IH numbers _ Hl).
    f_equal. lia.
Qed.

(** X27. The years of experience handed to the question service are the
    sum of the numbers that the durations start with, whatever their
    unit: when every duration is a number followed by a space and some
    text (as in "11 mos" or "1 yr 6 mos"), the total is the sum of these
    numbers, so that months count as years; and when the total is not 0
    the seniority is read off it with the bounds 3, 7 and 12. *)
Theorem yearsOfExperience_leading_numbers profile exps
    (durations : list (string * string)) :
  experience profile = Some exps ->
  List.map se_duration exps
  = List.map (fun d => Some (fst d +:+ " " +:+ snd d)) durations ->
  Forall (fun d => truthy (fst d) = true /\ allChars isDigit (fst d) = true)
         durations ->
  let total := foldr Z.add 0 (List.map (fun d => parseInt (fst d)) durations) in
  yearsOfExperience profile = Some (Num total)
  /\ IntelligentQuestionService.yearsOfExperience (profileContext profile)
     = Some (inject_Z total)
  /\ (total <> 0 ->
      IntelligentQuestionService.seniorityLevel
        (IntelligentQuestionService.analyzeProfile (profileContext profile))
      = if total <? 3 then IntelligentQuestionService.entry
        else if total <? 7 then IntelligentQuestionService.mid
        else if total <? 12 then IntelligentQuestionService.senior
        else IntelligentQuestionService.executive).
Proof.
  intros Hexp Hdur Hall total.
  assert (Hyears : yearsOfExperience profile = Some (Num total)).
  { unfold yearsOfExperience. rewrite Hexp. f_equal.
    rewrite (total_numbers exps (List.map (fun d => parseInt (fst d)) durations) 0);
      [reflexivity|].
    rewrite map_map. clear Hexp. revert exps Hdur.
    induction Hall as [|d durations [Ht Hd] _ IH]; intros exps Hdur.
    - destruct exps; [reflexivity|discriminate].
    - destruct exps as [|e exps]; [discriminate|].
      cbn [List.map] in *. injection Hdur as He Hrest.
      rewrite (IH exps Hrest). f_equal.
      unfold yearsOf. rewrite He.
      assert (Htr : truthy (fst d +:+ " " +:+ snd d) = true).
      { destruct (fst d); [discriminate|reflexivity]. }
      rewrite Htr. apply parseInt_leading; assumption. }
  split; [exact Hyears|].
  assert (Hctx : IntelligentQuestionService.yearsOfExperience (profileContext profile)
                 = Some (inject_Z total)).
  { unfold profileContext. cbn [IntelligentQuestionService.yearsOfExperience].
    rewrite Hyears. reflexivity. }
  split; [exact Hctx|].
  intros Hne. unfold IntelligentQuestionService.analyzeProfile.
  cbn [IntelligentQuestionService.seniorityLevel]. rewrite Hctx.
  unfold IntelligentQuestionService.determineSeniority, qtruthy.
  assert (Hz : Qeq_bool (inject_Z total) 0 = false).
  { destruct (Qeq_bool (inject_Z total) 0) eqn:E; [|reflexivity].
    apply Qeq_bool_iff in E. exfalso. apply Hne.
    unfold Qeq in E. simpl in E. lia. }
  rewrite Hz. cbn [negb].
  assert (Hcmp : forall k : Z, negb (Qle_bool (inject_Z k) (inject_Z total))
                               = (total <? k)).
  { intros k. destruct (total <? k) eqn:E.
    - apply Z.ltb_lt in E. apply negb_true_iff, Qle_bool_false.
      rewrite <- Zlt_Qlt. exact E.
    - apply Z.ltb_ge in E. apply negb_false_iff, Qle_bool_iff.
      rewrite <- Zle_Qle. exact E. }
  change 3%Q with (inject_Z 3). change 7%Q with (inject_Z 7).
  change 12%Q with (inject_Z 12). rewrite !Hcmp. reflexivity.
Qed.

(** X28. One duration that starts with a letter, such as a date range
    ("Jan 2020 - Present"), turns the years of experience handed to the
    question service into [NaN], whatever the other entries hold; the
    seniority is then read off the title alone. *)
Theorem yearsOfExperience_not_a_number profile exps e c rest :
  experience profile = Some exps ->
  e ∈ exps ->
  se_duration e = Some (String c rest) ->
  isUpper c || isLower c = true ->
  yearsOfExperience profile = Some NaN
  /\ IntelligentQuestionService.yearsOfExperience (profileContext profile) = None
  /\ IntelligentQuestionService.seniorityLevel
       (IntelligentQuestionService.analyzeProfile (profileContext profile))
     = IntelligentQuestionService.seniorityFromTitle (title profile).
Proof.
  intros Hexp Hin Hd Hc.
  assert (Hyears : yearsOfExperience profile = Some NaN).
  { unfold yearsOfExperience. rewrite Hexp. f_equal.
    apply (total_NaN exps e _ Hin). unfold yearsOf. rewrite Hd.
    cbn [truthy]. apply parseInt_letter, Hc. }
  split; [exact Hyears|].
  assert (Hctx : IntelligentQuestionService.yearsOfExperience (profileContext profile)
                 = None).
  { unfold profileContext. cbn [IntelligentQuestionService.yearsOfExperience].
    rewrite Hyears. reflexivity. }
  split; [exact Hctx|].
  unfold IntelligentQuestionService.analyzeProfile.
  cbn [IntelligentQuestionService.seniorityLevel]. rewrite Hctx. reflexivity.
Qed.

End YearsFacts.

(** * The scraper and the icebreaker service on sample profiles *)

Section ScrapedSampleFacts.

Import JsString Js ProfileAnalysis.

Lemma calculateExperienceYears_monotone_sample :
  (calculateExperienceYears parseMonthYear 0 (Some [Samples.lasting "9 mos"])
   <= calculateExperienceYears parseMonthYear 0
        (Some [Samples.lasting "1 yr 6 mos"; Samples.lasting "9 mos"]))%Q.
Proof.
  refine (proj1 (calculateExperienceYears_monotone parseMonthYear 0
                   [Samples.lasting "9 mos"]
                   [Samples.lasting "1 yr 6 mos"; Samples.lasting "9 mos"] _)).
  apply submseteq_cons. reflexivity.
Defined.


Lemma go_shadows_later_keywords_sample :
  let programming :=
    {| Scraper.sc_category := "Programming Languages";
       Scraper.sc_skills := ["Django"; "MongoDB"]%string;
       Scraper.proficiencyLevel := Scraper.Intermediate;
       Scraper.endorsements := 55 |} in
  programming ∈ fst (Scraper.categorizeSkills ScrapedSamples.director Samples.dice)
  /\ Scraper.sc_category programming = "Programming Languages"%string.
Proof.
  intros programming.
  assert (Hin : programming
                ∈ fst (Scraper.categorizeSkills ScrapedSamples.director Samples.dice))
    by (vm_compute; left).
  split; [exact Hin|].
  apply (go_shadows_later_keywords ScrapedSamples.director Samples.dice
           "MongoDB" programming).
  - right. reflexivity.
  - exact Hin.
  - vm_compute. right. left.
Defined.

Lemma director_is_c_level_sample :
  Scraper.careerLevel
    (Scraper.analyzeCareerProgression parseMonthYear 0 ScrapedSamples.director)
  = Scraper.C_Level.
Proof.
  apply (director_is_c_level parseMonthYear 0 ScrapedSamples.director).
  reflexivity.
Defined.

Lemma yearsOfExperience_leading_numbers_sample :
  AiService.yearsOfExperience
    (ScrapedSamples.scraped
       [ScrapedSamples.lasting "11 mos"; ScrapedSamples.lasting "1 yr 6 mos"])
  = Some (AiService.Num 12).
Proof.
  refine (proj1 (yearsOfExperience_leading_numbers
                   (ScrapedSamples.scraped
                      [ScrapedSamples.lasting "11 mos";
                       ScrapedSamples.lasting "1 yr 6 mos"])
                   [ScrapedSamples.lasting "11 mos"; ScrapedSamples.lasting "1 yr 6 mos"]
                   [("11", "mos"); ("1", "yr 6 mos")]%string _ _ _)).
  - reflexivity.
  - reflexivity.
  - repeat constructor.
Defined.

Lemma yearsOfExperience_not_a_number_sample :
  AiService.yearsOfExperience
    (ScrapedSamples.scraped
       [ScrapedSamples.lasting "2 yrs"; ScrapedSamples.lasting "Jan 2020 - Present"])
  = Some AiService.NaN.
Proof.
  refine (proj1 (yearsOfExperience_not_a_number
                   (ScrapedSamples.scraped
                      [ScrapedSamples.lasting "2 yrs";
                       ScrapedSamples.lasting "Jan 2020 - Present"])
                   [ScrapedSamples.lasting "2 yrs";
                    ScrapedSamples.lasting "Jan 2020 - Present"]
                   (ScrapedSamples.lasting "Jan 2020 - Present")
                   "J" "an 2020 - Present" _ _ _ _)).
  - reflexivity.
  - right. left.
  - reflexivity.
  - reflexivity.
Defined.

End ScrapedSampleFacts.

(** * The two readers of duration strings *)

Section ParserFacts.

Import JsString Js.

Variable Date_parse : string -> option Z.
Variable Date_now : Z.

Lemma matchCount_digits units digits tail :
  allChars isDigit digits = true ->
  match tail with EmptyString => true | String c _ => negb (isDigit c) end = true ->
  ProfileAnalysis.matchCount units (digits +:+ tail)
  = if existsb (fun u => startsWithCI u (skipSpaces tail)) units
    then match digits with
         | EmptyString => ProfileAnalysis.matchCount units tail
         | _ => Some (parseInt digits)
         end
    else ProfileAnalysis.matchCount units tail.
Proof.
  intros Hd Ht. induction digits as [|c digits IH].
  - change (EmptyString +:+ tail) with tail.
    match goal with
    | |- context [existsb ?f units] => destruct (existsb f units)
    end; reflexivity.
  - pose proof (span_digits (String c digits) tail Hd Ht) as Hspan.
    cbn [allChars] in Hd. apply andb_true_iff in Hd as [Hc Hd].
    change (String c digits +:+ tail) with (String c (digits +:+ tail)) in *.
    cbn [ProfileAnalysis.matchCount]. rewrite Hc, Hspan. cbv beta iota.
    rewrite (IH Hd).
    match goal with
    | |- (if ?b then _ else _) = _ => destruct b eqn:E
    end; reflexivity.
Qed.

Lemma hyphenRangeMatch_no_hyphen s :
  anyChar (fun c => Ascii.eqb c "-") s = false -> Scraper.hyphenRangeMatch s = None.
Proof.
  assert (Hat : forall t, anyChar (fun c => Ascii.eqb c "-") t = false ->
                  Scraper.matchHyphenRangeAt t = None).
  { intros t H. unfold Scraper.matchHyphenRangeAt, ProfileAnalysis.matchMonthYear.
    pose proof (anyChar_spanSpaces_rest _ O _ (anyChar_drop _ 3 _ H)) as Hr.
    fold (spanSpaces (drop 3 t)) in Hr.
    destruct (spanSpaces (drop 3 t)) as [sp r]. cbn [snd] in Hr.
    destruct (_ && _); [|reflexivity].
    pose proof (anyChar_skipSpaces _ _ (anyChar_drop _ 4 _ Hr)) as Hr1.
    unfold Scraper.matchHyphen.
    destruct (skipSpaces (drop 4 r)) as [|c r1]; [reflexivity|].
    cbn [anyChar] in Hr1. apply orb_false_iff in Hr1 as [Hc _].
    cbn [startsWith]. rewrite Ascii.eqb_sym, Hc. reflexivity. }
  induction s as [|c s IH]; intros H.
  - reflexivity.
  - cbn [Scraper.hyphenRangeMatch]. rewrite (Hat _ H).
    cbn [anyChar] in H. apply orb_false_iff in H as [_ H]. auto.
Qed.

Lemma anyChar_app p a b : anyChar p (a +:+ b) = anyChar p a || anyChar p b.
Proof.
  induction a as [|c a IH]; [reflexivity|].
  change (String c a +:+ b) with (String c (a +:+ b)). cbn [anyChar].
  rewrite IH. apply orb_assoc.
Qed.

Lemma digits_no_hyphen digits :
  allChars isDigit digits = true ->
  anyChar (fun c => Ascii.eqb c "-") digits = false.
Proof.
  induction digits as [|c digits IH]; [reflexivity|]. cbn [allChars anyChar].
  intros H. apply andb_true_iff in H as [Hc Hd]. rewrite (IH Hd), orb_false_r.
  destruct (Ascii.eqb c "-") eqn:E; [|reflexivity].
  apply Ascii.eqb_eq in E. subst c. discriminate.
Qed.

(** X29. The scraper and the profile analysis read durations with
    different patterns and disagree on a year that is spelled out: for a
    duration made of a number that is not 0 followed by " year" or
    " years", the scraper's [analyzeCareerProgression] counts no month
    at all, whereas [calculateExperienceYears] counts twelve months for
    each year. *)
Theorem year_spelled_out digits plural :
  truthy digits = true ->
  allChars isDigit digits = true ->
  parseInt digits <> 0 ->
  plural = EmptyString \/ plural = "s"%string ->
  let d := digits +:+ " year" +:+ plural in
  Scraper.durationMonths Date_parse Date_now d = 0
  /\ ProfileAnalysis.durationMonths Date_parse Date_now d = parseInt digits * 12.
Proof.
  intros Ht Hd Hn Hp d.
  assert (Hscraper : forall units,
            existsb (fun u => startsWithCI u (skipSpaces (" year" +:+ plural))) units
            = false ->
            ProfileAnalysis.matchCount units (" year" +:+ plural) = None ->
            ProfileAnalysis.matchCount units d = None).
  { intros units He Hm. unfold d. rewrite matchCount_digits; [|exact Hd|reflexivity].
    rewrite He. exact Hm. }
  assert (Hyear : ProfileAnalysis.yearMatch d = Some (parseInt digits)).
  { unfold ProfileAnalysis.yearMatch, d.
    rewrite matchCount_digits; [|exact Hd|reflexivity].
    destruct Hp as [-> | ->]; destruct digits; try discriminate; reflexivity. }
  assert (Hhyphen : Scraper.hyphenRangeMatch d = None).
  { apply hyphenRangeMatch_no_hyphen. unfold d.
    rewrite anyChar_app, (digits_no_hyphen _ Hd).
    destruct Hp as [-> | ->]; reflexivity. }
  split.
  - unfold Scraper.durationMonths.
    rewrite (Hscraper ["yr"]%string), (Hscraper ["mo"]%string), Hhyphen;
      try reflexivity; destruct Hp as [-> | ->]; reflexivity.
  - unfold ProfileAnalysis.durationMonths. rewrite Hyear.
    unfold ProfileAnalysis.monthMatch.
    rewrite (Hscraper ["mo"; "month"]%string);
      try (destruct Hp as [-> | ->]; reflexivity).
    rewrite Z.add_0_r.
    destruct (parseInt digits * 12 =? 0) eqn:E; [|reflexivity].
    apply Z.eqb_eq in E. lia.
Qed.

End ParserFacts.

Section ParserSamples.

Lemma year_spelled_out_sample :
  Scraper.durationMonths ProfileAnalysis.parseMonthYear 0 "2 years" = 0
  /\ ProfileAnalysis.durationMonths ProfileAnalysis.parseMonthYear 0 "2 years" = 24.
Proof.
  refine (year_spelled_out ProfileAnalysis.parseMonthYear 0 "2" "s" _ _ _ _).
  - reflexivity.
  - reflexivity.
  - discriminate.
  - right. reflexivity.
Defined.

End ParserSamples.

Section InterestFacts.

Import JsString Js ProfileAnalysis.

Variable Date_parse : string -> option Z.
Variable Date_now : Z.
Variable Number_toString : Q -> string.

Local Abbreviation analyzeProfileForRAG :=
  (analyzeProfileForRAG Date_parse Date_now Number_toString).

(** X30. The educational background of an analysed profile has one text
    for every education entry, in order: the texts are never empty, so
    dropping the falsy ones drops nothing, and an entry without degree
    reads "undefined from" its school.  The volunteer causes are the
    cause of each entry or, failing that, its organization; an entry
    that has neither is left out, so that no cause is empty. *)
Theorem interests_texts (profile : RawProfile) :
  let found := interests (analyzeProfileForRAG profile) in
  let education := default [] (education profile) in
  let volunteers := default [] (volunteerExperience profile) in
  educationalBackground found
  = List.map (fun e => show (edu_degree e) +:+ " from " +:+ show (edu_school e))
             education
  /\ (forall e, e ∈ education -> edu_degree e = None ->
        ("undefined from " +:+ show (edu_school e)) ∈ educationalBackground found)
  /\ Forall (fun cause => truthy cause = true) (volunteerCauses found)
  /\ length (volunteerCauses found)
     = length (List.filter (fun v => truthyStr (vol_cause v)
                                     || truthyStr (vol_organization v)) volunteers)
  /\ (forall cause, cause ∈ volunteerCauses found ->
        exists v, v ∈ volunteers
                  /\ (vol_cause v = Some cause
                      \/ (truthyStr (vol_cause v) = false
                          /\ vol_organization v = Some cause))).
Proof.
  intros found education volunteers.
  unfold found, ProfileAnalysis.analyzeProfileForRAG.
  cbn [interests educationalBackground volunteerCauses extractInterestContext].
  fold education. fold volunteers.
  assert (Hedu : List.filter truthy
                   (List.map (fun e => show (edu_degree e) +:+ " from "
                                       +:+ show (edu_school e)) education)
                 = List.map (fun e => show (edu_degree e) +:+ " from "
                                      +:+ show (edu_school e)) education).
  { apply filter_all, Forall_forall. intros text Hin.
    apply list_elem_of_fmap in Hin as (e & -> & _).
    destruct (show (edu_degree e)); reflexivity. }
  rewrite Hedu.
  assert (Hcause : forall cause,
            cause ∈ omap (fun v =>
                            let c := orOpt (vol_cause v) (vol_organization v) in
                            if truthyStr c then c else None) volunteers ->
            truthy cause = true
            /\ exists v, v ∈ volunteers
                 /\ (vol_cause v = Some cause
                     \/ (truthyStr (vol_cause v) = false
                         /\ vol_organization v = Some cause))).
  { intros cause Hin. apply list_elem_of_omap in Hin as (v & Hv & Hc).
    cbv zeta in Hc. unfold orOpt in Hc.
    destruct (truthyStr (vol_cause v)) eqn:E1.
    - rewrite E1 in Hc. split; [rewrite Hc in E1; exact E1|]. eauto.
    - destruct (truthyStr (vol_organization v)) eqn:E2; [|discriminate].
      split; [rewrite Hc in E2; exact E2|]. eauto. }
  split; [reflexivity|]. split.
  - intros e He Hd.
    apply (list_elem_of_fmap_2
             (fun e => show (edu_degree e) +:+ " from " +:+ show (edu_school e))) in He.
    rewrite Hd in He. exact He.
  - split; [apply Forall_forall; intros cause Hin; apply (Hcause cause Hin)|].
    split; [|intros cause Hin; apply (Hcause cause Hin)].
    clear. induction volunteers as [|v l IH]; [reflexivity|].
    rewrite filter_head.
    change (omap ?f (v :: l))
      with (match f v with Some y => y :: omap f l | None => omap f l end).
    cbv beta zeta.
    assert (Hv : match (if truthyStr (orOpt (vol_cause v) (vol_organization v))
                        then orOpt (vol_cause v) (vol_organization v) else None)
                 with Some _ => true | None => false end
                 = truthyStr (vol_cause v) || truthyStr (vol_organization v)).
    { unfold orOpt. destruct (truthyStr (vol_cause v)) eqn:E1; cbn [orb].
      - rewrite E1. destruct (vol_cause v); [reflexivity|discriminate].
      - destruct (truthyStr (vol_organization v)) eqn:E2; [|reflexivity].
        destruct (vol_organization v); [reflexivity|discriminate]. }
    rewrite <- Hv.
    destruct (if truthyStr (orOpt (vol_cause v) (vol_organization v))
              then orOpt (vol_cause v) (vol_organization v) else None);
      cbn [length]; rewrite IH; reflexivity.
Qed.

End InterestFacts.
